(** * transform.mjs: the filter-line parser, the hostname reduction, the hosts
      compiler and the format/fix engine, as a shallow embedding.

    JavaScript strings are sequences of UTF-16 code units; [charCodeAt]
    answers [NaN] outside the string.  A string is modelled as a list of code
    units in [Z], [NaN] as [None], indices as [Z] (the source computes
    negative ones), [null] as [None], and a thrown error as the [Throw] case
    of [result].

    Every loop of the source walks an index over a line.  Its model recurses
    on a counter that starts at the length of the line (plus the one or two
    steps a loop takes past the end) and, at zero, answers what the loop
    leaves behind when its condition fails. *)

From Stdlib Require Import Strings.String Strings.Ascii Numbers.DecimalString.
From Stdlib Require Import ZArith List Bool Lia.
Import ListNotations.
Open Scope Z_scope.

(** ** JavaScript strings *)

Definition jsstring := list Z.

(** A literal of the source, code unit by code unit. *)
Definition str (s : string) : jsstring :=
  map (fun a => Z.of_N (N_of_ascii a)) (list_ascii_of_string s).
Arguments str s%_string.

Definition len (s : jsstring) : Z := Z.of_nat (length s).

Definition charCodeAt (s : jsstring) (i : Z) : option Z :=
  if i <? 0 then None else nth_error s (Z.to_nat i).

(** [line.charAt(i)]: the one-unit string at [i], empty outside the string. *)
Definition charAt (s : jsstring) (i : Z) : jsstring :=
  match charCodeAt s i with Some c => [c] | None => [] end.

(** [c === n] for a char code [c] that may be [NaN]. *)
Definition codeIs (c : option Z) (n : Z) : bool :=
  match c with Some x => x =? n | None => false end.

Definition isNaN (c : option Z) : bool :=
  match c with Some _ => false | None => true end.

(** [s.slice(start, end)], with the relative (negative) indices of
    String.prototype.slice. *)
Definition slice (s : jsstring) (start end_ : Z) : jsstring :=
  let l := len s in
  let from := if start <? 0 then Z.max (l + start) 0 else Z.min start l in
  let to := if end_ <? 0 then Z.max (l + end_) 0 else Z.min end_ l in
  firstn (Z.to_nat (to - from)) (skipn (Z.to_nat from) s).

(** [s.slice(start)]. *)
Definition sliceFrom (s : jsstring) (start : Z) : jsstring :=
  slice s start (len s).

Fixpoint jsstring_eqb (a b : jsstring) : bool :=
  match a, b with
  | [], [] => true
  | x :: a', y :: b' => (x =? y) && jsstring_eqb a' b'
  | _, _ => false
  end.

Fixpoint startsWith (s prefix : jsstring) {struct prefix} : bool :=
  match prefix, s with
  | [], _ => true
  | p :: prefix', c :: s' => (c =? p) && startsWith s' prefix'
  | _ :: _, [] => false
  end.

(** [s.includes(sub)]. *)
Fixpoint includes (s sub : jsstring) : bool :=
  startsWith s sub ||
  match s with
  | [] => false
  | _ :: s' => includes s' sub
  end.

(** [s.indexOf(String.fromCharCode(c))], [-1] when absent. *)
Fixpoint indexOfFrom (s : jsstring) (c : Z) (i : Z) : Z :=
  match s with
  | [] => -1
  | x :: s' => if x =? c then i else indexOfFrom s' c (i + 1)
  end.

Definition indexOf (s : jsstring) (c : Z) : Z := indexOfFrom s c 0.

(** [list.split('\n')]: never empty, [['']] for the empty string. *)
Fixpoint split (sep : Z) (s : jsstring) : list jsstring :=
  match s with
  | [] => [[]]
  | c :: s' =>
      if c =? sep then [] :: split sep s'
      else match split sep s' with
           | h :: r => (c :: h) :: r
           | [] => [[c]]
           end
  end.

(** [parts.join(sep)]. *)
Fixpoint join (sep : jsstring) (parts : list jsstring) : jsstring :=
  match parts with
  | [] => []
  | [p] => p
  | p :: rest => p ++ sep ++ join sep rest
  end.

(** The decimal text of an integer, as [String(i)] and template literals
    give it. *)
Definition numberToString (n : Z) : jsstring :=
  str (NilZero.string_of_int (Z.to_int n)).

(** ** Values of the pattern start marker

    [markers.pattern[0]] starts as the number [-1], the whitespace loop
    stores the one-element array [[i]] in it, and [+=] then adds a number to
    whatever it holds.  Adding a number to an array concatenates their texts;
    [slice] converts a text back to a number. *)

Inductive jsvalue : Type :=
| JNum (n : Z)
| JArr (i : Z)
| JStr (s : jsstring).

Definition jsAdd (v : jsvalue) (n : Z) : jsvalue :=
  match v with
  | JNum m => JNum (m + n)
  | JArr i => JStr (numberToString i ++ numberToString n)
  | JStr s => JStr (s ++ numberToString n)
  end.

Definition digitOf (c : Z) : option Z :=
  if (48 <=? c) && (c <=? 57) then Some (c - 48) else None.

(** Decimal digits to a number; [None] (NaN) on anything else. *)
Fixpoint parseDigits (s : jsstring) (acc : Z) : option Z :=
  match s with
  | [] => Some acc
  | c :: s' =>
      match digitOf c with
      | Some d => parseDigits s' (10 * acc + d)
      | None => None
      end
  end.

(** ToIntegerOrInfinity on the values above: [NaN] becomes [0], the empty
    text is [0]. *)
Definition toInteger (v : jsvalue) : Z :=
  match v with
  | JNum n => n
  | JArr i => i
  | JStr s =>
      match s with
      | 45 :: s' =>
          match s' with
          | [] => 0
          | _ => match parseDigits s' 0 with Some n => - n | None => 0 end
          end
      | _ => match parseDigits s 0 with Some n => n | None => 0 end
      end
  end.

(** ** Errors *)

Inductive error : Type :=
| SyntaxError (message : jsstring)
| OtherError (description : jsstring).

(** [ProgramError.toString]: [name + ': ' + message]; any other thrown value
    prints as its own description. *)
Definition errorToString (e : error) : jsstring :=
  match e with
  | SyntaxError message => str "SyntaxError" ++ str ": " ++ message
  | OtherError description => description
  end.

Inductive result (A : Type) : Type :=
| Ok (a : A)
| Throw (e : error).
Arguments Ok {A} a.
Arguments Throw {A} e.

(** ** The parser *)

Definition isWhitespace (c : option Z) : bool :=
  match c with
  | Some x => (x <=? 32) || (x =? 127)
  | None => false
  end.

Definition modifier : Type := jsstring * option jsstring.
Definition span : Type := Z * Z.
Definition modifierMarker : Type := span * option span.

Record markerTable : Type := {
  markPattern : jsvalue * Z;
  markModifiers : list modifierMarker
}.

Record networkFilter : Type := {
  pattern : jsstring;
  networkLine : jsstring;
  modifiers : list modifier;
  isException : bool;
  matchSubdomains : bool;
  matchBeginningOfAddress : bool;
  matchEndOfAddress : bool;
  markers : markerTable
}.

Record cosmeticFilter : Type := {
  cosmeticLine : jsstring;
  hostname : jsstring;
  selector : jsstring;
  cosmeticIsException : bool
}.

(** [details.type] is the constructor. *)
Inductive details : Type :=
| FILTER_TYPE_OTHERS (l : jsstring)
| FILTER_TYPE_NETWORK (d : networkFilter)
| FILTER_TYPE_COSMETIC (d : cosmeticFilter).

Definition line (d : details) : jsstring :=
  match d with
  | FILTER_TYPE_OTHERS l => l
  | FILTER_TYPE_NETWORK d => networkLine d
  | FILTER_TYPE_COSMETIC d => cosmeticLine d
  end.

Definition quote : jsstring := [34].

(** The marker loop of [parseCosmeticFilter], from index [i]: the index the
    selector starts at and the exception flag, or the syntax error. *)
Fixpoint cosmeticMarker (fuel : nat) (l : jsstring) (i : Z) (exc : bool)
  : result (Z * bool) :=
  match fuel with
  | O => Ok (i, exc)
  | S fuel' =>
      if i <? len l then
        let c := charCodeAt l i in
        if codeIs c 64 then cosmeticMarker fuel' l (i + 1) true
        else if codeIs c 35 then Ok (i + 1, exc)
        else Throw (SyntaxError
               (str "Expected " ++ quote ++ str "#" ++ quote ++ str " or "
                ++ quote ++ str "@" ++ quote
                ++ str " for cosmetic filter marker but saw "
                ++ quote ++ charAt l i ++ quote ++ str " at position "
                ++ quote ++ numberToString i ++ quote ++ str "!"))
      else Ok (i, exc)
  end.

Definition parseCosmeticFilter (l : jsstring) (i : Z) : result details :=
  match cosmeticMarker (length l) l (i + 1) false with
  | Throw e => Throw e
  | Ok (i', exc) =>
      Ok (FILTER_TYPE_COSMETIC
            {| cosmeticLine := l;
               hostname := slice l 0 i;
               selector := sliceFrom l i';
               cosmeticIsException := exc |})
  end.

(** The whitespace loop of [parseNetworkFilter].  Its counter is a [let] of
    the loop's own, so the function's [i] stays [0]; what it leaves behind is
    the value stored in [markers.pattern[0]]. *)
Fixpoint skipWhitespaces (fuel : nat) (l : jsstring) (i : Z) : jsvalue :=
  match fuel with
  | O => JNum (-1)
  | S fuel' =>
      if i <? len l then
        if negb (isWhitespace (charCodeAt l i)) then JArr i
        else skipWhitespaces fuel' l (i + 1)
      else JNum (-1)
  end.

(** The lookahead from a [$] at [i]: the pair [(i, k)] when the inner loop
    is left. *)
Fixpoint lookahead (fuel : nat) (l : jsstring) (i k : Z) : Z * Z :=
  match fuel with
  | O => (i, k)
  | S fuel' =>
      if k <? len l then
        let c := charCodeAt l k in
        if codeIs c 61 then (i, k)
        else if codeIs c 36 then (k, k)
        else lookahead fuel' l i (k + 1)
      else (i, k)
  end.

(** The scan for the modifier marker: the final [i]. *)
Fixpoint findModifierMarker (fuel : nat) (l : jsstring) (i : Z) : Z :=
  match fuel with
  | O => i
  | S fuel' =>
      if i <? len l then
        if codeIs (charCodeAt l i) 36 then
          let '(i', k) := lookahead (length l) l i (i + 1) in
          if negb (i' =? k) then i'
          else findModifierMarker fuel' l (i' + 1)
        else findModifierMarker fuel' l (i + 1)
      else i
  end.

(** The value loop after a [=]: the index it stops at and whether it left by
    [break]. *)
Fixpoint modifierValue (fuel : nat) (l : jsstring) (i : Z) : Z * bool :=
  match fuel with
  | O => (i, false)
  | S fuel' =>
      if i <? len l + 1 then
        let c := charCodeAt l i in
        if codeIs c 92 then modifierValue fuel' l (i + 1)
        else if codeIs c 44 || isNaN c then (i, true)
        else modifierValue fuel' l (i + 1)
      else (i, false)
  end.

(** [xs[xs.length - 1][1] = v]. *)
Fixpoint setLastValue {A B : Type} (xs : list (A * option B)) (v : B)
  : list (A * option B) :=
  match xs with
  | [] => []
  | [(a, _)] => [(a, Some v)]
  | x :: xs' => x :: setLastValue xs' v
  end.

Fixpoint searchModifiers (fuel : nat) (l : jsstring) (i k : Z)
  (mods : list modifier) (marks : list modifierMarker)
  : list modifier * list modifierMarker :=
  match fuel with
  | O => (mods, marks)
  | S fuel' =>
      if i <? len l + 1 then
        let c := charCodeAt l i in
        if codeIs c 61 then
          let mods := mods ++ [(slice l k i, None)] in
          let marks := marks ++ [((k, i), None)] in
          let k := i + 1 in
          let '(i', broke) := modifierValue (length l + 2) l k in
          if broke then
            searchModifiers fuel' l (i' + 1) (i' + 1)
              (setLastValue mods (slice l k i'))
              (setLastValue marks (k, i'))
          else searchModifiers fuel' l (i' + 1) k mods marks
        else if codeIs c 44 then
          searchModifiers fuel' l (i + 1) (i + 1)
            (mods ++ [(slice l k i, None)]) (marks ++ [((k, i), None)])
        else if isNaN c && (i >? k) then
          searchModifiers fuel' l (i + 1) k
            (mods ++ [(slice l k i, None)]) (marks ++ [((k, i), None)])
        else searchModifiers fuel' l (i + 1) k mods marks
      else (mods, marks)
  end.

Definition parseNetworkFilter (l : jsstring) : networkFilter :=
  let i := 0 in
  (* skip whitespaces *)
  let pattern0 := skipWhitespaces (length l) l 0 in
  (* check exception *)
  let '(exc, i) :=
    if codeIs (charCodeAt l i) 64 && codeIs (charCodeAt l (i + 1)) 64
    then (true, i + 2) else (false, i) in
  (* check pipes *)
  let '(sub, boa, i) :=
    if codeIs (charCodeAt l i) 124 then
      let i := i + 1 in
      if codeIs (charCodeAt l i) 124 then (true, false, i + 1)
      else (false, true, i)
    else (false, false, i) in
  (* check if there is a char before eol *)
  let i := findModifierMarker (S (length l)) l i in
  (* detect trailing pipe *)
  let eoa := codeIs (charCodeAt l (i - 1)) 124 in
  (* extract pattern *)
  let pattern0 := jsAdd pattern0 (if boa then 1 else if sub then 2 else 0) in
  (* drop network modifier from the url pattern *)
  let pattern1 := if i =? len l then i else i - 1 in
  (* search modifiers *)
  let '(mods, marks) := searchModifiers (length l + 2) l (i + 1) (i + 1) [] [] in
  {| pattern := slice l (toInteger pattern0) pattern1;
     networkLine := l;
     modifiers := mods;
     isException := exc;
     matchSubdomains := sub;
     matchBeginningOfAddress := boa;
     matchEndOfAddress := eoa;
     markers := {| markPattern := (pattern0, pattern1);
                   markModifiers := marks |} |}.

(** The classification loop of [parseFilter]. *)
Fixpoint classify (fuel : nat) (l : jsstring) (i : Z) : result details :=
  match fuel with
  | O => Ok (FILTER_TYPE_NETWORK (parseNetworkFilter l))
  | S fuel' =>
      if i <? len l then
        let c := charCodeAt l i in
        if codeIs c 91 || codeIs c 33 then Ok (FILTER_TYPE_OTHERS l)
        else if codeIs c 47 || codeIs c 58 || codeIs c 94 || codeIs c 64
                || codeIs c 124
        then Ok (FILTER_TYPE_NETWORK (parseNetworkFilter l))
        else if codeIs c 35 then parseCosmeticFilter l i
        else classify fuel' l (i + 1)
      else Ok (FILTER_TYPE_NETWORK (parseNetworkFilter l))
  end.

Definition parseFilter (l : jsstring) : result details :=
  if len l =? 0 then Ok (FILTER_TYPE_OTHERS l)
  else classify (length l) l 0.

(** ** Transformers *)

Definition isRegexpPattern (d : networkFilter) : bool :=
  codeIs (charCodeAt (pattern d) 0) 47
  && codeIs (charCodeAt (pattern d) (len (pattern d) - 1)) 47.

Definition isPathnamePattern (c : option Z) : bool :=
  codeIs c 124 || codeIs c 35 || codeIs c 47 || codeIs c 63 || codeIs c 38.

Definition isAlphabet (c : option Z) : bool :=
  match c with
  | Some c =>
      (* make it upper case *)
      let c := if c >=? 97 then c - 32 else c in
      (c >=? 65) && (c <=? 90)
  | None => false
  end.

Definition isNumeric (c : option Z) : bool :=
  match c with
  | Some c => (c >=? 48) && (c <=? 57)
  | None => false
  end.

(** The validation loop of [transformToHostnamePattern] over the indices
    [i .. bound - 1]: [None] when the function returns [null] from inside the
    loop, else the final [hasDot]. *)
Fixpoint hostnameLoop (fuel : nat) (p : jsstring) (bound i : Z)
  (hasDot : bool) : option bool :=
  match fuel with
  | O => Some hasDot
  | S fuel' =>
      if i <? bound then
        let c := charCodeAt p i in
        if isPathnamePattern c || codeIs c 42 then None
        else if codeIs c 46 then
          (* detect repeated dots *)
          if codeIs (charCodeAt p (i + 1)) 46 then None
          else hostnameLoop fuel' p bound (i + 1) true
        else hostnameLoop fuel' p bound (i + 1) hasDot
      else Some hasDot
  end.

Definition transformToHostnamePattern (d : networkFilter) : option jsstring :=
  let p := pattern d in
  if isRegexpPattern d || matchEndOfAddress d || matchBeginningOfAddress d
     || (len p <? 3)
  then None
  else
    let c := charCodeAt p 0 in
    let o := -1 in
    (* validate beg *)
    if negb (isNumeric c) && negb (isAlphabet c) then None
    else
      (* detect trailing sep pattern *)
      let c := charCodeAt p (len p + o) in
      let '(c, o) :=
        if codeIs c 94 then (charCodeAt p (len p + (o - 1)), o - 1)
        else (c, o) in
      (* validate end *)
      if negb (isAlphabet c) then None
      else
        match hostnameLoop (length p) p (len p + o) 1 false with
        | None => None
        | Some hasDot =>
            (* detect hostnames without a tld *)
            if negb hasDot then None
            else
              let o := len p in
              (* drop trailing sep char *)
              let o := if codeIs (charCodeAt p (o - 1)) 94 then o - 1 else o in
              Some (slice p 0 o)
        end.

(** ** Compilers *)

Definition isThirdpartyConstraint (opt : jsstring) : bool :=
  jsstring_eqb opt (str "3p") || jsstring_eqb opt (str "third-party").

Record options : Type := {
  strict : bool;
  debug : bool
}.

(** A hostname variable holds a string or [null]. *)
Definition hostnameValue : Type := option jsstring.

(** [v === null]. *)
Definition isNull {A : Type} (v : option A) : bool :=
  match v with Some _ => false | None => true end.

Definition hostnameValue_eqb (a b : hostnameValue) : bool :=
  match a, b with
  | Some x, Some y => jsstring_eqb x y
  | None, None => true
  | _, _ => false
  end.

(** A [Set] in insertion order. *)
Definition setAdd (x : hostnameValue) (s : list hostnameValue)
  : list hostnameValue :=
  if existsb (hostnameValue_eqb x) s then s else s ++ [x].

Definition setDelete (x : hostnameValue) (s : list hostnameValue)
  : list hostnameValue :=
  filter (fun y => negb (hostnameValue_eqb x y)) s.

Definition setHas (x : hostnameValue) (s : list hostnameValue) : bool :=
  existsb (hostnameValue_eqb x) s.

(** The two sets of [compileHosts] and what went to [console.error]. *)
Record hostsState : Type := {
  exceptions : list hostnameValue;
  hostnames : list hostnameValue;
  hostsErr : list jsstring
}.

Definition hostsInit : hostsState :=
  {| exceptions := []; hostnames := []; hostsErr := [] |}.

Definition hostsLog (st : hostsState) (message : jsstring) : hostsState :=
  {| exceptions := exceptions st;
     hostnames := hostnames st;
     hostsErr := hostsErr st ++ [message] |}.

(** [exceptions.add(hostname); hostnames.delete(hostname)]. *)
Definition addException (st : hostsState) (h : hostnameValue) : hostsState :=
  {| exceptions := setAdd h (exceptions st);
     hostnames := setDelete h (hostnames st);
     hostsErr := hostsErr st |}.

(** [hostnames.add(hostname)]. *)
Definition addHostname (st : hostsState) (h : hostnameValue) : hostsState :=
  {| exceptions := exceptions st;
     hostnames := setAdd h (hostnames st);
     hostsErr := hostsErr st |}.

(** Text of a string-or-null in a template literal or concatenation. *)
Definition hostnameText (h : hostnameValue) : jsstring :=
  match h with Some s => s | None => str "null" end.

(** [details.pattern = p]. *)
Definition setPattern (d : networkFilter) (p : jsstring) : networkFilter :=
  {| pattern := p;
     networkLine := networkLine d;
     modifiers := modifiers d;
     isException := isException d;
     matchSubdomains := matchSubdomains d;
     matchBeginningOfAddress := matchBeginningOfAddress d;
     matchEndOfAddress := matchEndOfAddress d;
     markers := markers d |}.

(** The third-party loop: the [i] it is left with. *)
Fixpoint thirdpartyLoop (mods : list modifier) (i : Z) : Z :=
  match mods with
  | [] => i
  | m :: mods' =>
      if isThirdpartyConstraint (fst m) then i
      else thirdpartyLoop mods' (i + 1)
  end.

(** The body of the [try] block for one line. *)
Definition hostsTry (opts : options) (st : hostsState) (l : jsstring)
  : result hostsState :=
  match parseFilter l with
  | Throw e => Throw e
  | Ok (FILTER_TYPE_NETWORK d) =>
      let hostname := transformToHostnamePattern d in
      if isException d then
        (* try detecting path level exception in loose mode *)
        if negb (strict opts) && isNull hostname then
          let l' := indexOf (pattern d) 47 in
          if l' =? -1 then Ok st
          else
            let d := setPattern d (slice (pattern d) 0 l') in
            let hostname := transformToHostnamePattern d in
            if isNull hostname then Ok st
            else
              let st :=
                if debug opts then
                  hostsLog st
                    (str "Path-level exception set: hostname=" ++ quote
                     ++ hostnameText hostname ++ quote ++ str " line=" ++ quote
                     ++ l ++ quote)
                else st in
              Ok (addException st hostname)
        else Ok (addException st hostname)
      else if negb (isNull hostname) then
        if negb (strict opts) then
          let i := thirdpartyLoop (modifiers d) 0 in
          (* check if triggered *)
          if negb (i =? Z.of_nat (length (modifiers d))) then Ok (addException st hostname)
          else Ok (addHostname st hostname)
        else Ok (addHostname st hostname)
      else Ok st
  | Ok _ => Ok st
  end.

(** The [catch] block shared by [compileHosts] and [compileJson]: the text
    sent to [console.error]. *)
Definition catchMessage (l : jsstring) (e : error) : jsstring :=
  match e with
  | SyntaxError _ =>
      str "Invalid filter: line=" ++ quote ++ l ++ quote ++ str " e=" ++ quote
      ++ errorToString e ++ quote
  | OtherError _ =>
      str "Unknown error: e=" ++ quote ++ errorToString e ++ quote
  end.

(** One iteration of the loop of [compileHosts]. *)
Definition hostsStep (opts : options) (st : hostsState) (l : jsstring)
  : hostsState :=
  match hostsTry opts st l with
  | Ok st' => st'
  | Throw e => hostsLog st (catchMessage l e)
  end.

Definition hostsFold (opts : options) (lines : list jsstring)
  (st : hostsState) : hostsState :=
  fold_left (hostsStep opts) lines st.

(** The state when the loop of [compileHosts] is over. *)
Definition compileHostsState (text : jsstring) (opts : options) : hostsState :=
  hostsFold opts (split 10 text) hostsInit.

Definition hostsOutput (st : hostsState) : list jsstring :=
  map (fun h => str "127.0.0.1 " ++ hostnameText h) (hostnames st).

Definition compileHosts (text : jsstring) (opts : options) : jsstring :=
  join [10] (hostsOutput (compileHostsState text opts)).

(** [compileJson]: the array handed to [JSON.stringify] (the encoding itself
    is the runtime's) and what went to [console.error]. *)
Definition jsonStep (st : list details * list jsstring) (l : jsstring)
  : list details * list jsstring :=
  match parseFilter l with
  | Ok d => (fst st ++ [d], snd st)
  | Throw e => (fst st, snd st ++ [catchMessage l e])
  end.

Definition jsonFold (lines : list jsstring)
  (st : list details * list jsstring) : list details * list jsstring :=
  fold_left jsonStep lines st.

Definition compileJson (text : jsstring) : list details * list jsstring :=
  jsonFold (split 10 text) ([], []).

(** ** Formatters *)

Inductive diff : Type :=
| DIFF_TYPE_DELETE (rule : jsstring) (offset length : Z)
| DIFF_TYPE_CREATE (rule : jsstring) (offset : Z) (text : jsstring).

Definition FILTER_MODIFIER_TYPE_TABLE : list (jsstring * jsstring) :=
  [ (str "1p", str "first-party");
    (str "3p", str "third-party");
    (str "xhr", str "xmlhttprequest") ].

(** WhiteSpace and LineTerminator of ECMAScript, which [trim], [trimStart]
    and [trimEnd] strip. *)
Definition isTrimmed (c : Z) : bool :=
  ((9 <=? c) && (c <=? 13)) || (c =? 32) || (c =? 160) || (c =? 5760)
  || ((8192 <=? c) && (c <=? 8202)) || (c =? 8232) || (c =? 8233)
  || (c =? 8239) || (c =? 8287) || (c =? 12288) || (c =? 65279).

Fixpoint trimStart (s : jsstring) : jsstring :=
  match s with
  | [] => []
  | c :: s' => if isTrimmed c then trimStart s' else s
  end.

Definition trimEnd (s : jsstring) : jsstring := rev (trimStart (rev s)).

Definition trim (s : jsstring) : jsstring := trimEnd (trimStart s).

(** The first loop of [format]: the [i] it is left with. *)
Fixpoint leadingScan (fuel : nat) (l : jsstring) (i : Z) : Z :=
  match fuel with
  | O => i
  | S fuel' =>
      if i <? len l then
        if negb (isWhitespace (charCodeAt l i)) then i
        else leadingScan fuel' l (i + 1)
      else i
  end.

(** The second loop of [format], downwards from the last index. *)
Fixpoint trailingScan (fuel : nat) (l : jsstring) (i : Z) : Z :=
  match fuel with
  | O => i
  | S fuel' =>
      if i >? -1 then
        if negb (isWhitespace (charCodeAt l i)) then i
        else trailingScan fuel' l (i - 1)
      else i
  end.

(** The alias loop over [FILTER_MODIFIER_TYPE_TABLE]. *)
Fixpoint aliasDiffs (table : list (jsstring * jsstring)) (opt : jsstring)
  (name : span) : list diff :=
  match table with
  | [] => []
  | (alias, full) :: table' =>
      if jsstring_eqb (trim opt) alias then
        [ DIFF_TYPE_DELETE (str "full-modifier-name")
            (fst name) (snd name - fst name);
          DIFF_TYPE_CREATE (str "full-modifier-name") (fst name) full ]
      else aliasDiffs table' opt name
  end.

Definition typeError : error := OtherError (str "TypeError").

(** The edits of [format] on a modifier name [opt] with span [name]. *)
Definition nameDiffs (opt : jsstring) (name : span) : list diff :=
  let i := len (trimStart opt) in
  let d1 :=
    if negb (len opt =? i)
    then [DIFF_TYPE_DELETE (str "no-modifier-whitespaces")
            (fst name) (len opt - i)]
    else [] in
  let i := len (trimEnd opt) in
  let d2 :=
    if negb (len opt =? i)
    then [DIFF_TYPE_DELETE (str "no-modifier-whitespaces")
            (snd name - (len opt - i)) (len opt - i)]
    else [] in
  d1 ++ d2 ++ aliasDiffs FILTER_MODIFIER_TYPE_TABLE opt name.

(** The edits of [format] on a modifier value [val] with span [value]. *)
Definition valueDiffs (val : jsstring) (value : span) : list diff :=
  let i := len (trimStart val) in
  let d1 :=
    if negb (len val =? i)
    then [DIFF_TYPE_DELETE (str "no-modifier-value-whitespaces")
            (fst value) (len val - i)]
    else [] in
  let i := len (trimEnd val) in
  let d2 :=
    if negb (len val =? i)
    then [DIFF_TYPE_DELETE (str "no-modifier-value-whitespaces")
            (snd value - (len val - i)) (len val - i)]
    else [] in
  d1 ++ d2.

(** Whether [format] pushes an edit for the name, and so reads its span. *)
Definition readsNameSpan (opt : jsstring) : bool :=
  negb (len opt =? len (trimStart opt))
  || negb (len opt =? len (trimEnd opt))
  || existsb (fun a => jsstring_eqb (trim opt) (fst a))
       FILTER_MODIFIER_TYPE_TABLE.

(** Whether [format] pushes an edit for the value, and so reads its span. *)
Definition readsValueSpan (val : jsstring) : bool :=
  negb (len val =? len (trimStart val))
  || negb (len val =? len (trimEnd val)).

(** The body of the modifier loop of [format] for [modifiers[c]] and
    [marker = markers.modifiers[c]].  The spans are read only when an edit is
    pushed; reading one out of a marker that is [undefined], or a value span
    that is [null], throws a TypeError. *)
Definition modifierDiffs (m : modifier) (marker : option modifierMarker)
  : result (list diff) :=
  let '(opt, val) := m in
  match marker with
  | None =>
      if readsNameSpan opt then Throw typeError
      else match val with
           | None => Ok []
           | Some val =>
               if readsValueSpan val then Throw typeError else Ok []
           end
  | Some (name, value) =>
      match val with
      | None => Ok (nameDiffs opt name)
      | Some val =>
          match value with
          | Some value => Ok (nameDiffs opt name ++ valueDiffs val value)
          | None =>
              if readsValueSpan val then Throw typeError
              else Ok (nameDiffs opt name)
          end
      end
  end.

(** The modifier loop of [format], from index [c]. *)
Fixpoint formatModifiers (mods : list modifier) (marks : list modifierMarker)
  (c : nat) : result (list diff) :=
  match mods with
  | [] => Ok []
  | m :: mods' =>
      match modifierDiffs m (nth_error marks c) with
      | Throw e => Throw e
      | Ok ds =>
          match formatModifiers mods' marks (S c) with
          | Throw e => Throw e
          | Ok ds' => Ok (ds ++ ds')
          end
      end
  end.

Definition format (d : details) : result (list diff) :=
  let l := line d in
  let i := leadingScan (length l) l 0 in
  let d1 :=
    if negb (i =? 0)
    then [DIFF_TYPE_DELETE (str "no-whitespaces") 0 i] else [] in
  let i := trailingScan (length l) l (len l - 1) in
  let d2 :=
    if negb (i =? len l - 1)
    then [DIFF_TYPE_DELETE (str "no-whitespaces") i (len l - i)] else [] in
  match d with
  | FILTER_TYPE_NETWORK n =>
      match formatModifiers (modifiers n) (markModifiers (markers n)) 0 with
      | Throw e => Throw e
      | Ok ds => Ok (d1 ++ d2 ++ ds)
      end
  | _ => Ok (d1 ++ d2)
  end.

(** The re-basing of a later edit [dk] after the deletion [(o, n)] was
    applied. *)
Definition rebaseAfterDelete (o n : Z) (dk : diff) : diff :=
  match dk with
  | DIFF_TYPE_DELETE rule ok nk =>
      (* check the affected range overlap *)
      if o + n >? ok then
        DIFF_TYPE_DELETE rule (if ok >? o then ok - (ok - o) else ok) (nk - n)
      else DIFF_TYPE_DELETE rule (if ok >? o then ok - n else ok) nk
  | DIFF_TYPE_CREATE rule ok text =>
      DIFF_TYPE_CREATE rule (if ok >? o then ok - n else ok) text
  end.

(** The re-basing of a later edit after [text] was inserted. *)
Definition rebaseAfterCreate (text : jsstring) (dk : diff) : diff :=
  match dk with
  | DIFF_TYPE_DELETE rule ok nk =>
      DIFF_TYPE_DELETE rule (ok + len text) (nk + len text)
  | DIFF_TYPE_CREATE rule ok t => DIFF_TYPE_CREATE rule (ok + len text) t
  end.

(** The loop of [fix] from the edit at hand on: each edit is applied to the
    line and the edits after it are re-based in place.  (An insertion also
    moves its own offset, which nothing reads afterwards.) *)
Fixpoint fixLoop (fuel : nat) (l : jsstring) (diffs : list diff) : jsstring :=
  match fuel, diffs with
  | S fuel', DIFF_TYPE_DELETE _ o n :: rest =>
      fixLoop fuel' (slice l 0 o ++ sliceFrom l (o + n))
        (map (rebaseAfterDelete o n) rest)
  | S fuel', DIFF_TYPE_CREATE _ o text :: rest =>
      fixLoop fuel' (slice l 0 o ++ text ++ sliceFrom l o)
        (map (rebaseAfterCreate text) rest)
  | _, _ => l
  end.

(** [fix(line, diffs)]; [fix] is a keyword here. *)
Definition fix_ (l : jsstring) (diffs : list diff) : jsstring :=
  fixLoop (length diffs) l diffs.

(** ** Program *)

(** [s.repeat(count)]: a negative count throws a RangeError. *)
Definition repeat_ (s : jsstring) (count : Z) : result jsstring :=
  if count <? 0 then Throw (OtherError (str "RangeError"))
  else Ok (concat (repeat s (Z.to_nat count))).

(** The message of [check] for one edit of the line [l]. *)
Definition formatMessage (l : jsstring) (d : diff) : result jsstring :=
  let head rule :=
    str "Format error: line=" ++ quote ++ l ++ quote ++ str " rule=" ++ quote
    ++ rule ++ quote ++ [10] in
  match d with
  | DIFF_TYPE_DELETE rule o n =>
      match repeat_ (str " ") (20 + o) with
      | Throw e => Throw e
      | Ok pad =>
          match repeat_ (str "^") n with
          | Throw e => Throw e
          | Ok carets => Ok (head rule ++ pad ++ carets)
          end
      end
  | DIFF_TYPE_CREATE rule o text =>
      match repeat_ (str " ") (20 + o) with
      | Throw e => Throw e
      | Ok pad =>
          match repeat_ (str " ") (len l - o + 1) with
          | Throw e => Throw e
          | Ok gap =>
              Ok (head rule ++ pad ++ str "^" ++ gap ++ str "use=" ++ quote
                  ++ text ++ quote)
          end
      end
  end.

(** The inner loop of [check]: the messages of the edits go to
    [console.error] one by one. *)
Fixpoint reportDiffs (l : jsstring) (diffs : list diff) (err : list jsstring)
  : list jsstring * result unit :=
  match diffs with
  | [] => (err, Ok tt)
  | d :: rest =>
      match formatMessage l d with
      | Throw e => (err, Throw e)
      | Ok message => reportDiffs l rest (err ++ [message])
      end
  end.

(** The loop of [check] over the lines: what went to [console.error], and
    the corrected lines or the error that ended the run.  Nothing here
    catches. *)
Fixpoint checkLines (lines : list jsstring) (err : list jsstring)
  : list jsstring * result (list jsstring) :=
  match lines with
  | [] => (err, Ok [])
  | l :: rest =>
      match parseFilter l with
      | Throw e => (err, Throw e)
      | Ok d =>
          match format d with
          | Throw e => (err, Throw e)
          | Ok diffs =>
              let '(err', reported) := reportDiffs l diffs err in
              match reported with
              | Throw e => (err', Throw e)
              | Ok _ =>
                  let '(err'', fixed) := checkLines rest err' in
                  match fixed with
                  | Throw e => (err'', Throw e)
                  | Ok fixed => (err'', Ok (fix_ l diffs :: fixed))
                  end
              end
          end
      end
  end.

Definition check (text : jsstring) : list jsstring * result jsstring :=
  match checkLines (split 10 text) [] with
  | (err, Throw e) => (err, Throw e)
  | (err, Ok fixed) => (err, Ok (join [10] fixed))
  end.

(** [format(parseFilter(line))]: the edits diagnosed for a line. *)
Definition diagnose (l : jsstring) : result (list diff) :=
  match parseFilter l with
  | Throw e => Throw e
  | Ok d => format d
  end.

Definition loose : options := {| strict := false; debug := false |}.
Definition strictly : options := {| strict := true; debug := false |}.

(** ** The rejection conditions of the hostname extractor, as the
       specification words them *)

Definition isLetter (c : Z) : bool :=
  ((65 <=? c) && (c <=? 90)) || ((97 <=? c) && (c <=? 122)).

Definition isDigit (c : Z) : bool := (48 <=? c) && (c <=? 57).

(** One trailing [^] separator stripped. *)
Definition stripSeparator (p : jsstring) : jsstring :=
  if last p 0 =? 94 then removelast p else p.

(** The characters strictly between the first and the last one. *)
Definition interior (q : jsstring) : jsstring := removelast (tl q).

Definition isDelimiterOrWildcard (c : Z) : bool :=
  (c =? 124) || (c =? 35) || (c =? 47) || (c =? 63) || (c =? 38)
  || (c =? 42).

Fixpoint adjacentDots (s : jsstring) : bool :=
  match s with
  | [] => false
  | c :: s' =>
      ((c =? 46) && match s' with c' :: _ => c' =? 46 | [] => false end)
      || adjacentDots s'
  end.

Definition regexpDelimited (p : jsstring) : bool :=
  match p with
  | [] => false
  | c :: _ => (c =? 47) && (last p 0 =? 47)
  end.

Definition rejected (d : networkFilter) : bool :=
  let p := pattern d in
  let q := stripSeparator p in
  regexpDelimited p
  || matchBeginningOfAddress d
  || matchEndOfAddress d
  || (len p <? 3)
  || negb (isLetter (hd 0 p) || isDigit (hd 0 p))
  || negb (isLetter (last q 0))
  || existsb isDelimiterOrWildcard (interior q)
  || adjacentDots (interior q)
  || negb (existsb (fun c => c =? 46) p).

(** The characters at which the classification loop of [parseFilter] stops,
    [#] included. *)
Definition isClassifier (c : Z) : bool :=
  (c =? 91) || (c =? 33) || (c =? 47) || (c =? 58) || (c =? 94) || (c =? 64)
  || (c =? 124) || (c =? 35).

(** ** Vocabulary of the further properties *)

(** The characters at which the classification loop takes a line for a
    comment or a section header. *)
Definition isCommentMark (c : Z) : bool := (c =? 91) || (c =? 33).

(** The characters at which the classification loop takes a line for a
    network filter. *)
Definition isNetworkMark (c : Z) : bool :=
  (c =? 47) || (c =? 58) || (c =? 94) || (c =? 64) || (c =? 124).

(** The message of the syntax error of [parseCosmeticFilter] for the
    character [c] seen at index [pos]. *)
Definition unexpectedMarker (c : Z) (pos : Z) : jsstring :=
  str "Expected " ++ quote ++ str "#" ++ quote ++ str " or " ++ quote
  ++ str "@" ++ quote ++ str " for cosmetic filter marker but saw " ++ quote
  ++ [c] ++ quote ++ str " at position " ++ quote ++ numberToString pos
  ++ quote ++ str "!".

(** A text without any of the characters the classification loop stops
    at. *)
Definition unmarked (s : jsstring) : Prop :=
  forallb (fun c => negb (isClassifier c)) s = true.

(** A span that lies within the line [l]. *)
Definition spanWithin (l : jsstring) (s : span) : Prop :=
  0 <= fst s /\ fst s <= snd s /\ snd s <= len l.

(** A modifier and its marker agree on the line [l]: the name is the text of
    the line at the name span, and the value is [null] together with its
    span, or the text of the line at the value span. *)
Definition markerAgrees (l : jsstring) (m : modifier) (mk : modifierMarker)
  : Prop :=
  spanWithin l (fst mk) /\ fst m = slice l (fst (fst mk)) (snd (fst mk))
  /\ match snd m, snd mk with
     | None, None => True
     | Some v, Some s => spanWithin l s /\ v = slice l (fst s) (snd s)
     | _, _ => False
     end.

(** An edit whose message [check] can build for the line [l]: the column
    under the line and the run of carets, or the gap before the suggested
    name, are not negative. *)
Definition reportable (l : jsstring) (d : diff) : Prop :=
  match d with
  | DIFF_TYPE_DELETE _ o n => 0 <= 20 + o /\ 0 <= n
  | DIFF_TYPE_CREATE _ o _ => 0 <= 20 + o /\ 0 <= len l - o + 1
  end.

(** The shape of a hostname that [transformToHostnamePattern] lets through:
    at least three characters, a letter or digit first, a letter last, a dot
    somewhere, and strictly between the first and the last character no
    [|], [#], [/], [?], [&] or [*] and no two dots in a row. *)
Definition hostnameShaped (h : jsstring) : bool :=
  (3 <=? len h)
  && (isLetter (hd 0 h) || isDigit (hd 0 h))
  && isLetter (last h 0)
  && existsb (fun c => c =? 46) h
  && negb (existsb isDelimiterOrWildcard (interior h))
  && negb (adjacentDots (interior h)).

(** A filter from which no hostname can come: it is anchored at the
    beginning of the address, or its pattern does not begin with a letter or
    digit. *)
Definition headless (d : networkFilter) : Prop :=
  matchBeginningOfAddress d = true
  \/ isNumeric (charCodeAt (pattern d) 0)
     || isAlphabet (charCodeAt (pattern d) 0) = false.

(** Whether a line parses to a network filter. *)
Definition isNetworkLine (l : jsstring) : bool :=
  match parseFilter l with
  | Ok (FILTER_TYPE_NETWORK _) => true
  | _ => false
  end.

(** A member of the blocked set that is a hostname of the extractor's
    shape. *)
Definition blockedHostname (x : hostnameValue) : Prop :=
  exists h, x = Some h /\ hostnameShaped h = true.

(** What one line can do to the two sets. *)
Inductive lineEffect (opts : options) (st st' : hostsState) : Prop :=
| EffectNone :
    exceptions st' = exceptions st -> hostnames st' = hostnames st ->
    lineEffect opts st st'
| EffectExcept (h : hostnameValue) :
    (strict opts = true -> h = None) ->
    (strict opts = false -> blockedHostname h) ->
    exceptions st' = setAdd h (exceptions st) ->
    hostnames st' = setDelete h (hostnames st) ->
    lineEffect opts st st'
| EffectBlock (h : jsstring) :
    hostnameShaped h = true ->
    exceptions st' = exceptions st ->
    hostnames st' = setAdd (Some h) (hostnames st) ->
    lineEffect opts st st'.

(** Whether one of the modifiers is [3p] or [third-party]. *)
Definition hasThirdparty (n : networkFilter) : bool :=
  existsb (fun m => isThirdpartyConstraint (fst m)) (modifiers n).

(** The line [l] blocks the hostname [h]: it is a network filter, no
    exception, the extractor gives [h], and the mode is strict or no modifier
    is a third-party constraint. *)
Definition blocks (opts : options) (l h : jsstring) : Prop :=
  exists n,
    parseFilter l = Ok (FILTER_TYPE_NETWORK n)
    /\ isException n = false
    /\ transformToHostnamePattern n = Some h
    /\ (strict opts = true \/ hasThirdparty n = false).

(** The line [l] excepts the hostname [h]: it is a network filter, no
    exception, the extractor gives [h], the mode is not strict and a modifier
    is a third-party constraint. *)
Definition excepts (opts : options) (l h : jsstring) : Prop :=
  exists n,
    parseFilter l = Ok (FILTER_TYPE_NETWORK n)
    /\ isException n = false
    /\ transformToHostnamePattern n = Some h
    /\ strict opts = false /\ hasThirdparty n = true.

(** Whether the parser accepts a line. *)
Definition parses (l : jsstring) : bool :=
  match parseFilter l with Ok _ => true | Throw _ => false end.

(** ** The command-line options

    [getOpts] folds the arguments after the script name into the option
    record.  The record and its fields live in a module of their own, since
    [strict], [debug], [format] and [check] name other things above. *)

Module Cli.

(** What [getOpts] throws: a [ParseError] of its own making, or the
    [ReferenceError] of the runtime for [val], which [expectValueKinds]
    reads but which is a local of [getOpts]. *)
Inductive failure : Type :=
| ParseError (message : jsstring)
| ReferenceError (message : jsstring).

Record opts : Type := {
  filepath : jsstring;
  strict : bool;
  debug : bool;
  format : jsstring;
  check : bool;
  fix_ : bool
}.

Inductive outcome : Type :=
| Returned (o : opts)
| Thrown (f : failure).

Definition FORMAT_LIST : jsstring := str "list".
Definition FORMAT_DNR : jsstring := str "declarative-net-request".
Definition FORMAT_HOSTS : jsstring := str "hosts".
Definition FORMAT_JSON : jsstring := str "json".

(** [opt]: the argument without its one or two dashes and without [=...]. *)
Definition optionName (argv : jsstring) : jsstring :=
  let delimIndex := indexOf argv 61 in
  slice argv (if codeIs (charCodeAt argv 1) 45 then 2 else 1)
    (if delimIndex =? -1 then len argv else delimIndex).

(** [val]: the text after the first [=], [undefined] without one. *)
Definition optionValue (argv : jsstring) : option jsstring :=
  let delimIndex := indexOf argv 61 in
  if delimIndex =? -1 then None else Some (sliceFrom argv (delimIndex + 1)).

(** [opt] is one of the [case] labels [names]. *)
Definition isCase (opt : jsstring) (names : list jsstring) : bool :=
  existsb (jsstring_eqb opt) names.

Definition expectValue (opt : jsstring) : failure :=
  ParseError (str "The value is expected for the option " ++ quote ++ opt
              ++ quote ++ str "!").

Definition notValid (opt : jsstring) : failure :=
  ParseError (quote ++ opt ++ quote ++ str " is not a valid option!").

Definition valNotDefined : failure := ReferenceError (str "val is not defined").

(** The body of the loop of [getOpts] for one argument. *)
Definition setOption (o : opts) (argv : jsstring) : outcome :=
  if codeIs (charCodeAt argv 0) 45 then
    let opt := optionName argv in
    let val := optionValue argv in
    if isCase opt [str "i"; str "input"] then
      match val with
      | None => Thrown (expectValue opt)
      | Some val =>
          Returned {| filepath := val; strict := strict o; debug := debug o;
                      format := format o; check := check o; fix_ := fix_ o |}
      end
    else if isCase opt [str "s"; str "strict"] then
      Returned {| filepath := filepath o; strict := true; debug := debug o;
                  format := format o; check := check o; fix_ := fix_ o |}
    else if isCase opt [str "d"; str "debug"] then
      Returned {| filepath := filepath o; strict := strict o; debug := true;
                  format := format o; check := check o; fix_ := fix_ o |}
    else if isCase opt [str "c"; str "check"] then
      Returned {| filepath := filepath o; strict := strict o; debug := debug o;
                  format := format o; check := true; fix_ := fix_ o |}
    else if isCase opt [str "a"; str "fix"] then
      Returned {| filepath := filepath o; strict := strict o; debug := debug o;
                  format := format o; check := check o; fix_ := true |}
    else if isCase opt [str "f"; str "format"] then
      match val with
      | Some val =>
          if isCase val [FORMAT_LIST; FORMAT_DNR; FORMAT_HOSTS; FORMAT_JSON]
          then
            Returned {| filepath := filepath o; strict := strict o;
                        debug := debug o; format := val; check := check o;
                        fix_ := fix_ o |}
          else Thrown valNotDefined
      | None => Thrown valNotDefined
      end
    else Thrown (notValid opt)
  else
    Returned {| filepath := argv; strict := strict o; debug := debug o;
                format := format o; check := check o; fix_ := fix_ o |}.

Fixpoint getOptsFrom (o : opts) (argvs : list jsstring) : outcome :=
  match argvs with
  | [] => Returned o
  | argv :: argvs' =>
      match setOption o argv with
      | Returned o' => getOptsFrom o' argvs'
      | Thrown f => Thrown f
      end
  end.

Definition initial : opts :=
  {| filepath := []; strict := false; debug := false; format := [];
     check := false; fix_ := false |}.

(** [getOpts], on [process.argv.slice(2)]. *)
Definition getOpts (argvs : list jsstring) : outcome :=
  getOptsFrom initial argvs.

(** The argument is an option whose name is one of [names]. *)
Definition names (ns : list jsstring) (argv : jsstring) : bool :=
  codeIs (charCodeAt argv 0) 45 && isCase (optionName argv) ns.

End Cli.

(** ** The modifier section, entry by entry

    What the modifier loop of [parseNetworkFilter] comes to, said on the
    text of the section: the entries are the pieces between commas; an entry
    with an [=] is a name and a value around its first [=], any other entry a
    name without value; an empty piece at the end is no entry. *)

Definition modifierEntry (e : jsstring) : modifier :=
  let i := indexOf e 61 in
  if i =? -1 then (e, None) else (slice e 0 i, Some (sliceFrom e (i + 1))).

Definition dropEmptyLast (es : list jsstring) : list jsstring :=
  match last es [] with
  | [] => removelast es
  | _ :: _ => es
  end.

Definition modifierEntries (section : jsstring) : list modifier :=
  map modifierEntry (dropEmptyLast (split 44 section)).

(** A text without the character [c]. *)
Definition without (c : Z) (s : jsstring) : Prop :=
  forallb (fun x => negb (x =? c)) s = true.

(** The scan for the marker begins after the [@@] and the pipes only. *)
Definition isAnchorChar (c : option Z) : bool := codeIs c 64 || codeIs c 124.

(** * Properties *)

Ltac split_comparisons :=
  repeat match goal with
         | |- context [?a <=? ?b] => destruct (Z.leb_spec a b)
         | |- context [?a =? ?b] => destruct (Z.eqb_spec a b)
         end.


(** ** Strings *)

Lemma len_app (a b : jsstring) : len (a ++ b) = len a + len b.
Proof. unfold len. rewrite length_app. lia. Qed.

Lemma len_cons (c : Z) (a : jsstring) : len (c :: a) = 1 + len a.
Proof. unfold len. simpl length. lia. Qed.

Lemma len_nonneg (a : jsstring) : 0 <= len a.
Proof. unfold len. lia. Qed.

Lemma charCodeAt_app_hd (a b : jsstring) :
  charCodeAt (a ++ b) (len a) = hd_error b.
Proof.
  unfold charCodeAt, len.
  destruct (Z.ltb_spec (Z.of_nat (length a)) 0) as [H | _]; [lia |].
  rewrite Nat2Z.id, nth_error_app2 by lia.
  rewrite Nat.sub_diag. destruct b; reflexivity.
Qed.

Lemma charCodeAt_at (a b : jsstring) (i : Z) :
  i = len a -> charCodeAt (a ++ b) i = hd_error b.
Proof. intros ->. apply charCodeAt_app_hd. Qed.

Lemma slice_prefix (a b : jsstring) : slice (a ++ b) 0 (len a) = a.
Proof.
  unfold slice. rewrite len_app.
  pose proof (len_nonneg a) as Ha. pose proof (len_nonneg b) as Hb.
  destruct (Z.ltb_spec (len a) 0) as [H | _]; [lia |].
  change (0 <? 0) with false. cbv iota.
  rewrite Z.min_l, Z.min_l by lia.
  rewrite Z.sub_0_r. unfold len. rewrite Nat2Z.id. simpl skipn.
  rewrite firstn_app, Nat.sub_diag, firstn_all. simpl. apply app_nil_r.
Qed.

Lemma slice_all (a : jsstring) : slice a 0 (len a) = a.
Proof.
  rewrite <- (app_nil_r a) at 1. apply slice_prefix.
Qed.

Lemma sliceFrom_end (a : jsstring) : sliceFrom a (len a) = [].
Proof.
  unfold sliceFrom, slice.
  pose proof (len_nonneg a) as Ha.
  destruct (Z.ltb_spec (len a) 0) as [H | _]; [lia |].
  rewrite Z.min_id, Z.sub_diag. reflexivity.
Qed.

Lemma startsWith_app (s b : jsstring) : startsWith (s ++ b) s = true.
Proof.
  induction s as [| c s IH]; [reflexivity |].
  simpl. rewrite Z.eqb_refl. exact IH.
Qed.

Lemma includes_infix (a s b : jsstring) : includes (a ++ s ++ b) s = true.
Proof.
  induction a as [| c a IH].
  - simpl app. destruct (s ++ b) eqn:E; unfold includes; fold includes;
      rewrite <- E, startsWith_app; reflexivity.
  - simpl. rewrite IH. apply orb_true_r.
Qed.

(** ** Hosts compilation on the specification's examples *)

(** C1: for the lines ["||a.example^"; "@@||a.example^"] a non-strict
    compilation should end with an empty blocked set and [a.example]
    excepted; in the reversed order [a.example] ends up blocked.  The code
    does the second, but not the first: the pattern of the exception line
    keeps its [||] anchor, no hostname comes out of it, the line changes
    nothing and [a.example] stays blocked. *)
Theorem compileHosts_exception_after_block :
  compileHostsState (join [10] [str "||a.example^"; str "@@||a.example^"]) loose
  = {| exceptions := []; hostnames := [Some (str "a.example")]; hostsErr := [] |}
  /\ compileHosts (join [10] [str "||a.example^"; str "@@||a.example^"]) loose
     = str "127.0.0.1 a.example"
  /\ compileHostsState (join [10] [str "@@||a.example^"; str "||a.example^"]) loose
     = {| exceptions := []; hostnames := [Some (str "a.example")]; hostsErr := [] |}
  /\ compileHosts (join [10] [str "@@||a.example^"; str "||a.example^"]) loose
     = str "127.0.0.1 a.example".
Proof. repeat split; vm_compute; reflexivity. Qed.

(** C2: the pattern of a network filter should begin right after its anchor
    and leave out a trailing [|].  In the code the pattern of
    ["@@||a.example^"] begins at the [||] anchor, the pattern of ["|a|"]
    keeps the trailing [|], and with a modifier section the character before
    the [$] is dropped whatever it is. *)
Theorem parseNetworkFilter_pattern_keeps_anchor :
  (let d := parseNetworkFilter (str "@@||a.example^") in
   isException d = true /\ matchSubdomains d = true
   /\ pattern d = str "||a.example^")
  /\ (let d := parseNetworkFilter (str "|a|") in
      matchBeginningOfAddress d = true /\ matchEndOfAddress d = true
      /\ pattern d = str "a|")
  /\ (let d := parseNetworkFilter (str "||a.example$3p") in
      matchSubdomains d = true /\ matchEndOfAddress d = false
      /\ pattern d = str "a.exampl").
Proof. repeat split; vm_compute; reflexivity. Qed.

(** C3: the line ["@@||ads.example.com/path.js^"] should, in non-strict
    mode, put [ads.example.com] into the excepted set, and contribute nothing
    in strict mode.  In the code the truncated pattern is
    ["||ads.example.com"], whose first character is no letter or digit, so
    the non-strict run leaves both sets empty; the strict run adds [null] to
    the excepted set. *)
Theorem compileHosts_path_level_exception :
  compileHostsState (str "@@||ads.example.com/path.js^") loose = hostsInit
  /\ compileHosts (str "@@||ads.example.com/path.js^") loose = []
  /\ compileHostsState (str "@@||ads.example.com/path.js^") strictly
     = {| exceptions := [None]; hostnames := []; hostsErr := [] |}
  /\ compileHosts (str "@@||ads.example.com/path.js^") strictly = [].
Proof. repeat split; vm_compute; reflexivity. Qed.

(** C4: the line ["||a.example^$redirect=a\,b.js"] should parse to the one
    modifier [redirect] with the value ["a\,b.js"].  In the code the
    backslash is stepped over but the comma after it still ends the value:
    the value is ["a\"] and ["b.js"] is a second modifier. *)
Theorem parseNetworkFilter_escaped_comma :
  parseFilter (str "||a.example^$redirect=a\,b.js")
  = Ok (FILTER_TYPE_NETWORK (parseNetworkFilter (str "||a.example^$redirect=a\,b.js")))
  /\ modifiers (parseNetworkFilter (str "||a.example^$redirect=a\,b.js"))
     = [ (str "redirect", Some (str "a\")); (str "b.js", None) ]
  /\ markModifiers (markers (parseNetworkFilter (str "||a.example^$redirect=a\,b.js")))
     = [ ((13, 21), Some (22, 24)); ((25, 29), None) ].
Proof. repeat split; vm_compute; reflexivity. Qed.

(** C8: the line ["||ads.example^$3p"] puts [ads.example] into the excepted
    set and not into the blocked set in non-strict mode (no output line); in
    strict mode [ads.example] is blocked and the output is
    ["127.0.0.1 ads.example"]. *)
Theorem compileHosts_thirdparty_promotion :
  compileHostsState (str "||ads.example^$3p") loose
  = {| exceptions := [Some (str "ads.example")]; hostnames := []; hostsErr := [] |}
  /\ compileHosts (str "||ads.example^$3p") loose = []
  /\ compileHostsState (str "||ads.example^$3p") strictly
     = {| exceptions := []; hostnames := [Some (str "ads.example")]; hostsErr := [] |}
  /\ compileHosts (str "||ads.example^$3p") strictly = str "127.0.0.1 ads.example".
Proof. repeat split; vm_compute; reflexivity. Qed.

(** ** Diagnostics on lines with trailing whitespace *)

Lemma leadingScan_run (ws pre rest : jsstring) (fuel : nat) :
  forallb (fun c => isWhitespace (Some c)) ws = true ->
  isWhitespace (hd_error rest) = false ->
  (length ws <= fuel)%nat ->
  leadingScan fuel (pre ++ ws ++ rest) (len pre) = len pre + len ws.
Proof.
  revert pre fuel.
  induction ws as [| w ws IH]; intros pre fuel Hws Hrest Hfuel.
  - change (len []) with 0. rewrite Z.add_0_r. simpl app.
    destruct fuel; simpl; [reflexivity |].
    rewrite charCodeAt_app_hd, Hrest. simpl.
    destruct (len pre <? len (pre ++ rest)); reflexivity.
  - destruct fuel as [| fuel]; [simpl in Hfuel; lia |].
    cbn [forallb] in Hws. apply andb_true_iff in Hws.
    destruct Hws as [Hw Hws]. simpl in Hfuel.
    unfold leadingScan; fold leadingScan.
    rewrite charCodeAt_app_hd. simpl hd_error. rewrite Hw. simpl negb.
    replace (len pre <? len (pre ++ (w :: ws) ++ rest)) with true
      by (rewrite len_app; simpl app; rewrite len_cons;
          pose proof (len_nonneg (ws ++ rest)); symmetry; apply Z.ltb_lt; lia).
    cbv iota.
    replace (pre ++ (w :: ws) ++ rest) with ((pre ++ [w]) ++ ws ++ rest)
      by (rewrite <- app_assoc; reflexivity).
    replace (len pre + 1) with (len (pre ++ [w]))
      by (rewrite len_app; reflexivity).
    rewrite IH by (assumption || lia).
    rewrite len_app, !len_cons. change (len []) with 0. lia.
Qed.

Lemma trailingScan_run (ws body rest : jsstring) (c : Z) (fuel : nat) :
  forallb (fun c => isWhitespace (Some c)) ws = true ->
  isWhitespace (Some c) = false ->
  (length ws < fuel)%nat ->
  trailingScan fuel (body ++ c :: ws ++ rest) (len body + len ws) = len body.
Proof.
  revert rest fuel.
  induction ws as [| w ws IH] using rev_ind; intros rest fuel Hws Hc Hfuel.
  - change (len []) with 0. rewrite Z.add_0_r. simpl app.
    destruct fuel as [| fuel]; [simpl in Hfuel; lia |].
    unfold trailingScan; fold trailingScan.
    rewrite charCodeAt_app_hd. simpl hd_error. rewrite Hc. simpl negb.
    replace (len body >? -1) with true
      by (pose proof (len_nonneg body); symmetry; apply Z.gtb_lt; lia).
    reflexivity.
  - destruct fuel as [| fuel]; [lia |].
    rewrite forallb_app in Hws. apply andb_true_iff in Hws.
    destruct Hws as [Hws Hw]. cbn [forallb] in Hw. rewrite andb_true_r in Hw.
    rewrite length_app in Hfuel. simpl in Hfuel.
    unfold trailingScan; fold trailingScan.
    replace (len body + len (ws ++ [w]) >? -1) with true
      by (pose proof (len_nonneg body); pose proof (len_nonneg (ws ++ [w]));
          symmetry; apply Z.gtb_lt; lia).
    replace (body ++ c :: (ws ++ [w]) ++ rest)
      with ((body ++ c :: ws) ++ w :: rest)
      by (rewrite <- !app_assoc; reflexivity).
    rewrite charCodeAt_at
      by (rewrite !len_app, !len_cons; change (len []) with 0; lia).
    simpl hd_error. rewrite Hw. simpl negb. cbv iota.
    replace ((body ++ c :: ws) ++ w :: rest)
      with (body ++ c :: ws ++ w :: rest)
      by (rewrite <- app_assoc; reflexivity).
    replace (len body + len (ws ++ [w]) - 1) with (len body + len ws)
      by (rewrite len_app, len_cons; change (len []) with 0; lia).
    apply IH; (assumption || lia).
Qed.

(** The whitespace edits of [format] on a line [lead ++ body ++ [c] ++
    trail] whose leading and trailing whitespace runs are [lead] and [trail]:
    the edit for [lead], when there is one, covers exactly [lead]; the edit
    for [trail] starts at [c], the last character that is no whitespace, and
    is one longer than [trail]. *)
Lemma format_whitespace_runs (d : details) (lead body trail : jsstring)
  (c : Z) (ds : list diff) :
  line d = lead ++ body ++ c :: trail ->
  forallb (fun c => isWhitespace (Some c)) lead = true ->
  forallb (fun c => isWhitespace (Some c)) trail = true ->
  isWhitespace (hd_error (body ++ [c])) = false ->
  isWhitespace (Some c) = false ->
  trail <> [] ->
  format d = Ok ds ->
  exists ds',
    ds = (if len lead =? 0 then []
          else [DIFF_TYPE_DELETE (str "no-whitespaces") 0 (len lead)])
         ++ DIFF_TYPE_DELETE (str "no-whitespaces")
              (len lead + len body) (len trail + 1)
         :: ds'.
Proof.
  intros Hline Hlead Htrail Hfirst Hc Ht.
  unfold format. rewrite Hline.
  pose proof (leadingScan_run lead [] (body ++ c :: trail)
                (length (lead ++ body ++ c :: trail)) Hlead) as H1.
  simpl app in H1. change (len []) with 0 in H1. rewrite Z.add_0_l in H1.
  rewrite H1;
    [| destruct body; exact Hfirst | rewrite length_app; lia].
  pose proof (trailingScan_run trail (lead ++ body) [] c
                (length (lead ++ body ++ c :: trail)) Htrail Hc) as H2.
  rewrite app_nil_r, <- app_assoc in H2.
  replace (len (lead ++ body ++ c :: trail) - 1)
    with (len (lead ++ body) + len trail)
    by (rewrite !len_app, len_cons; lia).
  rewrite H2 by (rewrite !length_app; simpl; lia).
  assert (Htrail_pos : 0 < len trail)
    by (destruct trail; [contradiction | rewrite len_cons;
                                           pose proof (len_nonneg trail); lia]).
  replace (len (lead ++ body) =? len (lead ++ body) + len trail)
    with false by (symmetry; apply Z.eqb_neq; lia).
  replace (len (lead ++ body ++ c :: trail) - len (lead ++ body))
    with (len trail + 1) by (rewrite !len_app, len_cons; lia).
  rewrite (len_app lead body). simpl negb at 2. cbv iota.
  replace (if negb (len lead =? 0)
           then [DIFF_TYPE_DELETE (str "no-whitespaces") 0 (len lead)]
           else [])
    with (if len lead =? 0 then []
          else [DIFF_TYPE_DELETE (str "no-whitespaces") 0 (len lead)])
    by (destruct (len lead =? 0); reflexivity).
  destruct d as [l | n | cf].
  - intros H. injection H as <-. exists []. reflexivity.
  - destruct (formatModifiers (modifiers n) (markModifiers (markers n)) 0)
      as [ds0 | e]; [| discriminate].
    intros H. injection H as <-. exists ds0. reflexivity.
  - intros H. injection H as <-. exists []. reflexivity.
Qed.


(** C7: a trailing whitespace run should give a deletion that starts at the
    first whitespace character of the run and has the run's length.  In the
    code the deletion starts one character earlier and is one longer: for
    ["||a.example^ "], whose run is the one character at offset 12, the edit
    is [Delete(11, 2)] and applying it removes the [^] as well.  A leading
    run is covered exactly ([Delete(0, 2)] for two leading spaces). *)
Theorem format_trailing_whitespace :
  diagnose (str "||a.example^ ")
  = Ok [DIFF_TYPE_DELETE (str "no-whitespaces") 11 2]
  /\ fix_ (str "||a.example^ ") [DIFF_TYPE_DELETE (str "no-whitespaces") 11 2]
     = str "||a.example"
  /\ diagnose (str "  ||a.example^")
     = Ok [DIFF_TYPE_DELETE (str "no-whitespaces") 0 2].
Proof. repeat split; vm_compute; reflexivity. Qed.

(** C6: diagnosing a corrected line should give no edit.  For
    ["example.com##div a "] the code diagnoses [Delete(17, 2)], the corrected
    line is ["example.com##div "], and diagnosing that line gives
    [Delete(15, 2)] again. *)
Theorem fix_round_trip_not_fixed :
  diagnose (str "example.com##div a ")
  = Ok [DIFF_TYPE_DELETE (str "no-whitespaces") 17 2]
  /\ fix_ (str "example.com##div a ") [DIFF_TYPE_DELETE (str "no-whitespaces") 17 2]
     = str "example.com##div "
  /\ diagnose (str "example.com##div ")
     = Ok [DIFF_TYPE_DELETE (str "no-whitespaces") 15 2].
Proof. repeat split; vm_compute; reflexivity. Qed.

(** ** Cosmetic markers that end with the line *)

Lemma classify_reaches_marker (pre a rest : jsstring) (fuel : nat) :
  forallb (fun c => negb (isClassifier c)) pre = true ->
  (length pre < fuel)%nat ->
  classify fuel (a ++ pre ++ 35 :: rest) (len a)
  = parseCosmeticFilter (a ++ pre ++ 35 :: rest) (len a + len pre).
Proof.
  revert a fuel.
  induction pre as [| c pre IH]; intros a fuel Hpre Hfuel.
  - destruct fuel as [| fuel]; [simpl in Hfuel; lia |].
    simpl app. unfold classify.
    rewrite charCodeAt_app_hd.
    replace (len a <? len (a ++ 35 :: rest)) with true
      by (rewrite len_app, len_cons; pose proof (len_nonneg rest); symmetry;
          apply Z.ltb_lt; lia).
    simpl. change (len []) with 0. rewrite Z.add_0_r. reflexivity.
  - destruct fuel as [| fuel]; [simpl in Hfuel; lia |].
    simpl in Hpre. apply andb_true_iff in Hpre. destruct Hpre as [Hc Hpre].
    simpl in Hfuel.
    unfold classify; fold classify.
    rewrite charCodeAt_app_hd.
    replace (len a <? len (a ++ (c :: pre) ++ 35 :: rest)) with true
      by (rewrite len_app; simpl app; rewrite len_cons;
          pose proof (len_nonneg (pre ++ 35 :: rest)); symmetry;
          apply Z.ltb_lt; lia).
    simpl hd_error. unfold codeIs.
    unfold isClassifier in Hc. apply negb_true_iff in Hc.
    repeat (apply orb_false_iff in Hc; destruct Hc as [Hc ?]).
    repeat match goal with H : (c =? _) = false |- _ => rewrite H; clear H end.
    simpl.
    replace (a ++ c :: pre ++ 35 :: rest)
      with ((a ++ [c]) ++ pre ++ 35 :: rest)
      by (rewrite <- app_assoc; reflexivity).
    replace (len a + 1) with (len (a ++ [c]))
      by (rewrite len_app; reflexivity).
    rewrite IH by (assumption || lia).
    rewrite len_app, !len_cons. change (len []) with 0.
    f_equal. lia.
Qed.

Lemma cosmeticMarker_exceptions (n : nat) (a : jsstring) (exc : bool)
  (fuel : nat) :
  (n <= fuel)%nat ->
  cosmeticMarker fuel (a ++ repeat 64 n) (len a) exc
  = Ok (len a + Z.of_nat n, exc || negb (Nat.eqb n 0)).
Proof.
  revert a exc fuel.
  induction n as [| n IH]; intros a exc fuel Hfuel.
  - simpl repeat. rewrite app_nil_r, Z.add_0_r, orb_false_r.
    destruct fuel; simpl; [reflexivity |].
    rewrite Z.ltb_irrefl. reflexivity.
  - destruct fuel as [| fuel]; [lia |].
    unfold cosmeticMarker; fold cosmeticMarker.
    rewrite charCodeAt_app_hd.
    replace (len a <? len (a ++ repeat 64 (S n))) with true
      by (rewrite len_app; simpl repeat; rewrite len_cons;
          pose proof (len_nonneg (repeat 64 n)); symmetry;
          apply Z.ltb_lt; lia).
    simpl.
    replace (a ++ 64 :: repeat 64 n) with ((a ++ [64]) ++ repeat 64 n)
      by (rewrite <- app_assoc; reflexivity).
    replace (len a + 1) with (len (a ++ [64]))
      by (rewrite len_app; reflexivity).
    rewrite IH by lia.
    rewrite len_app. change (len [64]) with 1.
    rewrite orb_true_r. f_equal. f_equal. lia.
Qed.

(** C10: when a line is routed to cosmetic parsing (its first [#] comes
    before any [[], [!], [/], [:], [^], [@] or [|]) and only [@] characters,
    or nothing, follow that [#], parsing raises no error: the result is a
    cosmetic filter whose hostname is the text before the [#], whose selector
    is empty and whose exception flag says whether there was an [@]. *)
Theorem parseFilter_unterminated_marker (pre : jsstring) (n : nat) :
  forallb (fun c => negb (isClassifier c)) pre = true ->
  parseFilter (pre ++ str "#" ++ repeat 64 n)
  = Ok (FILTER_TYPE_COSMETIC
          {| cosmeticLine := pre ++ str "#" ++ repeat 64 n;
             hostname := pre;
             selector := [];
             cosmeticIsException := negb (Nat.eqb n 0) |}).
Proof.
  intros Hpre.
  change (str "#") with [35]. simpl app.
  unfold parseFilter.
  replace (len (pre ++ 35 :: repeat 64 n) =? 0) with false
    by (rewrite len_app, len_cons; pose proof (len_nonneg pre);
        pose proof (len_nonneg (repeat 64 n)); symmetry; apply Z.eqb_neq; lia).
  pose proof (classify_reaches_marker pre [] (repeat 64 n)
                (length (pre ++ 35 :: repeat 64 n)) Hpre) as Hc.
  simpl app in Hc. change (len []) with 0 in Hc. rewrite Z.add_0_l in Hc.
  rewrite Hc by (rewrite length_app; simpl; lia).
  unfold parseCosmeticFilter.
  replace (pre ++ 35 :: repeat 64 n) with ((pre ++ [35]) ++ repeat 64 n)
    by (rewrite <- app_assoc; reflexivity).
  replace (len pre + 1) with (len (pre ++ [35]))
    by (rewrite len_app; reflexivity).
  rewrite cosmeticMarker_exceptions
    by (rewrite !length_app, repeat_length; lia).
  simpl orb.
  replace (len (pre ++ [35]) + Z.of_nat n)
    with (len ((pre ++ [35]) ++ repeat 64 n))
    by (rewrite (len_app (pre ++ [35])); unfold len at 2;
        rewrite repeat_length; reflexivity).
  rewrite sliceFrom_end.
  rewrite <- (app_assoc pre [35]), slice_prefix.
  reflexivity.
Qed.

Lemma parseFilter_unterminated_marker_witness :
  forallb (fun c => negb (isClassifier c)) (str "example.com") = true
  /\ parseFilter (str "example.com#@")
     = Ok (FILTER_TYPE_COSMETIC
             {| cosmeticLine := str "example.com#@";
                hostname := str "example.com";
                selector := [];
                cosmeticIsException := true |}).
Proof.
  split; [reflexivity |].
  exact (parseFilter_unterminated_marker (str "example.com") 1 eq_refl).
Defined.

(** ** Errors of single lines *)

Lemma hostsStep_throw (opts : options) (st : hostsState) (l : jsstring)
  (e : error) :
  parseFilter l = Throw e ->
  hostsStep opts st l = hostsLog st (catchMessage l e).
Proof.
  intros H. unfold hostsStep, hostsTry. rewrite H. reflexivity.
Qed.

Lemma jsonStep_throw (st : list details * list jsstring) (l : jsstring)
  (e : error) :
  parseFilter l = Throw e ->
  jsonStep st l = (fst st, snd st ++ [catchMessage l e]).
Proof.
  intros H. unfold jsonStep. rewrite H. reflexivity.
Qed.

(** The parser throws nothing but syntax errors. *)
Lemma cosmeticMarker_throws (fuel : nat) (l : jsstring) (i : Z) (exc : bool)
  (e : error) :
  cosmeticMarker fuel l i exc = Throw e -> exists m, e = SyntaxError m.
Proof.
  revert i exc.
  induction fuel as [| fuel IH]; intros i exc; simpl; [discriminate |].
  destruct (i <? len l); [| discriminate].
  destruct (codeIs (charCodeAt l i) 64); [apply IH |].
  destruct (codeIs (charCodeAt l i) 35); [discriminate |].
  intros H. injection H as <-. eexists. reflexivity.
Qed.

Lemma classify_throws (fuel : nat) (l : jsstring) (i : Z) (e : error) :
  classify fuel l i = Throw e -> exists m, e = SyntaxError m.
Proof.
  revert i.
  induction fuel as [| fuel IH]; intros i; simpl; [discriminate |].
  destruct (i <? len l); [| discriminate].
  destruct (codeIs (charCodeAt l i) 91 || codeIs (charCodeAt l i) 33);
    [discriminate |].
  destruct (codeIs (charCodeAt l i) 47 || codeIs (charCodeAt l i) 58
            || codeIs (charCodeAt l i) 94 || codeIs (charCodeAt l i) 64
            || codeIs (charCodeAt l i) 124); [discriminate |].
  destruct (codeIs (charCodeAt l i) 35); [| apply IH].
  unfold parseCosmeticFilter.
  destruct (cosmeticMarker (length l) l (i + 1) false) as [[i' exc] | e']
    eqn:Hm; [discriminate |].
  intros H. injection H as <-. exact (cosmeticMarker_throws _ _ _ _ _ Hm).
Qed.

Lemma parseFilter_throws (l : jsstring) (e : error) :
  parseFilter l = Throw e -> exists m, e = SyntaxError m.
Proof.
  unfold parseFilter. destruct (len l =? 0); [discriminate |].
  apply classify_throws.
Qed.

Lemma checkLines_app (before rest : list jsstring)
  (err0 err : list jsstring) (fixedBefore : list jsstring) :
  checkLines before err0 = (err, Ok fixedBefore) ->
  checkLines (before ++ rest) err0
  = (fst (checkLines rest err),
     match snd (checkLines rest err) with
     | Throw e => Throw e
     | Ok fixed => Ok (fixedBefore ++ fixed)
     end).
Proof.
  revert err0 err fixedBefore.
  induction before as [| l before IH]; intros err0 err fixedBefore H.
  - simpl in H. injection H as <- <-. simpl.
    destruct (checkLines rest err0) as [err' [fixed | e]]; reflexivity.
  - simpl in H. simpl.
    destruct (parseFilter l) as [d | e]; [| discriminate].
    destruct (format d) as [diffs | e]; [| discriminate].
    destruct (reportDiffs l diffs err0) as [err' [[] | e]]; [| discriminate].
    destruct (checkLines before err') as [err'' [fixed | e]] eqn:Hb;
      [| discriminate].
    injection H as <- <-.
    rewrite (IH _ _ _ Hb).
    destruct (checkLines rest err'') as [err3 [fixed' | e]]; reflexivity.
Qed.

Lemma checkLines_aborts (before after : list jsstring) (bad : jsstring)
  (e : error) (err0 : list jsstring) :
  parseFilter bad = Throw e ->
  exists err e', checkLines (before ++ bad :: after) err0 = (err, Throw e').
Proof.
  intros Hbad. revert err0.
  induction before as [| l before IH]; intros err0; simpl.
  - rewrite Hbad. eauto.
  - destruct (parseFilter l) as [d | e1]; [| eauto].
    destruct (format d) as [diffs | e1]; [| eauto].
    destruct (reportDiffs l diffs err0) as [err' [[] | e1]]; [| eauto].
    destruct (IH err') as [err'' [e' ->]]. eauto.
Qed.

(** The [try] block of [compileHosts] raises nothing but what the parser
    raises. *)
Lemma hostsTry_throws (opts : options) (st : hostsState) (l : jsstring)
  (e : error) :
  hostsTry opts st l = Throw e -> parseFilter l = Throw e.
Proof.
  unfold hostsTry.
  destruct (parseFilter l) as [[l' | n | c] | e'];
    [discriminate | | discriminate | intros H; injection H as ->; reflexivity].
  destruct (isException n).
  - destruct (negb (strict opts) && isNull (transformToHostnamePattern n));
      [| discriminate].
    destruct (indexOf (pattern n) 47 =? -1); [discriminate |].
    destruct (isNull
                (transformToHostnamePattern
                   (setPattern n
                      (slice (pattern n) 0 (indexOf (pattern n) 47)))));
      discriminate.
  - destruct (negb (isNull (transformToHostnamePattern n))); [| discriminate].
    destruct (negb (strict opts)); [| discriminate].
    destruct (negb (thirdpartyLoop (modifiers n) 0
                    =? Z.of_nat (length (modifiers n)))); discriminate.
Qed.

(** What the [catch] block logs for an error of the parser holds the text of
    the line. *)
Lemma catchMessage_has_line (l : jsstring) (e : error) :
  parseFilter l = Throw e -> includes (catchMessage l e) l = true.
Proof.
  intros H. destruct (parseFilter_throws l e H) as [m ->].
  unfold catchMessage. rewrite app_assoc. apply includes_infix.
Qed.

(** C9: in [compileHosts] and [compileJson] a line on which the [try] block
    throws is caught: the error is logged with the text of the offending
    line, the line changes neither set nor the records, and the fold goes on
    over the lines after it; this holds for every error the [try] block can
    raise, on any line and in any state.  In [check] nothing catches: the run
    ends with a thrown error and returns no text, and when the lines before
    went through, the error is the one of this line. *)
Theorem per_line_errors (opts : options) (text : jsstring)
  (before after : list jsstring) (bad : jsstring) (e : error) :
  split 10 text = before ++ bad :: after ->
  parseFilter bad = Throw e ->
  compileHostsState text opts
  = hostsFold opts after
      (hostsLog (hostsFold opts before hostsInit) (catchMessage bad e))
  /\ compileJson text
     = jsonFold after
         (fst (jsonFold before ([], [])),
          snd (jsonFold before ([], [])) ++ [catchMessage bad e])
  /\ includes (catchMessage bad e) bad = true
  /\ (forall st l e',
        hostsTry opts st l = Throw e' ->
        hostsStep opts st l = hostsLog st (catchMessage l e')
        /\ includes (catchMessage l e') l = true)
  /\ (forall st l e',
        parseFilter l = Throw e' ->
        jsonStep st l = (fst st, snd st ++ [catchMessage l e'])
        /\ includes (catchMessage l e') l = true)
  /\ (exists err e', check text = (err, Throw e'))
  /\ (forall err fixedBefore,
        checkLines before [] = (err, Ok fixedBefore) ->
        check text = (err, Throw e)).
Proof.
  intros Hsplit Hbad.
  repeat apply conj.
  - unfold compileHostsState, hostsFold. rewrite Hsplit, fold_left_app.
    simpl fold_left at 1. rewrite (hostsStep_throw _ _ _ _ Hbad). reflexivity.
  - unfold compileJson, jsonFold. rewrite Hsplit, fold_left_app.
    simpl fold_left at 1. rewrite (jsonStep_throw _ _ _ Hbad). reflexivity.
  - exact (catchMessage_has_line _ _ Hbad).
  - intros st l e' Htry.
    pose proof (hostsTry_throws _ _ _ _ Htry) as Hl.
    split; [exact (hostsStep_throw _ _ _ _ Hl)
           | exact (catchMessage_has_line _ _ Hl)].
  - intros st l e' Hl.
    split; [exact (jsonStep_throw _ _ _ Hl)
           | exact (catchMessage_has_line _ _ Hl)].
  - unfold check. rewrite Hsplit.
    destruct (checkLines_aborts before after bad e [] Hbad) as [err [e' ->]].
    eauto.
  - intros err fixedBefore Hbefore.
    unfold check. rewrite Hsplit, (checkLines_app _ _ _ _ _ Hbefore).
    simpl. rewrite Hbad. reflexivity.
Qed.

Lemma per_line_errors_witness :
  let text :=
    join [10] [str "||a.example^"; str "example.com#x"; str "||b.example^"] in
  let e :=
    SyntaxError
      (str "Expected " ++ quote ++ str "#" ++ quote ++ str " or " ++ quote
       ++ str "@" ++ quote ++ str " for cosmetic filter marker but saw "
       ++ quote ++ str "x" ++ quote ++ str " at position " ++ quote
       ++ str "12" ++ quote ++ str "!") in
  split 10 text = [str "||a.example^"] ++ str "example.com#x" :: [str "||b.example^"]
  /\ parseFilter (str "example.com#x") = Throw e
  /\ hostnames (compileHostsState text loose)
     = [Some (str "a.example"); Some (str "b.example")]
  /\ hostsErr (compileHostsState text loose)
     = [catchMessage (str "example.com#x") e]
  /\ includes (catchMessage (str "example.com#x") e) (str "example.com#x") = true
  /\ snd (check text) = Throw e.
Proof.
  intros text e.
  pose proof (per_line_errors loose text [str "||a.example^"]
                [str "||b.example^"] (str "example.com#x") e
                eq_refl eq_refl) as [Hhosts [_ [Hline [_ [_ [_ Hcheck]]]]]].
  split; [reflexivity |]. split; [reflexivity |].
  split; [rewrite Hhosts; reflexivity |].
  split; [rewrite Hhosts; reflexivity |].
  split; [exact Hline |].
  rewrite (Hcheck _ _ eq_refl). reflexivity.
Defined.

(** ** The hostname extractor against its rejection conditions *)

Lemma isAlphabet_isLetter (c : Z) : isAlphabet (Some c) = isLetter c.
Proof.
  unfold isAlphabet, isLetter. cbv zeta. rewrite !Z.geb_leb.
  destruct (Z.leb_spec 97 c); split_comparisons;
    simpl; try reflexivity; lia.
Qed.

Lemma isNumeric_isDigit (c : Z) : isNumeric (Some c) = isDigit c.
Proof. unfold isNumeric, isDigit. rewrite !Z.geb_leb. reflexivity. Qed.

Lemma isPathnamePattern_or_wildcard (c : Z) :
  isPathnamePattern (Some c) || codeIs (Some c) 42 = isDelimiterOrWildcard c.
Proof. reflexivity. Qed.

Lemma isLetter_not_dot (c : Z) : isLetter c = true -> (c =? 46) = false.
Proof.
  unfold isLetter. split_comparisons; simpl; intros; (reflexivity || lia || discriminate).
Qed.

Lemma isDigit_not_dot (c : Z) : isDigit c = true -> (c =? 46) = false.
Proof.
  unfold isDigit. split_comparisons; simpl; intros; (reflexivity || lia || discriminate).
Qed.

Lemma hostnameLoop_spec (m pre post : jsstring) (h : bool) (fuel : nat) :
  (length m <= fuel)%nat ->
  codeIs (hd_error post) 46 = false ->
  hostnameLoop fuel (pre ++ m ++ post) (len pre + len m) (len pre) h
  = if existsb isDelimiterOrWildcard m || adjacentDots m then None
    else Some (h || existsb (fun c => c =? 46) m).
Proof.
  revert pre h fuel.
  induction m as [| c m IH]; intros pre h fuel Hfuel Hpost.
  - change (len []) with 0. rewrite Z.add_0_r. simpl.
    rewrite orb_false_r.
    destruct fuel; simpl; [reflexivity |].
    rewrite Z.ltb_irrefl. reflexivity.
  - destruct fuel as [| fuel]; [simpl in Hfuel; lia |].
    simpl in Hfuel.
    unfold hostnameLoop; fold hostnameLoop.
    replace (len pre <? len pre + len (c :: m)) with true
      by (rewrite len_cons; pose proof (len_nonneg m); symmetry;
          apply Z.ltb_lt; lia).
    rewrite charCodeAt_app_hd. simpl hd_error.
    rewrite isPathnamePattern_or_wildcard.
    simpl existsb. simpl adjacentDots.
    destruct (isDelimiterOrWildcard c); [reflexivity |].
    rewrite !orb_false_l.
    assert (Hnext : codeIs (charCodeAt (pre ++ (c :: m) ++ post) (len pre + 1)) 46
                    = match m with c' :: _ => c' =? 46 | [] => false end).
    { replace (pre ++ (c :: m) ++ post) with ((pre ++ [c]) ++ m ++ post)
        by (rewrite <- app_assoc; reflexivity).
      rewrite charCodeAt_at by (rewrite len_app; reflexivity).
      destruct m; [exact Hpost | reflexivity]. }
    replace (pre ++ (c :: m) ++ post) with ((pre ++ [c]) ++ m ++ post) in *
      by (rewrite <- app_assoc; reflexivity).
    replace (len pre + 1) with (len (pre ++ [c])) in *
      by (rewrite len_app; reflexivity).
    replace (len pre + len (c :: m)) with (len (pre ++ [c]) + len m)
      by (rewrite len_app, !len_cons; change (len []) with 0; lia).
    unfold codeIs at 1.
    destruct (c =? 46).
    + rewrite Hnext.
      destruct (match m with c' :: _ => c' =? 46 | [] => false end);
        [rewrite orb_true_r; reflexivity |].
      rewrite IH by (assumption || lia).
      simpl. rewrite orb_true_r. reflexivity.
    + rewrite IH by (assumption || lia).
      simpl. reflexivity.
Qed.

Lemma pattern_shape (p : jsstring) :
  3 <= len p -> exists c0 m c1 c2, p = c0 :: m ++ [c1; c2].
Proof.
  intros H.
  destruct p as [| c0 t]; [unfold len in H; simpl in H; lia |].
  destruct (exists_last (l := t)) as [t1 [c2 ->]].
  { intros ->. unfold len in H. simpl in H. lia. }
  destruct (exists_last (l := t1)) as [m [c1 ->]].
  { intros ->. unfold len in H. simpl in H. lia. }
  exists c0, m, c1, c2. rewrite <- app_assoc. reflexivity.
Qed.

Lemma last_two (a : jsstring) (c1 c2 : Z) : last (a ++ [c1; c2]) 0 = c2.
Proof.
  replace (a ++ [c1; c2]) with ((a ++ [c1]) ++ [c2])
    by (rewrite <- app_assoc; reflexivity).
  apply last_last.
Qed.

Lemma removelast_two (a : jsstring) (c1 c2 : Z) :
  removelast (a ++ [c1; c2]) = a ++ [c1].
Proof.
  replace (a ++ [c1; c2]) with ((a ++ [c1]) ++ [c2])
    by (rewrite <- app_assoc; reflexivity).
  apply removelast_last.
Qed.

(** C5: [transformToHostnamePattern] returns [null] exactly when one of the
    rejection conditions holds (a pattern between two [/]; an address anchor
    at the beginning or at the end; fewer than three characters; a first
    character that is no ASCII letter or digit; a last character, after one
    trailing [^] is stripped, that is no ASCII letter; an interior [|], [#],
    [/], [?], [&] or [*]; two adjacent interior dots; no dot at all), and
    otherwise returns the pattern with one trailing [^] stripped. *)
Theorem transformToHostnamePattern_rejected (d : networkFilter) :
  transformToHostnamePattern d
  = if rejected d then None else Some (stripSeparator (pattern d)).
Proof.
  destruct d as [p l mods exc sub boa eoa mk].
  unfold transformToHostnamePattern, rejected, isRegexpPattern.
  cbn [pattern matchEndOfAddress matchBeginningOfAddress].
  destruct (Z.ltb_spec (len p) 3) as [Hshort | Hlong].
  - rewrite !orb_true_r. reflexivity.
  - destruct (pattern_shape p Hlong) as [c0 [m [c1 [c2 Hp]]]].
    assert (Hlen : len p = len m + 3).
    { rewrite Hp, len_cons, len_app, !len_cons. change (len []) with 0. lia. }
    assert (H0 : charCodeAt p 0 = Some c0) by (rewrite Hp; reflexivity).
    assert (H2 : forall i, i = len p - 1 -> charCodeAt p i = Some c2).
    { intros i ->. rewrite Hp.
      replace (c0 :: m ++ [c1; c2]) with ((c0 :: m ++ [c1]) ++ [c2])
        by (simpl; rewrite <- app_assoc; reflexivity).
      apply charCodeAt_at.
      rewrite len_app, !len_cons, len_app, !len_cons. change (len []) with 0.
      lia. }
    assert (H1 : forall i, i = len p - 2 -> charCodeAt p i = Some c1).
    { intros i ->. rewrite Hp.
      change (c0 :: m ++ [c1; c2]) with ((c0 :: m) ++ [c1; c2]).
      apply charCodeAt_at.
      rewrite len_app, !len_cons. change (len []) with 0. lia. }
    assert (Hhd : hd 0 p = c0) by (rewrite Hp; reflexivity).
    assert (Hlast : last p 0 = c2).
    { rewrite Hp. change (c0 :: m ++ [c1; c2]) with ((c0 :: m) ++ [c1; c2]).
      apply last_two. }
    assert (Hregexp : regexpDelimited p = (c0 =? 47) && (c2 =? 47)).
    { unfold regexpDelimited. rewrite Hlast, Hp. reflexivity. }
    assert (Hdots : existsb (fun c => c =? 46) p
                    = (c0 =? 46) || existsb (fun c => c =? 46) m
                      || (c1 =? 46) || (c2 =? 46)).
    { rewrite Hp. simpl. rewrite existsb_app. simpl.
      rewrite orb_false_r, !orb_assoc. reflexivity. }
    rewrite H0, (H2 (len p - 1) eq_refl), (H2 (len p + -1)) by lia.
    rewrite (H1 (len p + (-1 - 1))) by lia.
    rewrite Hregexp, Hhd, Hdots.
    rewrite isNumeric_isDigit, isAlphabet_isLetter.
    unfold stripSeparator. rewrite Hlast.
    unfold codeIs.
    destruct ((c0 =? 47) && (c2 =? 47)); [reflexivity |].
    destruct eoa; [rewrite ?orb_true_r; reflexivity |].
    destruct boa; [reflexivity |].
    simpl orb.
    rewrite <- negb_orb, (orb_comm (isDigit c0)).
    destruct (isLetter c0 || isDigit c0) eqn:Hfirst; [| reflexivity].
    assert (Hc0 : (c0 =? 46) = false).
    { apply orb_true_iff in Hfirst. destruct Hfirst as [Hf | Hf];
        [apply isLetter_not_dot | apply isDigit_not_dot]; exact Hf. }
    rewrite Hc0. simpl negb. simpl orb. cbv iota.
    assert (Hfuel : (length m <= length p)%nat /\ (length (m ++ [c1]) <= length p)%nat).
    { rewrite Hp. simpl. rewrite !length_app. simpl. lia. }
    destruct (c2 =? 94) eqn:Hsep.
    + (* a trailing separator: the last character is [c1] *)
      apply Z.eqb_eq in Hsep.
      assert (Hstrip : removelast p = c0 :: m ++ [c1]).
      { rewrite Hp. change (c0 :: m ++ [c1; c2]) with ((c0 :: m) ++ [c1; c2]).
        apply removelast_two. }
      assert (Hslice : slice p 0 (len p - 1) = c0 :: m ++ [c1]).
      { rewrite Hp at 1.
        replace (c0 :: m ++ [c1; c2]) with ((c0 :: m ++ [c1]) ++ [c2])
          by (simpl; rewrite <- app_assoc; reflexivity).
        replace (len p - 1) with (len (c0 :: m ++ [c1]))
          by (rewrite len_cons, len_app, len_cons; change (len []) with 0; lia).
        apply slice_prefix. }
      rewrite Hstrip, Hslice.
      replace (last (c0 :: m ++ [c1]) 0) with c1
        by (symmetry; apply (last_last (c0 :: m))).
      unfold interior. simpl tl. rewrite removelast_last.
      rewrite isAlphabet_isLetter.
      destruct (isLetter c1) eqn:Hl1; [| reflexivity].
      pose proof (hostnameLoop_spec m [c0] [c1; c2] false (length p)
                    (proj1 Hfuel) (isLetter_not_dot c1 Hl1)) as Hloop.
      simpl app in Hloop. rewrite <- Hp in Hloop.
      change (len [c0]) with 1 in Hloop.
      replace (len p + (-1 - 1)) with (1 + len m) by lia.
      rewrite Hloop, (isLetter_not_dot c1 Hl1), Hsep.
      simpl negb. simpl orb. rewrite !orb_false_r.
      destruct (existsb isDelimiterOrWildcard m); [reflexivity |].
      destruct (adjacentDots m); [reflexivity |].
      destruct (existsb (fun c => c =? 46) m); reflexivity.
    + (* no trailing separator: the last character is [c2] *)
      rewrite slice_all, isAlphabet_isLetter.
      assert (Hinterior : interior p = m ++ [c1]).
      { unfold interior. rewrite Hp. simpl tl.
        replace (m ++ [c1; c2]) with ((m ++ [c1]) ++ [c2])
          by (rewrite <- app_assoc; reflexivity).
        apply removelast_last. }
      rewrite Hinterior, Hlast.
      destruct (isLetter c2) eqn:Hl2; [| reflexivity].
      pose proof (hostnameLoop_spec (m ++ [c1]) [c0] [c2] false (length p)
                    (proj2 Hfuel) (isLetter_not_dot c2 Hl2)) as Hloop.
      rewrite <- app_assoc in Hloop. simpl app in Hloop. rewrite <- Hp in Hloop.
      change (len [c0]) with 1 in Hloop.
      replace (len p + -1) with (1 + len (m ++ [c1]))
        by (rewrite len_app, len_cons; change (len []) with 0; lia).
      rewrite Hloop, (isLetter_not_dot c2 Hl2).
      rewrite !existsb_app. simpl existsb.
      simpl negb. simpl orb. rewrite !orb_false_r.
      destruct (existsb isDelimiterOrWildcard m || isDelimiterOrWildcard c1);
        [reflexivity |].
      destruct (adjacentDots (m ++ [c1])); [reflexivity |].
      destruct (existsb (fun c => c =? 46) m || (c1 =? 46)); reflexivity.
Qed.

(** * Further properties *)

(** ** Classification of a line *)

Lemma classify_skip (pre a rest : jsstring) (fuel : nat) :
  unmarked pre ->
  classify (length pre + fuel) (a ++ pre ++ rest) (len a)
  = classify fuel (a ++ pre ++ rest) (len a + len pre).
Proof.
  unfold unmarked. revert a.
  induction pre as [| c pre IH]; intros a Hpre.
  - change (len []) with 0. rewrite Z.add_0_r. reflexivity.
  - cbn [forallb] in Hpre. apply andb_true_iff in Hpre.
    destruct Hpre as [Hc Hpre].
    cbn [length Nat.add]. unfold classify; fold classify.
    rewrite charCodeAt_app_hd.
    replace (len a <? len (a ++ (c :: pre) ++ rest)) with true
      by (rewrite len_app; simpl app; rewrite len_cons;
          pose proof (len_nonneg (pre ++ rest)); symmetry;
          apply Z.ltb_lt; lia).
    simpl hd_error. unfold codeIs.
    unfold isClassifier in Hc. apply negb_true_iff in Hc.
    repeat (apply orb_false_iff in Hc; destruct Hc as [Hc ?]).
    repeat match goal with H : (c =? _) = false |- _ => rewrite H; clear H end.
    cbn [orb].
    replace (a ++ (c :: pre) ++ rest) with ((a ++ [c]) ++ pre ++ rest)
      by (rewrite <- app_assoc; reflexivity).
    replace (len a + 1) with (len (a ++ [c]))
      by (rewrite len_app; reflexivity).
    rewrite (IH (a ++ [c]) Hpre).
    rewrite len_app, !len_cons. change (len []) with 0.
    f_equal. lia.
Qed.

Lemma classify_at (pre rest : jsstring) (c : Z) :
  unmarked pre ->
  parseFilter (pre ++ c :: rest)
  = classify (S (length rest)) (pre ++ c :: rest) (len pre).
Proof.
  intros Hpre. unfold parseFilter.
  replace (len (pre ++ c :: rest) =? 0) with false
    by (rewrite len_app, len_cons; pose proof (len_nonneg pre);
        pose proof (len_nonneg rest); symmetry; apply Z.eqb_neq; lia).
  replace (length (pre ++ c :: rest)) with (length pre + S (length rest))%nat
    by (rewrite length_app; reflexivity).
  pose proof (classify_skip pre [] (c :: rest) (S (length rest)) Hpre) as H.
  simpl app in H. change (len []) with 0 in H. rewrite Z.add_0_l in H.
  exact H.
Qed.

Lemma classify_char (pre rest : jsstring) (c : Z) (fuel : nat) :
  classify (S fuel) (pre ++ c :: rest) (len pre)
  = if isCommentMark c then Ok (FILTER_TYPE_OTHERS (pre ++ c :: rest))
    else if isNetworkMark c
    then Ok (FILTER_TYPE_NETWORK (parseNetworkFilter (pre ++ c :: rest)))
    else if c =? 35 then parseCosmeticFilter (pre ++ c :: rest) (len pre)
    else classify fuel (pre ++ c :: rest) (len pre + 1).
Proof.
  unfold classify; fold classify.
  rewrite charCodeAt_app_hd.
  replace (len pre <? len (pre ++ c :: rest)) with true
    by (rewrite len_app, len_cons; pose proof (len_nonneg rest); symmetry;
        apply Z.ltb_lt; lia).
  reflexivity.
Qed.

(** X1: a line whose first classifying character (one of [[ ! / : ^ @ | #])
    is [!] or [[] is a comment or section header: it parses to an [Others]
    record that carries the line, whatever stands before and after. *)
Theorem parseFilter_comment (pre rest : jsstring) (c : Z) :
  unmarked pre ->
  isCommentMark c = true ->
  parseFilter (pre ++ c :: rest) = Ok (FILTER_TYPE_OTHERS (pre ++ c :: rest)).
Proof.
  intros Hpre Hc. rewrite (classify_at pre rest c Hpre), classify_char, Hc.
  reflexivity.
Qed.

Lemma parseFilter_comment_witness :
  unmarked (str "  ") /\ isCommentMark 33 = true
  /\ parseFilter (str "  ! ads.example.com##.banner")
     = Ok (FILTER_TYPE_OTHERS (str "  ! ads.example.com##.banner")).
Proof.
  split; [reflexivity |]. split; [reflexivity |].
  exact (parseFilter_comment (str "  ") (str " ads.example.com##.banner") 33
           eq_refl eq_refl).
Defined.

(** X2: a line whose first classifying character is [/], [:], [^], [@] or
    [|] is parsed as a network filter. *)
Theorem parseFilter_network (pre rest : jsstring) (c : Z) :
  unmarked pre ->
  isNetworkMark c = true ->
  parseFilter (pre ++ c :: rest)
  = Ok (FILTER_TYPE_NETWORK (parseNetworkFilter (pre ++ c :: rest))).
Proof.
  intros Hpre Hc. rewrite (classify_at pre rest c Hpre), classify_char, Hc.
  replace (isCommentMark c) with false; [reflexivity |].
  revert Hc. unfold isNetworkMark, isCommentMark.
  split_comparisons; subst; simpl; (reflexivity || discriminate || lia).
Qed.

Lemma parseFilter_network_witness :
  unmarked (str "example.com") /\ isNetworkMark 47 = true
  /\ parseFilter (str "example.com/ads#top")
     = Ok (FILTER_TYPE_NETWORK (parseNetworkFilter (str "example.com/ads#top"))).
Proof.
  split; [reflexivity |]. split; [reflexivity |].
  exact (parseFilter_network (str "example.com") (str "ads#top") 47
           eq_refl eq_refl).
Defined.

(** X3: a line that is not empty and has no classifying character at all (a
    bare hostname, say) is parsed as a network filter. *)
Theorem parseFilter_plain (l : jsstring) :
  l <> [] ->
  unmarked l ->
  parseFilter l = Ok (FILTER_TYPE_NETWORK (parseNetworkFilter l)).
Proof.
  intros Hne Hl. unfold parseFilter.
  replace (len l =? 0) with false
    by (destruct l; [contradiction | rewrite len_cons;
                                       pose proof (len_nonneg l); symmetry;
                                       apply Z.eqb_neq; lia]).
  pose proof (classify_skip l [] [] 0 Hl) as H.
  rewrite Nat.add_0_r, app_nil_r in H. simpl app in H.
  change (len []) with 0 in H. rewrite H. reflexivity.
Qed.

Lemma parseFilter_plain_witness :
  str "ads.example.com" <> [] /\ unmarked (str "ads.example.com")
  /\ parseFilter (str "ads.example.com")
     = Ok (FILTER_TYPE_NETWORK (parseNetworkFilter (str "ads.example.com"))).
Proof.
  split; [discriminate |]. split; [reflexivity |].
  apply (parseFilter_plain (str "ads.example.com")); [discriminate | reflexivity].
Defined.

(** ** Cosmetic filters *)

Lemma cosmeticMarker_skip (n : nat) (a rest : jsstring) (exc : bool)
  (fuel : nat) :
  cosmeticMarker (n + fuel) (a ++ repeat 64 n ++ rest) (len a) exc
  = cosmeticMarker fuel (a ++ repeat 64 n ++ rest) (len a + Z.of_nat n)
      (exc || negb (Nat.eqb n 0)).
Proof.
  revert a exc.
  induction n as [| n IH]; intros a exc.
  - simpl. rewrite Z.add_0_r, orb_false_r. reflexivity.
  - cbn [Nat.add]. unfold cosmeticMarker; fold cosmeticMarker.
    rewrite charCodeAt_app_hd.
    replace (len a <? len (a ++ repeat 64 (S n) ++ rest)) with true
      by (rewrite len_app; simpl repeat; simpl app; rewrite len_cons;
          pose proof (len_nonneg (repeat 64 n ++ rest)); symmetry;
          apply Z.ltb_lt; lia).
    simpl repeat. simpl hd_error. cbn [app codeIs]. simpl (64 =? 64).
    cbv iota.
    replace (a ++ 64 :: repeat 64 n ++ rest)
      with ((a ++ [64]) ++ repeat 64 n ++ rest)
      by (rewrite <- app_assoc; reflexivity).
    replace (len a + 1) with (len (a ++ [64]))
      by (rewrite len_app; reflexivity).
    rewrite IH. rewrite len_app. change (len [64]) with 1.
    cbn [Nat.eqb negb]. rewrite orb_true_r.
    f_equal. lia.
Qed.

Lemma cosmeticMarker_char (a rest : jsstring) (c : Z) (exc : bool)
  (fuel : nat) :
  cosmeticMarker (S fuel) (a ++ c :: rest) (len a) exc
  = if c =? 64 then cosmeticMarker fuel (a ++ c :: rest) (len a + 1) true
    else if c =? 35 then Ok (len a + 1, exc)
    else Throw (SyntaxError (unexpectedMarker c (len a))).
Proof.
  unfold cosmeticMarker; fold cosmeticMarker. unfold charAt.
  rewrite charCodeAt_app_hd.
  replace (len a <? len (a ++ c :: rest)) with true
    by (rewrite len_app, len_cons; pose proof (len_nonneg rest); symmetry;
        apply Z.ltb_lt; lia).
  reflexivity.
Qed.

Lemma sliceFrom_suffix (a b : jsstring) : sliceFrom (a ++ b) (len a) = b.
Proof.
  unfold sliceFrom, slice. rewrite len_app.
  pose proof (len_nonneg a) as Ha. pose proof (len_nonneg b) as Hb.
  destruct (Z.ltb_spec (len a) 0) as [H | _]; [lia |].
  destruct (Z.ltb_spec (len a + len b) 0) as [H | _]; [lia |].
  rewrite Z.min_id, Z.min_l by lia.
  replace (len a + len b - len a) with (len b) by lia.
  unfold len. rewrite !Nat2Z.id.
  rewrite skipn_app, skipn_all, Nat.sub_diag. simpl. apply firstn_all.
Qed.

(** X4: on a line routed to cosmetic parsing, a marker [#], any number of
    [@], [#] gives a cosmetic filter: the hostname is the text before the
    marker, the selector is everything after it, verbatim, and the filter is
    an exception exactly when the marker has an [@]. *)
Theorem parseFilter_cosmetic (pre sel : jsstring) (n : nat) :
  unmarked pre ->
  parseFilter (pre ++ str "#" ++ repeat 64 n ++ str "#" ++ sel)
  = Ok (FILTER_TYPE_COSMETIC
          {| cosmeticLine := pre ++ str "#" ++ repeat 64 n ++ str "#" ++ sel;
             hostname := pre;
             selector := sel;
             cosmeticIsException := negb (Nat.eqb n 0) |}).
Proof.
  intros Hpre. change (str "#") with [35]. cbn [app].
  rewrite (classify_at pre _ 35 Hpre), classify_char.
  cbn [isCommentMark isNetworkMark]. simpl.
  unfold parseCosmeticFilter.
  assert (Hmark : cosmeticMarker
                    (length (pre ++ 35 :: repeat 64 n ++ 35 :: sel))
                    (pre ++ 35 :: repeat 64 n ++ 35 :: sel) (len pre + 1) false
                  = Ok (len (pre ++ 35 :: repeat 64 n ++ [35]),
                        negb (Nat.eqb n 0))).
  { replace (length (pre ++ 35 :: repeat 64 n ++ 35 :: sel))
      with (n + S (S (length pre + length sel)))%nat
      by (rewrite length_app; cbn [length]; rewrite length_app,
          repeat_length; cbn [length]; lia).
    replace (len pre + 1) with (len (pre ++ [35]))
      by (rewrite len_app; reflexivity).
    replace (pre ++ 35 :: repeat 64 n ++ 35 :: sel)
      with ((pre ++ [35]) ++ repeat 64 n ++ 35 :: sel)
      by (rewrite <- app_assoc; reflexivity).
    rewrite cosmeticMarker_skip. cbn [orb].
    replace (len (pre ++ [35]) + Z.of_nat n)
      with (len ((pre ++ [35]) ++ repeat 64 n))
      by (rewrite (len_app (pre ++ [35])); unfold len at 2;
          rewrite repeat_length; reflexivity).
    replace ((pre ++ [35]) ++ repeat 64 n ++ 35 :: sel)
      with (((pre ++ [35]) ++ repeat 64 n) ++ 35 :: sel)
      by (rewrite <- app_assoc; reflexivity).
    rewrite cosmeticMarker_char. simpl.
    f_equal. f_equal.
    rewrite <- !app_assoc. cbn [app].
    rewrite !len_app, !len_cons, !len_app, !len_cons. change (len []) with 0.
    lia. }
  rewrite Hmark. f_equal. f_equal. f_equal.
  - apply slice_prefix.
  - replace (pre ++ 35 :: repeat 64 n ++ 35 :: sel)
      with ((pre ++ 35 :: repeat 64 n ++ [35]) ++ sel)
      by (rewrite <- app_assoc; cbn [app]; rewrite <- app_assoc;
          reflexivity).
    apply sliceFrom_suffix.
Qed.

Lemma parseFilter_cosmetic_witness :
  unmarked (str "example.com")
  /\ parseFilter (str "example.com#@#.ad > a")
     = Ok (FILTER_TYPE_COSMETIC
             {| cosmeticLine := str "example.com#@#.ad > a";
                hostname := str "example.com";
                selector := str ".ad > a";
                cosmeticIsException := true |}).
Proof.
  split; [reflexivity |].
  exact (parseFilter_cosmetic (str "example.com") (str ".ad > a") 1 eq_refl).
Defined.

(** X5: on a line routed to cosmetic parsing, the first character after the
    marker's [#] and [@]s that is neither [@] nor [#] makes the parser throw
    a syntax error, whose message quotes that character and its index in the
    line. *)
Theorem parseFilter_cosmetic_syntax_error (pre rest : jsstring) (n : nat)
  (c : Z) :
  unmarked pre ->
  c <> 64 ->
  c <> 35 ->
  parseFilter (pre ++ str "#" ++ repeat 64 n ++ c :: rest)
  = Throw (SyntaxError (unexpectedMarker c (len pre + 1 + Z.of_nat n))).
Proof.
  intros Hpre Hat Hhash. change (str "#") with [35]. cbn [app].
  rewrite (classify_at pre _ 35 Hpre), classify_char.
  cbn [isCommentMark isNetworkMark]. simpl.
  unfold parseCosmeticFilter.
  replace (length (pre ++ 35 :: repeat 64 n ++ c :: rest))
    with (n + S (S (length pre + length rest)))%nat
    by (rewrite length_app; cbn [length]; rewrite length_app,
        repeat_length; cbn [length]; lia).
  replace (len pre + 1) with (len (pre ++ [35]))
    by (rewrite len_app; reflexivity).
  replace (pre ++ 35 :: repeat 64 n ++ c :: rest)
    with ((pre ++ [35]) ++ repeat 64 n ++ c :: rest)
    by (rewrite <- app_assoc; reflexivity).
  rewrite cosmeticMarker_skip.
  replace (len (pre ++ [35]) + Z.of_nat n)
    with (len ((pre ++ [35]) ++ repeat 64 n))
    by (rewrite (len_app (pre ++ [35])); unfold len at 2;
        rewrite repeat_length; reflexivity).
  replace ((pre ++ [35]) ++ repeat 64 n ++ c :: rest)
    with (((pre ++ [35]) ++ repeat 64 n) ++ c :: rest)
    by (rewrite <- app_assoc; reflexivity).
  rewrite cosmeticMarker_char.
  apply Z.eqb_neq in Hat. apply Z.eqb_neq in Hhash. rewrite Hat, Hhash.
  replace (len ((pre ++ [35]) ++ repeat 64 n)) with (len pre + 1 + Z.of_nat n)
    by (rewrite !len_app, len_cons; change (len []) with 0; unfold len;
        rewrite repeat_length; lia).
  reflexivity.
Qed.

Lemma parseFilter_cosmetic_syntax_error_witness :
  unmarked (str "example.com") /\ 36 <> 64 /\ 36 <> 35
  /\ parseFilter (str "example.com#@$#.ad")
     = Throw (SyntaxError (unexpectedMarker 36 13)).
Proof.
  split; [reflexivity |]. split; [discriminate |]. split; [discriminate |].
  apply (parseFilter_cosmetic_syntax_error (str "example.com") (str "#.ad") 1 36);
    [reflexivity | discriminate | discriminate].
Defined.

(** ** The marker table of the modifiers *)

Lemma lookahead_bounds (fuel : nat) (l : jsstring) (i k : Z) :
  i <= k -> i <= fst (lookahead fuel l i k).
Proof.
  revert k. induction fuel as [| fuel IH]; intros k Hk; simpl; [lia |].
  destruct (k <? len l); [| simpl; lia].
  destruct (codeIs (charCodeAt l k) 61); [simpl; lia |].
  destruct (codeIs (charCodeAt l k) 36); [simpl; lia |].
  apply IH. lia.
Qed.

Lemma findModifierMarker_bounds (fuel : nat) (l : jsstring) (i : Z) :
  i <= findModifierMarker fuel l i.
Proof.
  revert i. induction fuel as [| fuel IH]; intros i; simpl; [lia |].
  destruct (i <? len l); [| lia].
  destruct (codeIs (charCodeAt l i) 36).
  - pose proof (lookahead_bounds (length l) l i (i + 1) ltac:(lia)) as Hl.
    destruct (lookahead (length l) l i (i + 1)) as [i' k]. simpl in Hl.
    destruct (negb (i' =? k)); [lia |].
    specialize (IH (i' + 1)). lia.
  - specialize (IH (i + 1)). lia.
Qed.

Lemma modifierValue_bounds (fuel : nat) (l : jsstring) (i : Z) :
  i <= fst (modifierValue fuel l i)
  /\ (snd (modifierValue fuel l i) = true
      -> fst (modifierValue fuel l i) <= len l).
Proof.
  revert i. induction fuel as [| fuel IH]; intros i; simpl;
    [split; [lia | discriminate] |].
  destruct (Z.ltb_spec i (len l + 1)); [| simpl; split; [lia | discriminate]].
  destruct (codeIs (charCodeAt l i) 92).
  - specialize (IH (i + 1)). split; [lia | tauto].
  - destruct (codeIs (charCodeAt l i) 44 || isNaN (charCodeAt l i)).
    + simpl. split; [lia | intros _; lia].
    + specialize (IH (i + 1)). split; [lia | tauto].
Qed.

Lemma setLastValue_app {A B : Type} (xs : list (A * option B)) (a : A)
  (o : option B) (v : B) :
  setLastValue (xs ++ [(a, o)]) v = xs ++ [(a, Some v)].
Proof.
  induction xs as [| x xs IH]; [reflexivity |].
  simpl app. destruct x as [a' o'].
  change (setLastValue ((a', o') :: xs ++ [(a, o)]) v)
    with (match xs ++ [(a, o)] with
          | [] => [(a', Some v)]
          | _ :: _ => (a', o') :: setLastValue (xs ++ [(a, o)]) v
          end).
  rewrite IH. destruct xs; reflexivity.
Qed.

Lemma Forall2_snoc {A B : Type} (R : A -> B -> Prop) (xs : list A)
  (ys : list B) (x : A) (y : B) :
  Forall2 R xs ys -> R x y -> Forall2 R (xs ++ [x]) (ys ++ [y]).
Proof.
  intros H Hxy. apply Forall2_app; [exact H | constructor; [exact Hxy | constructor]].
Qed.

Lemma searchModifiers_agrees (fuel : nat) (l : jsstring) (i k : Z)
  (mods : list modifier) (marks : list modifierMarker) :
  0 <= k -> k <= i ->
  Forall2 (markerAgrees l) mods marks ->
  Forall2 (markerAgrees l) (fst (searchModifiers fuel l i k mods marks))
    (snd (searchModifiers fuel l i k mods marks)).
Proof.
  revert i k mods marks.
  induction fuel as [| fuel IH]; intros i k mods marks Hk Hki Hinv; simpl;
    [exact Hinv |].
  destruct (Z.ltb_spec i (len l + 1)) as [Hi | Hi]; [| exact Hinv].
  assert (Hspan : markerAgrees l (slice l k i, None) ((k, i), None)).
  { unfold markerAgrees, spanWithin. simpl. repeat split; lia. }
  destruct (codeIs (charCodeAt l i) 61).
  - pose proof (modifierValue_bounds (length l + 2) l (i + 1)) as [Hlo Hhi].
    destruct (modifierValue (length l + 2) l (i + 1)) as [i' broke].
    simpl in Hlo, Hhi.
    destruct broke.
    + replace (setLastValue (mods ++ [(slice l k i, None)])
                 (slice l (i + 1) i'))
        with (mods ++ [(slice l k i, Some (slice l (i + 1) i'))])
        by (symmetry; apply (setLastValue_app mods)).
      replace (setLastValue (marks ++ [((k, i), None)]) (i + 1, i'))
        with (marks ++ [((k, i), Some (i + 1, i'))])
        by (symmetry; apply (setLastValue_app marks)).
      apply IH; [lia | lia |].
      apply Forall2_snoc; [exact Hinv |].
      unfold markerAgrees, spanWithin. simpl.
      specialize (Hhi eq_refl). repeat split; lia.
    + apply IH; [lia | lia |]. apply Forall2_snoc; assumption.
  - destruct (codeIs (charCodeAt l i) 44).
    + apply IH; [lia | lia |]. apply Forall2_snoc; assumption.
    + destruct (isNaN (charCodeAt l i) && (i >? k)).
      * apply IH; [lia | lia |]. apply Forall2_snoc; assumption.
      * apply IH; [lia | lia | exact Hinv].
Qed.

Lemma parseNetworkFilter_modifiers (l : jsstring) :
  exists i,
    0 <= i
    /\ modifiers (parseNetworkFilter l)
       = fst (searchModifiers (length l + 2) l (i + 1) (i + 1) [] [])
    /\ markModifiers (markers (parseNetworkFilter l))
       = snd (searchModifiers (length l + 2) l (i + 1) (i + 1) [] []).
Proof.
  unfold parseNetworkFilter.
  destruct (codeIs (charCodeAt l 0) 64 && codeIs (charCodeAt l (0 + 1)) 64);
    cbv zeta beta iota.
  - destruct (codeIs (charCodeAt l (0 + 2)) 124);
      [destruct (codeIs (charCodeAt l (0 + 2 + 1)) 124) |];
      cbv zeta beta iota;
      match goal with
      | |- context [searchModifiers _ l (?i + 1) (?i + 1) [] []] =>
          exists i; split;
          [match i with
           | findModifierMarker ?f l ?s =>
               pose proof (findModifierMarker_bounds f l s); lia
           end
          | destruct (searchModifiers (length l + 2) l (i + 1) (i + 1) [] []);
            split; reflexivity]
      end.
  - destruct (codeIs (charCodeAt l 0) 124);
      [destruct (codeIs (charCodeAt l (0 + 1)) 124) |];
      cbv zeta beta iota;
      match goal with
      | |- context [searchModifiers _ l (?i + 1) (?i + 1) [] []] =>
          exists i; split;
          [match i with
           | findModifierMarker ?f l ?s =>
               pose proof (findModifierMarker_bounds f l s); lia
           end
          | destruct (searchModifiers (length l + 2) l (i + 1) (i + 1) [] []);
            split; reflexivity]
      end.
Qed.

Lemma parsed_markers_agree (l : jsstring) :
  Forall2 (markerAgrees l) (modifiers (parseNetworkFilter l))
    (markModifiers (markers (parseNetworkFilter l))).
Proof.
  destruct (parseNetworkFilter_modifiers l) as [i [Hi [-> ->]]].
  apply searchModifiers_agrees; [lia | lia | constructor].
Qed.

(** X6: the marker table of a parsed network filter agrees with its
    modifiers: both lists have one entry per modifier, in the same order;
    every name span and value span lies within the line; each name and each
    value is the text of the line at its span, and a modifier has a value
    span exactly when it has a value. *)
Theorem parseNetworkFilter_markers (l : jsstring) :
  Forall2 (markerAgrees l) (modifiers (parseNetworkFilter l))
    (markModifiers (markers (parseNetworkFilter l))).
Proof. exact (parsed_markers_agree l). Qed.

(** ** What the parser hands to the formatter *)

Lemma classify_network (fuel : nat) (l : jsstring) (i : Z)
  (n : networkFilter) :
  classify fuel l i = Ok (FILTER_TYPE_NETWORK n) -> n = parseNetworkFilter l.
Proof.
  revert i. induction fuel as [| fuel IH]; intros i; simpl.
  - intros H. injection H as <-. reflexivity.
  - destruct (i <? len l); [| intros H; injection H as <-; reflexivity].
    destruct (codeIs (charCodeAt l i) 91 || codeIs (charCodeAt l i) 33);
      [discriminate |].
    destruct (codeIs (charCodeAt l i) 47 || codeIs (charCodeAt l i) 58
              || codeIs (charCodeAt l i) 94 || codeIs (charCodeAt l i) 64
              || codeIs (charCodeAt l i) 124);
      [intros H; injection H as <-; reflexivity |].
    destruct (codeIs (charCodeAt l i) 35); [| apply IH].
    unfold parseCosmeticFilter.
    destruct (cosmeticMarker (length l) l (i + 1) false) as [[i' exc] | e];
      discriminate.
Qed.

Lemma parseFilter_network_record (l : jsstring) (n : networkFilter) :
  parseFilter l = Ok (FILTER_TYPE_NETWORK n) -> n = parseNetworkFilter l.
Proof.
  unfold parseFilter. destruct (len l =? 0); [discriminate |].
  apply classify_network.
Qed.

Lemma parseNetworkFilter_line (l : jsstring) :
  networkLine (parseNetworkFilter l) = l.
Proof.
  unfold parseNetworkFilter.
  destruct (codeIs (charCodeAt l 0) 64 && codeIs (charCodeAt l (0 + 1)) 64);
    cbv zeta beta iota.
  - destruct (codeIs (charCodeAt l (0 + 2)) 124);
      [destruct (codeIs (charCodeAt l (0 + 2 + 1)) 124) |];
      cbv zeta beta iota;
      match goal with
      | |- context [searchModifiers ?f l ?i ?k [] []] =>
          destruct (searchModifiers f l i k [] []); reflexivity
      end.
  - destruct (codeIs (charCodeAt l 0) 124);
      [destruct (codeIs (charCodeAt l (0 + 1)) 124) |];
      cbv zeta beta iota;
      match goal with
      | |- context [searchModifiers ?f l ?i ?k [] []] =>
          destruct (searchModifiers f l i k [] []); reflexivity
      end.
Qed.

Lemma classify_line (fuel : nat) (l : jsstring) (i : Z) (d : details) :
  classify fuel l i = Ok d -> line d = l.
Proof.
  revert i. induction fuel as [| fuel IH]; intros i; simpl.
  - intros H. injection H as <-. apply parseNetworkFilter_line.
  - destruct (i <? len l);
      [| intros H; injection H as <-; apply parseNetworkFilter_line].
    destruct (codeIs (charCodeAt l i) 91 || codeIs (charCodeAt l i) 33);
      [intros H; injection H as <-; reflexivity |].
    destruct (codeIs (charCodeAt l i) 47 || codeIs (charCodeAt l i) 58
              || codeIs (charCodeAt l i) 94 || codeIs (charCodeAt l i) 64
              || codeIs (charCodeAt l i) 124);
      [intros H; injection H as <-; apply parseNetworkFilter_line |].
    destruct (codeIs (charCodeAt l i) 35); [| apply IH].
    unfold parseCosmeticFilter.
    destruct (cosmeticMarker (length l) l (i + 1) false) as [[i' exc] | e];
      [| discriminate].
    intros H. injection H as <-. reflexivity.
Qed.

Lemma parseFilter_line (l : jsstring) (d : details) :
  parseFilter l = Ok d -> line d = l.
Proof.
  unfold parseFilter. destruct (len l =? 0).
  - intros H. injection H as <-. reflexivity.
  - apply classify_line.
Qed.

Lemma len_firstn_le (n : nat) (s : jsstring) : len (firstn n s) <= Z.of_nat n.
Proof. unfold len. rewrite length_firstn. lia. Qed.

Lemma len_slice_le (l : jsstring) (a b : Z) :
  0 <= a -> a <= b -> len (slice l a b) <= b - a.
Proof.
  intros Ha Hab. unfold slice.
  destruct (Z.ltb_spec a 0); [lia |]. destruct (Z.ltb_spec b 0); [lia |].
  pose proof (len_firstn_le
                (Z.to_nat (Z.min b (len l) - Z.min a (len l)))
                (skipn (Z.to_nat (Z.min a (len l))) l)).
  pose proof (len_nonneg l). lia.
Qed.

Lemma len_trimStart_le (s : jsstring) : len (trimStart s) <= len s.
Proof.
  induction s as [| c s IH]; simpl; [lia |].
  destruct (isTrimmed c); [rewrite len_cons; lia | lia].
Qed.

Lemma len_trimEnd_le (s : jsstring) : len (trimEnd s) <= len s.
Proof.
  unfold trimEnd. pose proof (len_trimStart_le (rev s)) as H.
  unfold len in *. rewrite length_rev in *. exact H.
Qed.

Lemma leadingScan_bounds (fuel : nat) (l : jsstring) (i : Z) :
  i <= leadingScan fuel l i.
Proof.
  revert i. induction fuel as [| fuel IH]; intros i; simpl; [lia |].
  destruct (i <? len l); [| lia].
  destruct (negb (isWhitespace (charCodeAt l i))); [lia |].
  specialize (IH (i + 1)). lia.
Qed.

Lemma trailingScan_bounds (fuel : nat) (l : jsstring) (i : Z) :
  -1 <= i -> -1 <= trailingScan fuel l i <= i.
Proof.
  revert i. induction fuel as [| fuel IH]; intros i Hi; simpl; [lia |].
  destruct (Z.gtb_spec i (-1)); [| lia].
  destruct (negb (isWhitespace (charCodeAt l i))); [lia |].
  specialize (IH (i - 1)). lia.
Qed.

Lemma aliasDiffs_reportable (l : jsstring)
  (table : list (jsstring * jsstring)) (opt : jsstring) (name : span) :
  spanWithin l name -> Forall (reportable l) (aliasDiffs table opt name).
Proof.
  intros [Ha [Hab Hb]].
  induction table as [| [alias full] table IH]; simpl; [constructor |].
  destruct (jsstring_eqb (trim opt) alias); [| exact IH].
  apply Forall_cons; [cbn [reportable]; lia |].
  apply Forall_cons; [cbn [reportable]; lia | constructor].
Qed.

Lemma nameDiffs_reportable (l : jsstring) (name : span) :
  spanWithin l name ->
  Forall (reportable l) (nameDiffs (slice l (fst name) (snd name)) name).
Proof.
  intros Hspan. pose proof Hspan as [Ha [Hab Hb]].
  pose proof (len_slice_le l (fst name) (snd name) Ha Hab) as Hlen.
  pose proof (len_trimStart_le (slice l (fst name) (snd name))) as Hs.
  pose proof (len_trimEnd_le (slice l (fst name) (snd name))) as He.
  pose proof (len_nonneg (trimEnd (slice l (fst name) (snd name)))) as Hn.
  unfold nameDiffs. cbv zeta.
  apply Forall_app; split; [| apply Forall_app; split].
  - destruct (negb _); [apply Forall_cons; [cbn [reportable]; lia |] |]; constructor.
  - destruct (negb _); [apply Forall_cons; [cbn [reportable]; lia |] |]; constructor.
  - apply aliasDiffs_reportable. exact Hspan.
Qed.

Lemma valueDiffs_reportable (l : jsstring) (value : span) :
  spanWithin l value ->
  Forall (reportable l) (valueDiffs (slice l (fst value) (snd value)) value).
Proof.
  intros [Ha [Hab Hb]].
  pose proof (len_slice_le l (fst value) (snd value) Ha Hab) as Hlen.
  pose proof (len_trimStart_le (slice l (fst value) (snd value))) as Hs.
  pose proof (len_trimEnd_le (slice l (fst value) (snd value))) as He.
  pose proof (len_nonneg (trimEnd (slice l (fst value) (snd value)))) as Hn.
  unfold valueDiffs. cbv zeta.
  apply Forall_app; split;
    (destruct (negb _); [apply Forall_cons; [cbn [reportable]; lia |] |]; constructor).
Qed.

Lemma formatModifiers_agreeing (l : jsstring) (mods : list modifier)
  (marks : list modifierMarker) :
  Forall2 (markerAgrees l) mods marks ->
  forall pre,
    exists ds,
      formatModifiers mods (pre ++ marks) (length pre) = Ok ds
      /\ Forall (reportable l) ds.
Proof.
  induction 1 as [| m mk mods marks Hm _ IH]; intros pre.
  - exists []. split; [reflexivity | constructor].
  - simpl formatModifiers.
    rewrite nth_error_app2, Nat.sub_diag by lia. simpl nth_error.
    destruct (IH (pre ++ [mk])) as [ds' [Hds' Hrep']].
    rewrite <- app_assoc, length_app in Hds'. simpl in Hds'.
    rewrite Nat.add_1_r in Hds'. rewrite Hds'.
    destruct m as [opt val], mk as [name value].
    destruct Hm as [Hspan [Hname Hval]]. simpl in Hspan, Hname, Hval.
    subst opt. unfold modifierDiffs.
    destruct val as [val |], value as [value |]; try contradiction.
    + destruct Hval as [Hvspan ->].
      eexists. split; [reflexivity |].
      apply Forall_app; split; [apply Forall_app; split |];
        [apply nameDiffs_reportable | apply valueDiffs_reportable | ];
        assumption.
    + eexists. split; [reflexivity |].
      apply Forall_app; split; [apply nameDiffs_reportable |]; assumption.
Qed.

Lemma format_agreeing (d : details) :
  match d with
  | FILTER_TYPE_NETWORK n =>
      Forall2 (markerAgrees (networkLine n)) (modifiers n)
        (markModifiers (markers n))
  | _ => True
  end ->
  exists ds, format d = Ok ds /\ Forall (reportable (line d)) ds.
Proof.
  intros Hd. unfold format.
  pose proof (leadingScan_bounds (length (line d)) (line d) 0) as Hlead.
  pose proof (trailingScan_bounds (length (line d)) (line d) (len (line d) - 1))
    as Htrail.
  pose proof (len_nonneg (line d)) as Hlen.
  specialize (Htrail ltac:(lia)).
  assert (Hws : Forall (reportable (line d))
                  ((if negb (leadingScan (length (line d)) (line d) 0 =? 0)
                    then [DIFF_TYPE_DELETE (str "no-whitespaces") 0
                            (leadingScan (length (line d)) (line d) 0)]
                    else [])
                   ++ (if negb (trailingScan (length (line d)) (line d)
                                  (len (line d) - 1) =? len (line d) - 1)
                       then [DIFF_TYPE_DELETE (str "no-whitespaces")
                               (trailingScan (length (line d)) (line d)
                                  (len (line d) - 1))
                               (len (line d)
                                - trailingScan (length (line d)) (line d)
                                    (len (line d) - 1))]
                       else []))).
  { apply Forall_app; split;
      (destruct (negb _);
       [apply Forall_cons; [cbn [reportable]; lia |] |]; constructor). }
  destruct d as [l | n | c].
  - eexists. split; [reflexivity | exact Hws].
  - destruct (formatModifiers_agreeing _ _ _ Hd []) as [ds [Hds Hrep]].
    simpl in Hds. rewrite Hds.
    eexists. split; [reflexivity |].
    rewrite app_assoc. apply Forall_app; split; assumption.
  - eexists. split; [reflexivity | exact Hws].
Qed.

Lemma format_of_parse (l : jsstring) (d : details) :
  parseFilter l = Ok d ->
  exists ds, format d = Ok ds /\ Forall (reportable l) ds.
Proof.
  intros Hparse.
  rewrite <- (parseFilter_line l d Hparse).
  apply format_agreeing.
  destruct d as [l' | n | c]; [exact I | | exact I].
  rewrite (parseFilter_network_record l n Hparse), parseNetworkFilter_line.
  apply parsed_markers_agree.
Qed.

(** X7: diagnosing a parsed line never throws: for every line the parser
    accepts, [format] returns its list of edits, and [check] can build the
    message of each of them (no column, caret count or gap is negative). *)
Theorem format_parsed_line (l : jsstring) (d : details) :
  parseFilter l = Ok d ->
  exists ds, format d = Ok ds /\ Forall (reportable l) ds.
Proof. exact (format_of_parse l d). Qed.

Lemma format_parsed_line_witness :
  let l := str "||a.example^$ 3p ,domain= b.example" in
  parseFilter l = Ok (FILTER_TYPE_NETWORK (parseNetworkFilter l))
  /\ exists ds,
       format (FILTER_TYPE_NETWORK (parseNetworkFilter l)) = Ok ds
       /\ Forall (reportable l) ds.
Proof.
  intros l. split; [reflexivity |].
  exact (format_parsed_line l _ eq_refl).
Defined.

(** ** What makes [check] fail *)

Lemma formatMessage_reportable (l : jsstring) (d : diff) :
  reportable l d -> exists m, formatMessage l d = Ok m.
Proof.
  destruct d as [rule o n | rule o text]; intros [H1 H2];
    unfold formatMessage, repeat_.
  - destruct (Z.ltb_spec (20 + o) 0); [lia |].
    destruct (Z.ltb_spec n 0); [lia |]. eexists. reflexivity.
  - destruct (Z.ltb_spec (20 + o) 0); [lia |].
    destruct (Z.ltb_spec (len l - o + 1) 0); [lia |]. eexists. reflexivity.
Qed.

Lemma reportDiffs_reportable (l : jsstring) (ds : list diff) :
  Forall (reportable l) ds ->
  forall err, exists err', reportDiffs l ds err = (err', Ok tt).
Proof.
  induction 1 as [| d ds Hd _ IH]; intros err; simpl.
  - eexists. reflexivity.
  - destruct (formatMessage_reportable l d Hd) as [m ->]. apply IH.
Qed.

Lemma checkLines_throws (lines : list jsstring) (err0 err : list jsstring)
  (e : error) :
  checkLines lines err0 = (err, Throw e) ->
  exists l, In l lines /\ parseFilter l = Throw e.
Proof.
  revert err0. induction lines as [| l lines IH]; intros err0; simpl.
  - discriminate.
  - destruct (parseFilter l) as [d | e'] eqn:Hparse.
    + destruct (format_of_parse l d Hparse) as [ds [-> Hrep]].
      destruct (reportDiffs_reportable l ds Hrep err0) as [err' ->].
      destruct (checkLines lines err') as [err'' [fixed | e']] eqn:Hrest.
      * discriminate.
      * intros H. injection H as <- <-.
        destruct (IH _ Hrest) as [l' [Hin Hl']]. exists l'. auto.
    + intros H. injection H as <- <-. exists l. auto.
Qed.

(** X8: [check] fails exactly when some line of the text is a malformed
    cosmetic filter: it ends with a thrown error if and only if the parser
    throws on one of the lines, and the error it ends with is the syntax
    error of such a line.  Nothing else in the diagnosis or in the building
    of the messages can throw. *)
Theorem check_fails_on_syntax_errors_only (text : jsstring) :
  ((exists err e, check text = (err, Throw e))
   <-> (exists l e, In l (split 10 text) /\ parseFilter l = Throw e))
  /\ (forall err e,
        check text = (err, Throw e) ->
        exists l m,
          In l (split 10 text) /\ parseFilter l = Throw e
          /\ e = SyntaxError m).
Proof.
  assert (Hthrow : forall err e,
             check text = (err, Throw e) ->
             exists l, In l (split 10 text) /\ parseFilter l = Throw e).
  { intros err e. unfold check.
    destruct (checkLines (split 10 text) []) as [err' [fixed | e']] eqn:Hc;
      [discriminate |].
    intros H. injection H as <- <-. exact (checkLines_throws _ _ _ _ Hc). }
  split; [split |].
  - intros [err [e H]]. destruct (Hthrow err e H) as [l Hl]. eauto.
  - intros [l [e [Hin Hl]]].
    destruct (in_split l (split 10 text) Hin) as [before [after Hs]].
    unfold check. rewrite Hs.
    destruct (checkLines_aborts before after l e [] Hl) as [err [e' ->]].
    eauto.
  - intros err e H. destruct (Hthrow err e H) as [l [Hin Hl]].
    destruct (parseFilter_throws l e Hl) as [m ->]. eauto.
Qed.

(** ** Hostnames that pass the extractor *)

Lemma hostname_decision (d : networkFilter) :
  transformToHostnamePattern d
  = if rejected d then None else Some (stripSeparator (pattern d)).
Proof.
  destruct d as [p l mods exc sub boa eoa mk].
  unfold transformToHostnamePattern, rejected, isRegexpPattern.
  cbn [pattern matchEndOfAddress matchBeginningOfAddress].
  destruct (Z.ltb_spec (len p) 3) as [Hshort | Hlong].
  - rewrite !orb_true_r. reflexivity.
  - destruct (pattern_shape p Hlong) as [c0 [m [c1 [c2 Hp]]]].
    assert (Hlen : len p = len m + 3).
    { rewrite Hp, len_cons, len_app, !len_cons. change (len []) with 0. lia. }
    assert (H0 : charCodeAt p 0 = Some c0) by (rewrite Hp; reflexivity).
    assert (H2 : forall i, i = len p - 1 -> charCodeAt p i = Some c2).
    { intros i ->. rewrite Hp.
      replace (c0 :: m ++ [c1; c2]) with ((c0 :: m ++ [c1]) ++ [c2])
        by (simpl; rewrite <- app_assoc; reflexivity).
      apply charCodeAt_at.
      rewrite len_app, !len_cons, len_app, !len_cons. change (len []) with 0.
      lia. }
    assert (H1 : forall i, i = len p - 2 -> charCodeAt p i = Some c1).
    { intros i ->. rewrite Hp.
      change (c0 :: m ++ [c1; c2]) with ((c0 :: m) ++ [c1; c2]).
      apply charCodeAt_at.
      rewrite len_app, !len_cons. change (len []) with 0. lia. }
    assert (Hhd : hd 0 p = c0) by (rewrite Hp; reflexivity).
    assert (Hlast : last p 0 = c2).
    { rewrite Hp. change (c0 :: m ++ [c1; c2]) with ((c0 :: m) ++ [c1; c2]).
      apply last_two. }
    assert (Hregexp : regexpDelimited p = (c0 =? 47) && (c2 =? 47)).
    { unfold regexpDelimited. rewrite Hlast, Hp. reflexivity. }
    assert (Hdots : existsb (fun c => c =? 46) p
                    = (c0 =? 46) || existsb (fun c => c =? 46) m
                      || (c1 =? 46) || (c2 =? 46)).
    { rewrite Hp. simpl. rewrite existsb_app. simpl.
      rewrite orb_false_r, !orb_assoc. reflexivity. }
    rewrite H0, (H2 (len p - 1) eq_refl), (H2 (len p + -1)) by lia.
    rewrite (H1 (len p + (-1 - 1))) by lia.
    rewrite Hregexp, Hhd, Hdots.
    rewrite isNumeric_isDigit, isAlphabet_isLetter.
    unfold stripSeparator. rewrite Hlast.
    unfold codeIs.
    destruct ((c0 =? 47) && (c2 =? 47)); [reflexivity |].
    destruct eoa; [rewrite ?orb_true_r; reflexivity |].
    destruct boa; [reflexivity |].
    simpl orb.
    rewrite <- negb_orb, (orb_comm (isDigit c0)).
    destruct (isLetter c0 || isDigit c0) eqn:Hfirst; [| reflexivity].
    assert (Hc0 : (c0 =? 46) = false).
    { apply orb_true_iff in Hfirst. destruct Hfirst as [Hf | Hf];
        [apply isLetter_not_dot | apply isDigit_not_dot]; exact Hf. }
    rewrite Hc0. simpl negb. simpl orb. cbv iota.
    assert (Hfuel : (length m <= length p)%nat /\ (length (m ++ [c1]) <= length p)%nat).
    { rewrite Hp. simpl. rewrite !length_app. simpl. lia. }
    destruct (c2 =? 94) eqn:Hsep.
    + (* a trailing separator: the last character is [c1] *)
      apply Z.eqb_eq in Hsep.
      assert (Hstrip : removelast p = c0 :: m ++ [c1]).
      { rewrite Hp. change (c0 :: m ++ [c1; c2]) with ((c0 :: m) ++ [c1; c2]).
        apply removelast_two. }
      assert (Hslice : slice p 0 (len p - 1) = c0 :: m ++ [c1]).
      { rewrite Hp at 1.
        replace (c0 :: m ++ [c1; c2]) with ((c0 :: m ++ [c1]) ++ [c2])
          by (simpl; rewrite <- app_assoc; reflexivity).
        replace (len p - 1) with (len (c0 :: m ++ [c1]))
          by (rewrite len_cons, len_app, len_cons; change (len []) with 0; lia).
        apply slice_prefix. }
      rewrite Hstrip, Hslice.
      replace (last (c0 :: m ++ [c1]) 0) with c1
        by (symmetry; apply (last_last (c0 :: m))).
      unfold interior. simpl tl. rewrite removelast_last.
      rewrite isAlphabet_isLetter.
      destruct (isLetter c1) eqn:Hl1; [| reflexivity].
      pose proof (hostnameLoop_spec m [c0] [c1; c2] false (length p)
                    (proj1 Hfuel) (isLetter_not_dot c1 Hl1)) as Hloop.
      simpl app in Hloop. rewrite <- Hp in Hloop.
      change (len [c0]) with 1 in Hloop.
      replace (len p + (-1 - 1)) with (1 + len m) by lia.
      rewrite Hloop, (isLetter_not_dot c1 Hl1), Hsep.
      simpl negb. simpl orb. rewrite !orb_false_r.
      destruct (existsb isDelimiterOrWildcard m); [reflexivity |].
      destruct (adjacentDots m); [reflexivity |].
      destruct (existsb (fun c => c =? 46) m); reflexivity.
    + (* no trailing separator: the last character is [c2] *)
      rewrite slice_all, isAlphabet_isLetter.
      assert (Hinterior : interior p = m ++ [c1]).
      { unfold interior. rewrite Hp. simpl tl.
        replace (m ++ [c1; c2]) with ((m ++ [c1]) ++ [c2])
          by (rewrite <- app_assoc; reflexivity).
        apply removelast_last. }
      rewrite Hinterior, Hlast.
      destruct (isLetter c2) eqn:Hl2; [| reflexivity].
      pose proof (hostnameLoop_spec (m ++ [c1]) [c0] [c2] false (length p)
                    (proj2 Hfuel) (isLetter_not_dot c2 Hl2)) as Hloop.
      rewrite <- app_assoc in Hloop. simpl app in Hloop. rewrite <- Hp in Hloop.
      change (len [c0]) with 1 in Hloop.
      replace (len p + -1) with (1 + len (m ++ [c1]))
        by (rewrite len_app, len_cons; change (len []) with 0; lia).
      rewrite Hloop, (isLetter_not_dot c2 Hl2).
      rewrite !existsb_app. simpl existsb.
      simpl negb. simpl orb. rewrite !orb_false_r.
      destruct (existsb isDelimiterOrWildcard m || isDelimiterOrWildcard c1);
        [reflexivity |].
      destruct (adjacentDots (m ++ [c1])); [reflexivity |].
      destruct (existsb (fun c => c =? 46) m || (c1 =? 46)); reflexivity.
Qed.

Lemma hostnameShaped_accepted (d : networkFilter) :
  hostnameShaped (pattern d) = true ->
  matchBeginningOfAddress d = false ->
  matchEndOfAddress d = false ->
  transformToHostnamePattern d = Some (pattern d).
Proof.
  intros Hshape Hboa Heoa.
  rewrite hostname_decision.
  unfold hostnameShaped in Hshape.
  repeat (apply andb_true_iff in Hshape; destruct Hshape as [Hshape ?]).
  assert (Hlast : (last (pattern d) 0 =? 94) = false).
  { destruct (Z.eqb_spec (last (pattern d) 0) 94) as [E | _]; [| reflexivity].
    rewrite E in *. discriminate. }
  assert (Hstrip : stripSeparator (pattern d) = pattern d)
    by (unfold stripSeparator; rewrite Hlast; reflexivity).
  assert (Hregexp : regexpDelimited (pattern d) = false).
  { unfold regexpDelimited. destruct (pattern d) as [| c p]; [reflexivity |].
    simpl hd in *. destruct (Z.eqb_spec c 47) as [-> | _]; [| reflexivity].
    discriminate. }
  unfold rejected. cbv zeta. rewrite Hstrip, Hregexp, Hboa, Heoa.
  apply Z.leb_le in Hshape.
  replace (len (pattern d) <? 3) with false
    by (symmetry; apply Z.ltb_ge; exact Hshape).
  repeat match goal with
         | H : negb _ = true |- _ => apply negb_true_iff in H
         end.
  repeat match goal with H : _ = _ |- _ => rewrite H end.
  reflexivity.
Qed.

Lemma two_ends (q : jsstring) :
  2 <= len q -> exists c0 m cl, q = c0 :: m ++ [cl].
Proof.
  intros H. destruct q as [| c0 t]; [unfold len in H; simpl in H; lia |].
  destruct (exists_last (l := t)) as [m [cl ->]].
  { intros ->. unfold len in H. simpl in H. lia. }
  eauto.
Qed.

Lemma shaped_of_ends (c0 cl : Z) (m : jsstring) :
  isLetter c0 || isDigit c0 = true ->
  isLetter cl = true ->
  existsb (fun c => c =? 46) (c0 :: m ++ [cl]) = true ->
  existsb isDelimiterOrWildcard m = false ->
  adjacentDots m = false ->
  hostnameShaped (c0 :: m ++ [cl]) = true.
Proof.
  intros Hfirst Hlast Hdot Hdelim Hadj.
  assert (Hc0 : (c0 =? 46) = false).
  { apply orb_true_iff in Hfirst. destruct Hfirst as [Hf | Hf];
      [apply isLetter_not_dot | apply isDigit_not_dot]; exact Hf. }
  pose proof (isLetter_not_dot cl Hlast) as Hcl.
  assert (Hm : m <> []).
  { intros ->. simpl in Hdot. rewrite Hc0, Hcl in Hdot. discriminate. }
  unfold hostnameShaped, interior. cbn [hd tl].
  rewrite removelast_last, Hdelim, Hadj, Hdot, Hfirst.
  change (c0 :: m ++ [cl]) with ((c0 :: m) ++ [cl]).
  rewrite last_last, Hlast.
  replace (3 <=? len ((c0 :: m) ++ [cl])) with true; [reflexivity |].
  symmetry. apply Z.leb_le.
  rewrite len_app, !len_cons. change (len []) with 0.
  destruct m as [| x m]; [contradiction |].
  rewrite len_cons. pose proof (len_nonneg m). lia.
Qed.

Lemma accepted_shape (d : networkFilter) (h : jsstring) :
  transformToHostnamePattern d = Some h ->
  hostnameShaped h = true
  /\ h = stripSeparator (pattern d)
  /\ matchBeginningOfAddress d = false
  /\ matchEndOfAddress d = false.
Proof.
  rewrite hostname_decision.
  destruct (rejected d) eqn:Hrej; [discriminate |].
  intros H. injection H as <-.
  unfold rejected in Hrej. cbv zeta in Hrej.
  repeat (apply orb_false_iff in Hrej; destruct Hrej as [Hrej ?]).
  repeat match goal with
         | H : negb _ = false |- _ => apply negb_false_iff in H
         end.
  repeat split; try assumption.
  match goal with H : (len (pattern d) <? 3) = false |- _ =>
    apply Z.ltb_ge in H; rename H into Hlen end.
  unfold stripSeparator in *.
  destruct (Z.eqb_spec (last (pattern d) 0) 94) as [Hsep | Hsep].
  - (* the pattern is [q ++ "^"] *)
    assert (Hne : pattern d <> [])
      by (intros E; rewrite E in Hlen; unfold len in Hlen; simpl in Hlen; lia).
    pose proof (app_removelast_last 0 Hne) as Hp. rewrite Hsep in Hp.
    set (q := removelast (pattern d)) in *.
    assert (Hq : 2 <= len q).
    { rewrite Hp, len_app in Hlen. change (len [94]) with 1 in Hlen. lia. }
    destruct (two_ends q Hq) as [c0 [m [cl Eq]]].
    rewrite Eq in *.
    replace (last (c0 :: m ++ [cl]) 0) with cl in *
      by (symmetry; apply (last_last (c0 :: m))).
    unfold interior in *. cbn [tl] in *. rewrite removelast_last in *.
    apply shaped_of_ends; try assumption.
    + rewrite Hp in *. assumption.
    + match goal with
      | H : existsb (fun c => c =? 46) (pattern d) = true |- _ =>
          rewrite Hp, existsb_app in H; simpl in H;
          rewrite orb_false_r in H; exact H
      end.
  - assert (Hq : 2 <= len (pattern d)) by lia.
    destruct (two_ends (pattern d) Hq) as [c0 [m [cl Eq]]].
    rewrite Eq in *.
    replace (last (c0 :: m ++ [cl]) 0) with cl in *
      by (symmetry; apply (last_last (c0 :: m))).
    unfold interior in *. cbn [tl] in *. rewrite removelast_last in *.
    apply shaped_of_ends; assumption.
Qed.

(** X9: every hostname that [transformToHostnamePattern] returns has the
    shape of a host name: at least three characters, a letter or digit
    first, a letter last (so no trailing [^]), a dot somewhere, and between
    the first and last character none of [| # / ? & *] and no two dots in a
    row.  It is the pattern without one trailing [^], and the filter has no
    address anchor at the beginning or the end. *)
Theorem transformToHostnamePattern_shape (d : networkFilter) (h : jsstring) :
  transformToHostnamePattern d = Some h ->
  hostnameShaped h = true
  /\ h = stripSeparator (pattern d)
  /\ matchBeginningOfAddress d = false
  /\ matchEndOfAddress d = false.
Proof. exact (accepted_shape d h). Qed.

Lemma transformToHostnamePattern_shape_witness :
  let d := parseNetworkFilter (str "||ads.example.com^") in
  transformToHostnamePattern d = Some (str "ads.example.com")
  /\ hostnameShaped (str "ads.example.com") = true
  /\ str "ads.example.com" = stripSeparator (pattern d)
  /\ matchBeginningOfAddress d = false
  /\ matchEndOfAddress d = false.
Proof.
  intros d. split; [reflexivity |].
  exact (transformToHostnamePattern_shape d (str "ads.example.com") eq_refl).
Defined.

(** X10: the extractor is idempotent: a hostname it returned, taken as the
    pattern of a filter without address anchors, is returned unchanged. *)
Theorem transformToHostnamePattern_idempotent (d d' : networkFilter)
  (h : jsstring) :
  transformToHostnamePattern d = Some h ->
  pattern d' = h ->
  matchBeginningOfAddress d' = false ->
  matchEndOfAddress d' = false ->
  transformToHostnamePattern d' = Some h.
Proof.
  intros Hd Hp Hboa Heoa.
  destruct (accepted_shape d h Hd) as [Hshape _].
  rewrite <- Hp in *. apply hostnameShaped_accepted; assumption.
Qed.

Lemma transformToHostnamePattern_idempotent_witness :
  let d := parseNetworkFilter (str "||ads.example.com^") in
  let d' := parseNetworkFilter (str "ads.example.com") in
  transformToHostnamePattern d = Some (str "ads.example.com")
  /\ pattern d' = str "ads.example.com"
  /\ matchBeginningOfAddress d' = false
  /\ matchEndOfAddress d' = false
  /\ transformToHostnamePattern d' = Some (str "ads.example.com").
Proof.
  intros d d'. repeat (split; [reflexivity |]).
  exact (transformToHostnamePattern_idempotent d d' (str "ads.example.com")
           eq_refl eq_refl eq_refl eq_refl).
Defined.

(** ** Exception lines in the hosts compilation *)

Lemma headless_rejected (d : networkFilter) :
  headless d -> transformToHostnamePattern d = None.
Proof.
  intros [Hboa | Hfirst]; unfold transformToHostnamePattern.
  - rewrite Hboa, orb_true_r. reflexivity.
  - destruct (isRegexpPattern d || matchEndOfAddress d
              || matchBeginningOfAddress d || (len (pattern d) <? 3));
      [reflexivity |].
    apply orb_false_iff in Hfirst. destruct Hfirst as [-> ->]. reflexivity.
Qed.

Lemma charCodeAt_slice_head (l : jsstring) (a e : Z) :
  0 <= a ->
  charCodeAt (slice l a e) 0 = None
  \/ charCodeAt (slice l a e) 0 = charCodeAt l a.
Proof.
  intros Ha. unfold slice.
  destruct (Z.ltb_spec a 0) as [H | _]; [lia |].
  set (to := if e <? 0 then Z.max (len l + e) 0 else Z.min e (len l)).
  destruct (Z.to_nat (to - Z.min a (len l))) as [| n]; [left; reflexivity |].
  destruct (Z.le_gt_cases (len l) a) as [Hout | Hin].
  - left. rewrite Z.min_r by lia. unfold len. rewrite Nat2Z.id, skipn_all.
    reflexivity.
  - right. rewrite Z.min_l by lia.
    unfold charCodeAt. destruct (Z.ltb_spec a 0) as [H | _]; [lia |].
    change (0 <? 0) with false. cbv iota. change (Z.to_nat 0) with O.
    destruct (skipn (Z.to_nat a) l) as [| c t] eqn:Hskip.
    + apply (f_equal (@length Z)) in Hskip. rewrite length_skipn in Hskip.
      unfold len in Hin. simpl in Hskip. lia.
    + simpl. rewrite <- (Nat.add_0_r (Z.to_nat a)), <- nth_error_skipn, Hskip.
      reflexivity.
Qed.

Lemma headless_truncated (d : networkFilter) (k : Z) :
  headless d -> headless (setPattern d (slice (pattern d) 0 k)).
Proof.
  intros [Hboa | Hfirst]; [left; exact Hboa | right].
  cbn [setPattern pattern].
  destruct (charCodeAt_slice_head (pattern d) 0 k ltac:(lia)) as [-> | ->];
    [reflexivity | exact Hfirst].
Qed.

Lemma skipWhitespaces_first (l : jsstring) (c : Z) :
  charCodeAt l 0 = Some c ->
  isWhitespace (Some c) = false ->
  skipWhitespaces (length l) l 0 = JArr 0.
Proof.
  intros Hc Hws. destruct l as [| x l]; [discriminate |].
  cbn [length]. unfold skipWhitespaces.
  rewrite Hc, Hws.
  replace (0 <? len (x :: l)) with true
    by (rewrite len_cons; pose proof (len_nonneg l); symmetry;
        apply Z.ltb_lt; lia).
  reflexivity.
Qed.

Lemma codeIs_true (c : option Z) (n : Z) : codeIs c n = true -> c = Some n.
Proof.
  destruct c as [x |]; simpl; [| discriminate].
  intros H. apply Z.eqb_eq in H. congruence.
Qed.

Lemma exception_headless (l : jsstring) :
  isException (parseNetworkFilter l) = true -> headless (parseNetworkFilter l).
Proof.
  unfold parseNetworkFilter.
  destruct (codeIs (charCodeAt l 0) 64 && codeIs (charCodeAt l (0 + 1)) 64)
    eqn:Hexc; cbv zeta beta iota.
  - apply andb_true_iff in Hexc. destruct Hexc as [H0 _].
    apply codeIs_true in H0.
    pose proof (skipWhitespaces_first l 64 H0 eq_refl) as Hskip.
    destruct (codeIs (charCodeAt l (0 + 2)) 124) eqn:Hp1;
      [destruct (codeIs (charCodeAt l (0 + 2 + 1)) 124) eqn:Hp2 |];
      cbv zeta beta iota;
      match goal with
      | |- context [searchModifiers ?f l ?i ?k [] []] =>
          destruct (searchModifiers f l i k [] [])
      end; intros _; unfold headless;
      cbn [pattern matchBeginningOfAddress]; rewrite ?Hskip.
    + right. apply codeIs_true in Hp1. change (0 + 2) with 2 in Hp1.
      change (toInteger (jsAdd (JArr 0) 2)) with 2.
      match goal with
      | |- context [slice l 2 ?e] =>
          destruct (charCodeAt_slice_head l 2 e ltac:(lia)) as [-> | ->]
      end; [reflexivity | rewrite Hp1; reflexivity].
    + left. reflexivity.
    + right. change (toInteger (jsAdd (JArr 0) 0)) with 0.
      match goal with
      | |- context [slice l 0 ?e] =>
          destruct (charCodeAt_slice_head l 0 e ltac:(lia)) as [-> | ->]
      end; [reflexivity | rewrite H0; reflexivity].
  - destruct (codeIs (charCodeAt l 0) 124);
      [destruct (codeIs (charCodeAt l (0 + 1)) 124) |];
      cbv zeta beta iota;
      match goal with
      | |- context [searchModifiers ?f l ?i ?k [] []] =>
          destruct (searchModifiers f l i k [] [])
      end; discriminate.
Qed.

Lemma exception_step (opts : options) (st : hostsState) (l : jsstring)
  (n : networkFilter) :
  parseFilter l = Ok (FILTER_TYPE_NETWORK n) ->
  isException n = true ->
  transformToHostnamePattern n = None
  /\ hostsStep opts st l = if strict opts then addException st None else st.
Proof.
  intros Hparse Hexc.
  pose proof (parseFilter_network_record l n Hparse) as ->.
  pose proof (exception_headless l Hexc) as Hhead.
  pose proof (headless_rejected _ Hhead) as Hnone.
  split; [exact Hnone |].
  unfold hostsStep, hostsTry. rewrite Hparse, Hexc, Hnone.
  destruct (strict opts); [reflexivity |].
  cbn [negb andb isNull].
  destruct (indexOf (pattern (parseNetworkFilter l)) 47 =? -1);
    [reflexivity |].
  rewrite (headless_rejected _ (headless_truncated _ _ Hhead)).
  reflexivity.
Qed.

(** X11: no exception line gives a hostname.  For every line that parses to
    a network filter with the exception flag, [transformToHostnamePattern]
    returns [null] (the pattern still begins with the [@@] or the [||] of the
    line, or the filter is anchored by a single [|]), and so does the retry
    on the pattern cut at its first [/].  In non-strict mode such a line
    changes neither set and logs nothing; in strict mode it adds [null] to
    the excepted set and removes [null] from the blocked set. *)
Theorem compileHosts_exception_line (opts : options) (st : hostsState)
  (l : jsstring) (n : networkFilter) :
  parseFilter l = Ok (FILTER_TYPE_NETWORK n) ->
  isException n = true ->
  transformToHostnamePattern n = None
  /\ hostsStep opts st l = if strict opts then addException st None else st.
Proof. exact (exception_step opts st l n). Qed.

Lemma compileHosts_exception_line_witness :
  let l := str "@@||cdn.example.com/lib.js" in
  let n := parseNetworkFilter l in
  parseFilter l = Ok (FILTER_TYPE_NETWORK n)
  /\ isException n = true
  /\ transformToHostnamePattern n = None
  /\ hostsStep loose hostsInit l = hostsInit.
Proof.
  intros l n. split; [reflexivity |]. split; [reflexivity |].
  exact (compileHosts_exception_line loose hostsInit l n eq_refl eq_refl).
Defined.

(** ** The two sets of the hosts compilation *)

Lemma jsstring_eqb_eq (a b : jsstring) : jsstring_eqb a b = true <-> a = b.
Proof.
  revert b. induction a as [| x a IH]; intros [| y b]; simpl;
    try (split; (reflexivity || discriminate)).
  rewrite andb_true_iff, Z.eqb_eq, IH. split.
  - intros [-> ->]. reflexivity.
  - intros H. injection H as -> ->. auto.
Qed.

Lemma hostnameValue_eqb_eq (a b : hostnameValue) :
  hostnameValue_eqb a b = true <-> a = b.
Proof.
  destruct a as [a |], b as [b |]; simpl;
    try (split; (reflexivity || discriminate)).
  rewrite jsstring_eqb_eq. split; [intros ->; reflexivity |].
  intros H. injection H as ->. reflexivity.
Qed.

Lemma setHas_In (x : hostnameValue) (s : list hostnameValue) :
  existsb (hostnameValue_eqb x) s = true <-> In x s.
Proof.
  rewrite existsb_exists. split.
  - intros [y [Hin Heq]]. apply hostnameValue_eqb_eq in Heq. subst. exact Hin.
  - intros Hin. exists x. split; [exact Hin | apply hostnameValue_eqb_eq; reflexivity].
Qed.

Lemma In_setAdd (x y : hostnameValue) (s : list hostnameValue) :
  In y (setAdd x s) <-> In y s \/ y = x.
Proof.
  unfold setAdd. destruct (existsb (hostnameValue_eqb x) s) eqn:Hhas.
  - apply setHas_In in Hhas. split; [auto | intros [H | ->]; assumption].
  - rewrite in_app_iff. simpl. split; intros [H | H]; auto.
    + destruct H as [<- | []]. auto.
Qed.

Lemma In_setDelete (x y : hostnameValue) (s : list hostnameValue) :
  In y (setDelete x s) <-> In y s /\ y <> x.
Proof.
  unfold setDelete. rewrite filter_In, negb_true_iff. split.
  - intros [Hin Hne]. split; [exact Hin |]. intros ->.
    assert (hostnameValue_eqb x x = true) by (apply hostnameValue_eqb_eq; reflexivity).
    congruence.
  - intros [Hin Hne]. split; [exact Hin |].
    destruct (hostnameValue_eqb x y) eqn:E; [| reflexivity].
    apply hostnameValue_eqb_eq in E. congruence.
Qed.

Lemma hostsStep_effect (opts : options) (st : hostsState) (l : jsstring) :
  lineEffect opts st (hostsStep opts st l).
Proof.
  destruct (parseFilter l) as [[l' | n | c] | e] eqn:Hparse;
    try (apply EffectNone; unfold hostsStep, hostsTry; rewrite Hparse;
         reflexivity).
  destruct (isException n) eqn:Hexc.
  - destruct (exception_step opts st l n Hparse Hexc) as [_ ->].
    destruct (strict opts) eqn:Hstrict.
    + apply (EffectExcept _ _ _ None);
        [reflexivity | rewrite Hstrict; discriminate | reflexivity
        | reflexivity].
    + apply EffectNone; reflexivity.
  - unfold hostsStep, hostsTry. rewrite Hparse, Hexc.
    destruct (transformToHostnamePattern n) as [h |] eqn:Hh;
      [| apply EffectNone; reflexivity].
    destruct (accepted_shape n h Hh) as [Hshape _].
    cbn [isNull negb].
    destruct (strict opts) eqn:Hstrict; cbn [negb].
    + apply (EffectBlock _ _ _ h); [assumption | reflexivity | reflexivity].
    + destruct (negb (thirdpartyLoop (modifiers n) 0
                      =? Z.of_nat (length (modifiers n)))).
      * apply (EffectExcept _ _ _ (Some h));
          [rewrite Hstrict; discriminate | intros _; exists h; auto
          | reflexivity | reflexivity].
      * apply (EffectBlock _ _ _ h); [assumption | reflexivity | reflexivity].
Qed.

Lemma hostsFold_invariant (opts : options) (P : hostsState -> Prop) :
  (forall st l, P st -> P (hostsStep opts st l)) ->
  forall lines st, P st -> P (hostsFold opts lines st).
Proof.
  intros Hstep lines. unfold hostsFold.
  induction lines as [| l lines IH]; intros st Hst; simpl; [exact Hst |].
  apply IH, Hstep, Hst.
Qed.

Lemma blocked_shaped_step (opts : options) (st : hostsState) (l : jsstring) :
  Forall blockedHostname (hostnames st) ->
  Forall blockedHostname (hostnames (hostsStep opts st l)).
Proof.
  intros Hst. rewrite Forall_forall in *.
  destruct (hostsStep_effect opts st l) as [_ Hh | h _ _ _ Hh | h Hshape _ Hh];
    rewrite Hh; intros x Hx.
  - auto.
  - apply In_setDelete in Hx. apply Hst, Hx.
  - apply In_setAdd in Hx. destruct Hx as [Hx | ->]; [auto |].
    exists h. auto.
Qed.

Lemma blocked_shaped (opts : options) (text : jsstring) :
  Forall blockedHostname (hostnames (compileHostsState text opts)).
Proof.
  unfold compileHostsState.
  apply (hostsFold_invariant opts
           (fun st => Forall blockedHostname (hostnames st))).
  - intros st l. apply blocked_shaped_step.
  - constructor.
Qed.

(** X12: every line of the hosts output is [127.0.0.1], a space and a
    hostname of the extractor's shape (at least three characters, a letter or
    digit first, a letter last, a dot, no [| # / ? & *] and no double dot in
    between); in particular [null] is never printed. *)
Theorem compileHosts_output_lines (text : jsstring) (opts : options)
  (out : jsstring) :
  In out (hostsOutput (compileHostsState text opts)) ->
  exists h, out = str "127.0.0.1 " ++ h /\ hostnameShaped h = true.
Proof.
  unfold hostsOutput. rewrite in_map_iff. intros [x [<- Hx]].
  pose proof (blocked_shaped opts text) as Hall.
  rewrite Forall_forall in Hall.
  destruct (Hall x Hx) as [h [-> Hshape]]. exists h. auto.
Qed.

Lemma compileHosts_output_lines_witness :
  let text := join [10] [str "! list"; str "||ads.example.com^";
                         str "example.com##.ad"; str "||b.example^$3p"] in
  In (str "127.0.0.1 ads.example.com") (hostsOutput (compileHostsState text loose))
  /\ exists h, str "127.0.0.1 ads.example.com" = str "127.0.0.1 " ++ h
               /\ hostnameShaped h = true.
Proof.
  intros text.
  assert (Hin : In (str "127.0.0.1 ads.example.com")
                  (hostsOutput (compileHostsState text loose)))
    by (vm_compute; left; reflexivity).
  split; [exact Hin |].
  exact (compileHosts_output_lines text loose _ Hin).
Defined.

Lemma NoDup_setAdd (x : hostnameValue) (s : list hostnameValue) :
  NoDup s -> NoDup (setAdd x s).
Proof.
  intros Hs. unfold setAdd.
  destruct (existsb (hostnameValue_eqb x) s) eqn:Hhas; [exact Hs |].
  apply NoDup_app; [exact Hs | repeat constructor; intros [] |].
  intros y Hy [<- | []].
  apply setHas_In in Hy. congruence.
Qed.

Lemma NoDup_setDelete (x : hostnameValue) (s : list hostnameValue) :
  NoDup s -> NoDup (setDelete x s).
Proof. intros Hs. unfold setDelete. apply NoDup_filter, Hs. Qed.

Lemma sets_NoDup_step (opts : options) (st : hostsState) (l : jsstring) :
  NoDup (exceptions st) /\ NoDup (hostnames st) ->
  NoDup (exceptions (hostsStep opts st l))
  /\ NoDup (hostnames (hostsStep opts st l)).
Proof.
  intros [He Hh].
  destruct (hostsStep_effect opts st l)
    as [He' Hh' | h _ _ He' Hh' | h _ He' Hh']; rewrite He', Hh';
    auto using NoDup_setAdd, NoDup_setDelete.
Qed.

Lemma NoDup_output (s : list hostnameValue) :
  Forall blockedHostname s -> NoDup s ->
  NoDup (map (fun h => str "127.0.0.1 " ++ hostnameText h) s).
Proof.
  induction 1 as [| x s [h [-> _]] Hs IH]; intros Hnd; simpl;
    [constructor |].
  inversion Hnd as [| ? ? Hnotin Hnd']; subst.
  constructor; [| apply IH, Hnd'].
  rewrite in_map_iff. intros [y [Heq Hy]].
  rewrite Forall_forall in Hs. destruct (Hs y Hy) as [h' [-> _]].
  assert (h' = h) by (cbv in Heq; congruence). subst h'. contradiction.
Qed.

(** X13: the hosts output has no repeated line, and neither set holds an
    entry twice, however often a hostname is blocked, excepted and blocked
    again. *)
Theorem compileHosts_no_duplicates (text : jsstring) (opts : options) :
  NoDup (hostsOutput (compileHostsState text opts))
  /\ NoDup (exceptions (compileHostsState text opts))
  /\ NoDup (hostnames (compileHostsState text opts)).
Proof.
  assert (Hsets : NoDup (exceptions (compileHostsState text opts))
                  /\ NoDup (hostnames (compileHostsState text opts))).
  { unfold compileHostsState.
    apply (hostsFold_invariant opts
             (fun st => NoDup (exceptions st) /\ NoDup (hostnames st))).
    - intros st l. apply sets_NoDup_step.
    - split; constructor. }
  split; [| exact Hsets].
  apply NoDup_output; [apply blocked_shaped | apply Hsets].
Qed.

(** ** Which hostnames end up blocked *)

Lemma hostsStep_debug (opts opts' : options) (st : hostsState)
  (l : jsstring) :
  strict opts = strict opts' ->
  hostsStep opts st l = hostsStep opts' st l.
Proof.
  intros Hstrict.
  destruct (parseFilter l) as [[l' | n | c] | e] eqn:Hparse;
    try (unfold hostsStep, hostsTry; rewrite Hparse; reflexivity).
  destruct (isException n) eqn:Hexc.
  - destruct (exception_step opts st l n Hparse Hexc) as [_ ->].
    destruct (exception_step opts' st l n Hparse Hexc) as [_ ->].
    rewrite Hstrict. reflexivity.
  - unfold hostsStep, hostsTry. rewrite Hparse, Hexc, Hstrict. reflexivity.
Qed.

Lemma hostsFold_debug (opts opts' : options) (lines : list jsstring) :
  strict opts = strict opts' ->
  forall st, hostsFold opts lines st = hostsFold opts' lines st.
Proof.
  intros Hstrict. unfold hostsFold.
  induction lines as [| l lines IH]; intros st; simpl; [reflexivity |].
  rewrite IH. f_equal. apply hostsStep_debug, Hstrict.
Qed.

(** X14: the [debug] option has no effect on the hosts compilation: the two
    sets, the output and even the log are the same with and without it (its
    one message, for a path-level exception, is never produced, since no
    exception line gives a hostname). *)
Theorem compileHosts_debug (text : jsstring) (s d : bool) :
  compileHostsState text {| strict := s; debug := d |}
  = compileHostsState text {| strict := s; debug := false |}
  /\ compileHosts text {| strict := s; debug := d |}
     = compileHosts text {| strict := s; debug := false |}.
Proof.
  assert (H : compileHostsState text {| strict := s; debug := d |}
              = compileHostsState text {| strict := s; debug := false |}).
  { unfold compileHostsState. apply hostsFold_debug. reflexivity. }
  split; [exact H |]. unfold compileHosts. rewrite H. reflexivity.
Qed.

Lemma thirdpartyLoop_spec (mods : list modifier) (i : Z) :
  (thirdpartyLoop mods i =? i + Z.of_nat (length mods))
  = negb (existsb (fun m => isThirdpartyConstraint (fst m)) mods)
  /\ thirdpartyLoop mods i <= i + Z.of_nat (length mods).
Proof.
  revert i. induction mods as [| m mods IH]; intros i.
  - simpl. rewrite Z.add_0_r, Z.eqb_refl. split; [reflexivity | lia].
  - cbn [thirdpartyLoop existsb length].
    destruct (isThirdpartyConstraint (fst m)).
    + split; [| lia]. simpl. apply Z.eqb_neq. lia.
    + destruct (IH (i + 1)) as [Heq Hle].
      replace (i + Z.of_nat (S (length mods)))
        with (i + 1 + Z.of_nat (length mods)) by lia.
      split; [exact Heq | exact Hle].
Qed.

Lemma hostsStep_network (opts : options) (st : hostsState) (l : jsstring)
  (n : networkFilter) (h : jsstring) :
  parseFilter l = Ok (FILTER_TYPE_NETWORK n) ->
  isException n = false ->
  transformToHostnamePattern n = Some h ->
  hostsStep opts st l
  = if strict opts || negb (hasThirdparty n) then addHostname st (Some h)
    else addException st (Some h).
Proof.
  intros Hparse Hexc Hh.
  unfold hostsStep, hostsTry. rewrite Hparse, Hexc, Hh. cbn [isNull negb].
  destruct (strict opts); [reflexivity |]. cbn [negb orb].
  destruct (thirdpartyLoop_spec (modifiers n) 0) as [Heq _].
  rewrite Z.add_0_l in Heq. rewrite Heq, negb_involutive.
  change (existsb (fun m => isThirdpartyConstraint (fst m)) (modifiers n))
    with (hasThirdparty n).
  destruct (hasThirdparty n); reflexivity.
Qed.

Lemma hostsStep_membership (opts : options) (st : hostsState)
  (l h : jsstring) :
  In (Some h) (hostnames (hostsStep opts st l))
  <-> blocks opts l h
      \/ (In (Some h) (hostnames st) /\ ~ excepts opts l h).
Proof.
  destruct (parseFilter l) as [[l' | n | c] | e] eqn:Hparse.
  1, 3, 4:
    (unfold hostsStep, hostsTry; rewrite Hparse; cbn [hostsLog hostnames];
     split;
     [intros H; right; split; [exact H |];
      intros [n' [Hn' _]]; congruence
     | intros [[n' [Hn' _]] | [H _]]; [congruence | exact H]]).
  assert (Hsame : forall n', parseFilter l = Ok (FILTER_TYPE_NETWORK n') -> n' = n)
    by (intros n' Hn'; congruence).
  destruct (isException n) eqn:Hexc.
  - destruct (exception_step opts st l n Hparse Hexc) as [_ ->].
    assert (Hnb : ~ blocks opts l h)
      by (intros [n' [Hn' [He' _]]]; rewrite (Hsame n' Hn') in He'; congruence).
    assert (Hne : ~ excepts opts l h)
      by (intros [n' [Hn' [He' _]]]; rewrite (Hsame n' Hn') in He'; congruence).
    destruct (strict opts); cbn [addException hostnames].
    + rewrite In_setDelete. split.
      * intros [H _]. auto.
      * intros [H | [H _]]; [contradiction | split; [exact H | discriminate]].
    + split; [auto | intros [H | [H _]]; [contradiction | exact H]].
  - destruct (transformToHostnamePattern n) as [h0 |] eqn:Hh.
    + rewrite (hostsStep_network opts st l n h0 Hparse Hexc Hh).
      assert (Hblocks : blocks opts l h
                        <-> h0 = h /\ strict opts || negb (hasThirdparty n) = true).
      { split.
        - intros [n' [Hn' [_ [Hh' Hmode]]]]. rewrite (Hsame n' Hn') in *.
          split; [congruence |].
          destruct Hmode as [-> | ->]; [reflexivity | apply orb_true_r].
        - intros [<- Hmode]. exists n. repeat split; try assumption.
          apply orb_true_iff in Hmode. destruct Hmode as [Hm | Hm]; [auto |].
          right. apply negb_true_iff in Hm. exact Hm. }
      assert (Hexcepts : excepts opts l h
                         <-> h0 = h /\ strict opts || negb (hasThirdparty n) = false).
      { split.
        - intros [n' [Hn' [_ [Hh' [Hs Ht]]]]]. rewrite (Hsame n' Hn') in *.
          split; [congruence |]. rewrite Hs, Ht. reflexivity.
        - intros [<- Hmode]. exists n.
          apply orb_false_iff in Hmode. destruct Hmode as [Hs Ht].
          apply negb_false_iff in Ht. auto. }
      rewrite Hblocks, Hexcepts.
      destruct (strict opts || negb (hasThirdparty n));
        cbn [addHostname addException hostnames].
      * rewrite In_setAdd. split.
        -- intros [H | H]; [right; split; [exact H |]; intros [_ F]; discriminate
                          | left; split; [congruence | reflexivity]].
        -- intros [[<- _] | [H _]]; auto.
      * rewrite In_setDelete. split.
        -- intros [H Hne]. right. split; [exact H |].
           intros [<- _]. apply Hne. reflexivity.
        -- intros [[_ F] | [H Hne]]; [discriminate |].
           split; [exact H |]. intros E. apply Hne.
           split; [congruence | reflexivity].
    + assert (Hstep : hostsStep opts st l = st)
        by (unfold hostsStep, hostsTry; rewrite Hparse, Hexc, Hh; reflexivity).
      rewrite Hstep. split.
      * intros H. right. split; [exact H |].
        intros [n' [Hn' [_ [Hh' _]]]]. rewrite (Hsame n' Hn') in Hh'. congruence.
      * intros [[n' [Hn' [_ [Hh' _]]]] | [H _]]; [| exact H].
        rewrite (Hsame n' Hn') in Hh'. congruence.
Qed.

Lemma snoc_split (A : Type) (ls before after : list A) (l x : A) :
  ls ++ [l] = before ++ x :: after ->
  (after = [] /\ before = ls /\ x = l)
  \/ exists after', after = after' ++ [l] /\ ls = before ++ x :: after'.
Proof.
  intros H. destruct after as [| y after] using rev_ind.
  - left. apply app_inj_tail in H. destruct H as [-> ->]. auto.
  - right. clear IHafter. exists after.
    change (before ++ x :: after ++ [y]) with (before ++ (x :: after) ++ [y]) in H.
    rewrite app_assoc in H. apply app_inj_tail in H.
    destruct H as [-> ->]. auto.
Qed.

Lemma hostsFold_snoc (opts : options) (ls : list jsstring) (l : jsstring)
  (st : hostsState) :
  hostsFold opts (ls ++ [l]) st = hostsStep opts (hostsFold opts ls st) l.
Proof. unfold hostsFold. rewrite fold_left_app. reflexivity. Qed.

Lemma hostsFold_membership (opts : options) (lines : list jsstring)
  (st : hostsState) (h : jsstring) :
  In (Some h) (hostnames (hostsFold opts lines st))
  <-> (exists before l after,
          lines = before ++ l :: after /\ blocks opts l h
          /\ Forall (fun l' => ~ excepts opts l' h) after)
      \/ (In (Some h) (hostnames st)
          /\ Forall (fun l' => ~ excepts opts l' h) lines).
Proof.
  induction lines as [| l ls IH] using rev_ind.
  - simpl. split.
    + intros H. right. split; [exact H | constructor].
    + intros [[before [l [after [H _]]]] | [H _]]; [| exact H].
      destruct before; discriminate.
  - rewrite hostsFold_snoc, hostsStep_membership, IH. split.
    + intros [Hb | [[[before [x [after [-> [Hx Hafter]]]]] | [Hst Hls]] Hne]].
      * left. exists ls, l, []. repeat split; [exact Hb | constructor].
      * left. exists before, x, (after ++ [l]).
        rewrite <- app_assoc. repeat split; [exact Hx |].
        apply Forall_app. split; [exact Hafter | constructor; [exact Hne | constructor]].
      * right. split; [exact Hst |].
        apply Forall_app. split; [exact Hls | constructor; [exact Hne | constructor]].
    + intros [[before [x [after [Heq [Hx Hafter]]]]] | [Hst Hall]].
      * destruct (snoc_split _ _ _ _ _ _ Heq) as [[-> [-> ->]] | [after' [-> ->]]].
        -- left. exact Hx.
        -- apply Forall_app in Hafter. destruct Hafter as [Hafter' Hl].
           inversion Hl; subst.
           right. split; [| assumption].
           left. exists before, x, after'. auto.
      * apply Forall_app in Hall. destruct Hall as [Hls Hl].
        inversion Hl; subst.
        right. split; [| assumption]. right. auto.
Qed.

Lemma output_membership (text : jsstring) (opts : options) (h : jsstring) :
  In (str "127.0.0.1 " ++ h) (hostsOutput (compileHostsState text opts))
  <-> In (Some h) (hostnames (compileHostsState text opts)).
Proof.
  unfold hostsOutput. rewrite in_map_iff. split.
  - intros [x [Heq Hx]].
    pose proof (blocked_shaped opts text) as Hall.
    rewrite Forall_forall in Hall.
    destruct (Hall x Hx) as [h' [-> _]].
    assert (h' = h) by (cbv in Heq; congruence). subst. exact Hx.
  - intros H. exists (Some h). auto.
Qed.

(** X15: which hostnames the hosts output holds.  The line
    [127.0.0.1 h] is in the output exactly when some line of the text blocks
    [h] (a network filter that is no exception, from which the extractor
    gives [h], in strict mode or without a [3p] / [third-party] modifier) and
    no line after it excepts [h] (the same, but in non-strict mode and with
    such a modifier).  Earlier lines do not matter: a later block shadows an
    earlier exception and the other way round. *)
Theorem compileHosts_blocked_iff (text : jsstring) (opts : options)
  (h : jsstring) :
  In (str "127.0.0.1 " ++ h) (hostsOutput (compileHostsState text opts))
  <-> exists before l after,
        split 10 text = before ++ l :: after /\ blocks opts l h
        /\ Forall (fun l' => ~ excepts opts l' h) after.
Proof.
  rewrite output_membership. unfold compileHostsState.
  rewrite hostsFold_membership. split.
  - intros [H | [[] _]]. exact H.
  - intros H. left. exact H.
Qed.

(** X16: in strict mode the hosts output holds exactly the hostnames of the
    non-exception network filters of the text: [127.0.0.1 h] is printed if
    and only if the extractor gives [h] for some such line; nothing removes
    it again. *)
Theorem compileHosts_strict_output (text : jsstring) (opts : options)
  (h : jsstring) :
  strict opts = true ->
  (In (str "127.0.0.1 " ++ h) (hostsOutput (compileHostsState text opts))
   <-> exists l n,
         In l (split 10 text)
         /\ parseFilter l = Ok (FILTER_TYPE_NETWORK n)
         /\ isException n = false
         /\ transformToHostnamePattern n = Some h).
Proof.
  intros Hstrict. rewrite output_membership. unfold compileHostsState.
  rewrite hostsFold_membership. split.
  - intros [[before [l [after [Heq [[n [Hn [He [Hh _]]]] _]]]]] | [[] _]].
    exists l, n. rewrite Heq. repeat split; try assumption.
    apply in_elt.
  - intros [l [n [Hin [Hn [He Hh]]]]]. left.
    destruct (in_split l _ Hin) as [before [after Heq]].
    exists before, l, after. repeat split; [exact Heq | |].
    + exists n. auto.
    + apply Forall_forall. intros l' _ [n' [_ [_ [_ [Hs _]]]]]. congruence.
Qed.

Lemma compileHosts_strict_output_witness :
  let text := join [10] [str "||ads.example.com^$3p"; str "@@||ads.example.com^"] in
  strict strictly = true
  /\ In (str "127.0.0.1 ads.example.com")
       (hostsOutput (compileHostsState text strictly)).
Proof.
  intros text. split; [reflexivity |].
  apply (compileHosts_strict_output text strictly (str "ads.example.com") eq_refl).
  exists (str "||ads.example.com^$3p"),
         (parseNetworkFilter (str "||ads.example.com^$3p")).
  vm_compute. auto.
Defined.

(** ** Lines of a text *)

Lemma split_nonempty (sep : Z) (s : jsstring) : split sep s <> [].
Proof.
  destruct s as [| c s]; simpl; [discriminate |].
  destruct (c =? sep); [discriminate |].
  destruct (split sep s); discriminate.
Qed.

Lemma join_cons (sep p : jsstring) (rest : list jsstring) :
  rest <> [] -> join sep (p :: rest) = p ++ sep ++ join sep rest.
Proof. destruct rest; [contradiction | reflexivity]. Qed.

Lemma join_of_split (s : jsstring) : join [10] (split 10 s) = s.
Proof.
  induction s as [| c s IH]; [reflexivity |].
  simpl split. destruct (Z.eqb_spec c 10) as [-> | Hc].
  - rewrite join_cons by apply split_nonempty. rewrite IH. reflexivity.
  - pose proof (split_nonempty 10 s) as Hne.
    destruct (split 10 s) as [| h r]; [contradiction |].
    destruct r as [| h' r].
    + simpl in *. rewrite IH. reflexivity.
    + rewrite join_cons by discriminate.
      rewrite join_cons in IH by discriminate.
      simpl. rewrite <- IH. reflexivity.
Qed.

Lemma split_app_line (l rest : jsstring) :
  ~ In 10 l ->
  split 10 (l ++ rest)
  = match split 10 rest with
    | h :: r => (l ++ h) :: r
    | [] => [l]
    end.
Proof.
  intros Hl. induction l as [| c l IH]; simpl.
  - destruct (split 10 rest) eqn:E; [| reflexivity].
    exfalso. exact (split_nonempty 10 rest E).
  - destruct (Z.eqb_spec c 10) as [-> | _];
      [exfalso; apply Hl; left; reflexivity |].
    rewrite IH by (intros H; apply Hl; right; exact H).
    destruct (split 10 rest); reflexivity.
Qed.

Lemma split_of_join (ls : list jsstring) :
  ls <> [] ->
  Forall (fun l => ~ In 10 l) ls ->
  split 10 (join [10] ls) = ls.
Proof.
  intros Hne Hall. induction Hall as [| l ls Hl Hls IH]; [contradiction |].
  clear Hne. destruct ls as [| l' ls].
  - simpl join. rewrite <- (app_nil_r l) at 1.
    rewrite (split_app_line l [] Hl). simpl. rewrite app_nil_r. reflexivity.
  - rewrite join_cons by discriminate.
    rewrite (split_app_line l _ Hl).
    change ([10] ++ join [10] (l' :: ls)) with (10 :: join [10] (l' :: ls)).
    cbn [split]. rewrite Z.eqb_refl, IH by discriminate.
    rewrite app_nil_r. reflexivity.
Qed.

(** X17: splitting a text into lines and joining the lines again is the
    identity, and the other way round for lines that hold no line feed: the
    line list of [compileHosts], [compileJson] and [check] loses nothing of
    the text. *)
Theorem split_join_round_trip (s : jsstring) (ls : list jsstring) :
  join [10] (split 10 s) = s
  /\ (ls <> [] -> Forall (fun l => ~ In 10 l) ls ->
      split 10 (join [10] ls) = ls).
Proof. split; [apply join_of_split | apply split_of_join]. Qed.

Lemma checkLines_clean (lines : list jsstring) (err : list jsstring) :
  Forall (fun l => diagnose l = Ok []) lines ->
  checkLines lines err = (err, Ok lines).
Proof.
  induction 1 as [| l lines Hl _ IH]; simpl; [reflexivity |].
  unfold diagnose in Hl.
  destruct (parseFilter l) as [d | e]; [| discriminate].
  rewrite Hl. simpl. rewrite IH. reflexivity.
Qed.

(** X18: a text in which no line has an edit passes [check] unchanged and
    silently: the returned text is the text itself and nothing is logged. *)
Theorem check_clean_text (text : jsstring) :
  Forall (fun l => diagnose l = Ok []) (split 10 text) ->
  check text = ([], Ok text).
Proof.
  intros H. unfold check. rewrite (checkLines_clean _ [] H), join_of_split.
  reflexivity.
Qed.

Lemma check_clean_text_witness :
  let text := join [10] [str "! title"; str "||ads.example.com^$third-party";
                         str "example.com##.ad"; []] in
  Forall (fun l => diagnose l = Ok []) (split 10 text)
  /\ check text = ([], Ok text).
Proof.
  intros text.
  assert (Hs : split 10 text
               = [str "! title"; str "||ads.example.com^$third-party";
                  str "example.com##.ad"; []])
    by (vm_compute; reflexivity).
  assert (H : Forall (fun l => diagnose l = Ok []) (split 10 text)).
  { rewrite Hs. repeat (apply Forall_cons; [vm_compute; reflexivity |]).
    apply Forall_nil. }
  split; [exact H | exact (check_clean_text text H)].
Defined.

(** ** Applying edits *)

Lemma gtb_irrefl (x : Z) : (x >? x) = false.
Proof. rewrite Z.gtb_ltb. apply Z.ltb_irrefl. Qed.

Lemma sliceFrom_app2 (a b c : jsstring) :
  sliceFrom (a ++ b ++ c) (len a + len b) = c.
Proof.
  rewrite app_assoc, <- len_app. apply sliceFrom_suffix.
Qed.

(** X19: [fix] on one edit and on a rename.  A deletion of a span of the
    line removes exactly that span; an insertion puts the text at its offset;
    and the pair that [format] diagnoses for a short modifier name, the
    deletion of the name followed by the insertion of the full name at the
    same offset, replaces the one by the other. *)
Theorem fix_single_edits (a b c t r r' : jsstring) :
  fix_ (a ++ b ++ c) [DIFF_TYPE_DELETE r (len a) (len b)] = a ++ c
  /\ fix_ (a ++ c) [DIFF_TYPE_CREATE r (len a) t] = a ++ t ++ c
  /\ fix_ (a ++ b ++ c)
       [DIFF_TYPE_DELETE r (len a) (len b); DIFF_TYPE_CREATE r' (len a) t]
     = a ++ t ++ c.
Proof.
  unfold fix_. cbn [length fixLoop map rebaseAfterDelete].
  rewrite !slice_prefix, sliceFrom_app2, sliceFrom_suffix.
  rewrite gtb_irrefl.
  rewrite slice_prefix, sliceFrom_suffix. auto.
Qed.

(** X20: the re-basing of later edits in [fix].  Two deletions of spans that
    do not overlap, diagnosed in ascending order, remove both spans; and the
    edits [format] gives for a short modifier name with whitespace before it
    (the whitespace deletion, the deletion of the whole name span, the
    insertion of the full name) leave the full name alone in the place of
    the span. *)
Theorem fix_rebased_edits (a b c d e ws name t r1 r2 r3 : jsstring) :
  fix_ (a ++ b ++ c ++ d ++ e)
    [DIFF_TYPE_DELETE r1 (len a) (len b);
     DIFF_TYPE_DELETE r2 (len a + len b + len c) (len d)]
  = a ++ c ++ e
  /\ fix_ (a ++ ws ++ name ++ c)
       [DIFF_TYPE_DELETE r1 (len a) (len ws);
        DIFF_TYPE_DELETE r2 (len a) (len ws + len name);
        DIFF_TYPE_CREATE r3 (len a) t]
     = a ++ t ++ c.
Proof.
  pose proof (len_nonneg a) as Ha. pose proof (len_nonneg b) as Hb.
  pose proof (len_nonneg c) as Hc. pose proof (len_nonneg ws) as Hws.
  unfold fix_. cbn [length fixLoop map rebaseAfterDelete]. split.
  - rewrite slice_prefix, sliceFrom_app2.
    replace (len a + len b >? len a + len b + len c) with false
      by (symmetry; rewrite Z.gtb_ltb; apply Z.ltb_ge; lia).
    replace (if len a + len b + len c >? len a
             then len a + len b + len c - len b else len a + len b + len c)
      with (len (a ++ c))
      by (rewrite len_app; destruct (Z.gtb_spec (len a + len b + len c) (len a)); lia).
    rewrite (app_assoc a c), slice_prefix, sliceFrom_app2.
    rewrite <- app_assoc. reflexivity.
  - rewrite slice_prefix, sliceFrom_app2, !gtb_irrefl.
    destruct (Z.gtb_spec (len a + len ws) (len a)) as [Hpos | Hzero];
      cbn [fixLoop map rebaseAfterDelete]; rewrite !gtb_irrefl.
    + replace (len ws + len name - len ws) with (len name) by lia.
      rewrite !slice_prefix, sliceFrom_app2, sliceFrom_suffix. reflexivity.
    + replace (len ws + len name) with (len name) by lia.
      rewrite !slice_prefix, sliceFrom_app2, sliceFrom_suffix. reflexivity.
Qed.

(** ** The records of [compileJson] *)

Lemma jsonFold_records (lines : list jsstring)
  (st : list details * list jsstring) :
  map line (fst (jsonFold lines st))
  = map line (fst st) ++ filter parses lines
  /\ length (snd (jsonFold lines st))
     = (length (snd st) + length (filter (fun l => negb (parses l)) lines))%nat.
Proof.
  unfold jsonFold. revert st.
  induction lines as [| l lines IH]; intros st; simpl.
  - rewrite app_nil_r. split; [reflexivity | lia].
  - destruct (IH (jsonStep st l)) as [IH1 IH2]. rewrite IH1, IH2.
    unfold jsonStep, parses.
    destruct (parseFilter l) as [d | e] eqn:Hparse; cbn [fst snd negb].
    + rewrite map_app, <- app_assoc. cbn [map app].
      rewrite (parseFilter_line l d Hparse). split; [reflexivity | lia].
    + rewrite length_app. cbn [length]. split; [reflexivity | lia].
Qed.

(** X21: [compileJson] hands over one record for every line the parser
    accepts, in the order of the text and each carrying its raw line
    (comments and blank lines included), and logs one message for every line
    the parser rejects; when no line is rejected, the raw lines of the
    records joined by line feeds are the text again. *)
Theorem compileJson_records (text : jsstring) :
  map line (fst (compileJson text)) = filter parses (split 10 text)
  /\ length (snd (compileJson text))
     = length (filter (fun l => negb (parses l)) (split 10 text))
  /\ (forallb parses (split 10 text) = true ->
      join [10] (map line (fst (compileJson text))) = text).
Proof.
  unfold compileJson.
  destruct (jsonFold_records (split 10 text) ([], [])) as [H1 H2].
  cbn [fst snd map app length Nat.add] in H1, H2.
  split; [exact H1 |]. split; [exact H2 |].
  intros Hall. rewrite H1.
  replace (filter parses (split 10 text)) with (split 10 text).
  - apply join_of_split.
  - symmetry. apply forallb_filter_id. exact Hall.
Qed.

(** ** The command line *)

Lemma isCase_disjoint (opt : jsstring) (ns ms : list jsstring) :
  Cli.isCase opt ns = true ->
  (forall n m, In n ns -> In m ms -> n <> m) ->
  Cli.isCase opt ms = false.
Proof.
  unfold Cli.isCase. intros Hn Hdis.
  apply existsb_exists in Hn. destruct Hn as [n [Hin Heq]].
  apply jsstring_eqb_eq in Heq. subst n.
  destruct (existsb (jsstring_eqb opt) ms) eqn:E; [| reflexivity].
  apply existsb_exists in E. destruct E as [m [Hm Heq]].
  apply jsstring_eqb_eq in Heq. subst m.
  exfalso. exact (Hdis opt opt Hin Hm eq_refl).
Qed.

Lemma setOption_flags (o o' : Cli.opts) (argv : jsstring) :
  Cli.setOption o argv = Cli.Returned o' ->
  Cli.strict o' = Cli.strict o || Cli.names [str "s"; str "strict"] argv
  /\ Cli.debug o' = Cli.debug o || Cli.names [str "d"; str "debug"] argv
  /\ Cli.check o' = Cli.check o || Cli.names [str "c"; str "check"] argv
  /\ Cli.fix_ o' = Cli.fix_ o || Cli.names [str "a"; str "fix"] argv.
Proof.
  unfold Cli.setOption, Cli.names.
  destruct (codeIs (charCodeAt argv 0) 45); cbn [andb].
  - set (opt := Cli.optionName argv).
    assert (Hclosed : forall ns ms,
               Cli.isCase opt ns = true ->
               forallb (fun n => forallb (fun m => negb (jsstring_eqb n m)) ms) ns = true ->
               Cli.isCase opt ms = false).
    { intros ns ms Hn Hb. apply (isCase_disjoint opt ns ms Hn).
      intros n m Hin Hm ->.
      rewrite forallb_forall in Hb. specialize (Hb m Hin).
      rewrite forallb_forall in Hb. specialize (Hb m Hm).
      assert (jsstring_eqb m m = true) by (apply jsstring_eqb_eq; reflexivity).
      rewrite H in Hb. discriminate. }
    destruct (Cli.isCase opt [str "i"; str "input"]) eqn:Ei.
    { rewrite !(Hclosed _ _ Ei) by reflexivity.
      destruct (Cli.optionValue argv); [| discriminate].
      intros H. injection H as <-. cbn. rewrite !orb_false_r. auto. }
    destruct (Cli.isCase opt [str "s"; str "strict"]) eqn:Es.
    { rewrite !(Hclosed _ _ Es) by reflexivity.
      intros H. injection H as <-. cbn. rewrite !orb_false_r, orb_true_r. auto. }
    destruct (Cli.isCase opt [str "d"; str "debug"]) eqn:Ed.
    { rewrite !(Hclosed _ _ Ed) by reflexivity.
      intros H. injection H as <-. cbn. rewrite !orb_false_r, orb_true_r. auto. }
    destruct (Cli.isCase opt [str "c"; str "check"]) eqn:Ec.
    { rewrite !(Hclosed _ _ Ec) by reflexivity.
      intros H. injection H as <-. cbn. rewrite !orb_false_r, orb_true_r. auto. }
    destruct (Cli.isCase opt [str "a"; str "fix"]) eqn:Ea.
    { intros H. injection H as <-. cbn. rewrite !orb_false_r, orb_true_r. auto. }
    destruct (Cli.isCase opt [str "f"; str "format"]); [| discriminate].
    destruct (Cli.optionValue argv) as [val |]; [| discriminate].
    destruct (Cli.isCase val _); [| discriminate].
    intros H. injection H as <-. cbn. rewrite !orb_false_r. auto.
  - intros H. injection H as <-. cbn. rewrite !orb_false_r. auto.
Qed.

Lemma getOptsFrom_flags (argvs : list jsstring) (o o' : Cli.opts) :
  Cli.getOptsFrom o argvs = Cli.Returned o' ->
  Cli.strict o' = Cli.strict o || existsb (Cli.names [str "s"; str "strict"]) argvs
  /\ Cli.debug o' = Cli.debug o || existsb (Cli.names [str "d"; str "debug"]) argvs
  /\ Cli.check o' = Cli.check o || existsb (Cli.names [str "c"; str "check"]) argvs
  /\ Cli.fix_ o' = Cli.fix_ o || existsb (Cli.names [str "a"; str "fix"]) argvs.
Proof.
  revert o. induction argvs as [| argv argvs IH]; intros o; simpl.
  - intros H. injection H as <-. rewrite !orb_false_r. auto.
  - destruct (Cli.setOption o argv) as [o1 | f] eqn:Hset; [| discriminate].
    intros H. destruct (IH o1 H) as [H1 [H2 [H3 H4]]].
    destruct (setOption_flags o o1 argv Hset) as [G1 [G2 [G3 G4]]].
    rewrite H1, H2, H3, H4, G1, G2, G3, G4, !orb_assoc. auto.
Qed.

(** X22: when [getOpts] returns, each of the four switches is on exactly
    when some argument names it, with one or two dashes, by its letter or its
    word ([-s] / [--strict], [-d] / [--debug], [-c] / [--check],
    [-a] / [--fix]), wherever it stands among the arguments. *)
Theorem getOpts_switches (argvs : list jsstring) (o : Cli.opts) :
  Cli.getOpts argvs = Cli.Returned o ->
  Cli.strict o = existsb (Cli.names [str "s"; str "strict"]) argvs
  /\ Cli.debug o = existsb (Cli.names [str "d"; str "debug"]) argvs
  /\ Cli.check o = existsb (Cli.names [str "c"; str "check"]) argvs
  /\ Cli.fix_ o = existsb (Cli.names [str "a"; str "fix"]) argvs.
Proof. exact (getOptsFrom_flags argvs Cli.initial o). Qed.

Lemma getOpts_switches_witness :
  let argvs := [str "list.txt"; str "--check"; str "-f=hosts"; str "-s"] in
  let o := {| Cli.filepath := str "list.txt"; Cli.strict := true;
              Cli.debug := false; Cli.format := str "hosts";
              Cli.check := true; Cli.fix_ := false |} in
  Cli.getOpts argvs = Cli.Returned o
  /\ Cli.strict o = existsb (Cli.names [str "s"; str "strict"]) argvs
  /\ Cli.debug o = existsb (Cli.names [str "d"; str "debug"]) argvs
  /\ Cli.check o = existsb (Cli.names [str "c"; str "check"]) argvs
  /\ Cli.fix_ o = existsb (Cli.names [str "a"; str "fix"]) argvs.
Proof.
  intros argvs o.
  assert (H : Cli.getOpts argvs = Cli.Returned o) by (vm_compute; reflexivity).
  split; [exact H | exact (getOpts_switches argvs o H)].
Defined.

Lemma setOption_format (o o' : Cli.opts) (argv : jsstring) :
  Cli.setOption o argv = Cli.Returned o' ->
  Cli.format o' = Cli.format o
  \/ Cli.isCase (Cli.format o')
       [Cli.FORMAT_LIST; Cli.FORMAT_DNR; Cli.FORMAT_HOSTS; Cli.FORMAT_JSON]
     = true.
Proof.
  unfold Cli.setOption.
  destruct (codeIs (charCodeAt argv 0) 45);
    [| intros H; injection H as <-; left; reflexivity].
  cbv zeta.
  destruct (Cli.isCase (Cli.optionName argv) [str "i"; str "input"]).
  { destruct (Cli.optionValue argv); [| discriminate].
    intros H. injection H as <-. left. reflexivity. }
  destruct (Cli.isCase (Cli.optionName argv) [str "s"; str "strict"]);
    [intros H; injection H as <-; left; reflexivity |].
  destruct (Cli.isCase (Cli.optionName argv) [str "d"; str "debug"]);
    [intros H; injection H as <-; left; reflexivity |].
  destruct (Cli.isCase (Cli.optionName argv) [str "c"; str "check"]);
    [intros H; injection H as <-; left; reflexivity |].
  destruct (Cli.isCase (Cli.optionName argv) [str "a"; str "fix"]);
    [intros H; injection H as <-; left; reflexivity |].
  destruct (Cli.isCase (Cli.optionName argv) [str "f"; str "format"]);
    [| discriminate].
  destruct (Cli.optionValue argv) as [val |]; [| discriminate].
  destruct (Cli.isCase val _) eqn:Hval; [| discriminate].
  intros H. injection H as <-. right. exact Hval.
Qed.

Lemma getOptsFrom_format (argvs : list jsstring) (o o' : Cli.opts) :
  Cli.getOptsFrom o argvs = Cli.Returned o' ->
  Cli.format o' = Cli.format o
  \/ Cli.isCase (Cli.format o')
       [Cli.FORMAT_LIST; Cli.FORMAT_DNR; Cli.FORMAT_HOSTS; Cli.FORMAT_JSON]
     = true.
Proof.
  revert o. induction argvs as [| argv argvs IH]; intros o; simpl.
  - intros H. injection H as <-. left. reflexivity.
  - destruct (Cli.setOption o argv) as [o1 | f] eqn:Hset; [| discriminate].
    intros H. destruct (IH o1 H) as [Heq | Hcase]; [| right; exact Hcase].
    rewrite Heq. exact (setOption_format o o1 argv Hset).
Qed.

Lemma getOptsFrom_app (before after : list jsstring) (o o' : Cli.opts) :
  Cli.getOptsFrom o before = Cli.Returned o' ->
  Cli.getOptsFrom o (before ++ after) = Cli.getOptsFrom o' after.
Proof.
  revert o. induction before as [| argv before IH]; intros o; simpl.
  - intros H. injection H as <-. reflexivity.
  - destruct (Cli.setOption o argv) as [o1 | f]; [apply IH | discriminate].
Qed.

(** X23: the format that [getOpts] returns is the empty text (no format
    given) or one of the four formats [list], [declarative-net-request],
    [hosts] and [json]. *)
Theorem getOpts_format_known (argvs : list jsstring) (o : Cli.opts) :
  Cli.getOpts argvs = Cli.Returned o ->
  Cli.format o = []
  \/ Cli.isCase (Cli.format o)
       [Cli.FORMAT_LIST; Cli.FORMAT_DNR; Cli.FORMAT_HOSTS; Cli.FORMAT_JSON]
     = true.
Proof. exact (getOptsFrom_format argvs Cli.initial o). Qed.

Lemma getOpts_format_known_witness :
  let argvs := [str "-f=json"; str "list.txt"; str "--format=hosts"] in
  let o := {| Cli.filepath := str "list.txt"; Cli.strict := false;
              Cli.debug := false; Cli.format := str "hosts";
              Cli.check := false; Cli.fix_ := false |} in
  Cli.getOpts argvs = Cli.Returned o
  /\ (Cli.format o = []
      \/ Cli.isCase (Cli.format o)
           [Cli.FORMAT_LIST; Cli.FORMAT_DNR; Cli.FORMAT_HOSTS; Cli.FORMAT_JSON]
         = true).
Proof.
  intros argvs o.
  assert (H : Cli.getOpts argvs = Cli.Returned o) by (vm_compute; reflexivity).
  split; [exact H | exact (getOpts_format_known argvs o H)].
Defined.

(** X24: a format option ([-f], [--format]) whose value is none of the four
    formats, or that has no value, ends [getOpts] with the runtime's
    [ReferenceError] for [val], which [expectValueKinds] reads out of scope,
    and not with a [ParseError]; the arguments after it are not looked at.
    (The arguments before it are taken to be accepted.) *)
Theorem getOpts_bad_format (before after : list jsstring) (argv : jsstring)
  (o : Cli.opts) :
  Cli.getOpts before = Cli.Returned o ->
  Cli.names [str "f"; str "format"] argv = true ->
  match Cli.optionValue argv with
  | Some val =>
      Cli.isCase val
        [Cli.FORMAT_LIST; Cli.FORMAT_DNR; Cli.FORMAT_HOSTS; Cli.FORMAT_JSON]
      = false
  | None => True
  end ->
  Cli.getOpts (before ++ argv :: after) = Cli.Thrown Cli.valNotDefined.
Proof.
  intros Hbefore Hname Hval. unfold Cli.getOpts in *.
  rewrite (getOptsFrom_app before (argv :: after) _ _ Hbefore).
  cbn [Cli.getOptsFrom]. unfold Cli.names in Hname.
  apply andb_true_iff in Hname. destruct Hname as [Hdash Hf].
  unfold Cli.setOption. rewrite Hdash. cbv zeta.
  assert (Hclosed : forall ms,
             forallb (fun n => forallb (fun m => negb (jsstring_eqb n m)) ms)
               [str "f"; str "format"] = true ->
             Cli.isCase (Cli.optionName argv) ms = false).
  { intros ms Hb. apply (isCase_disjoint _ _ ms Hf).
    intros n m Hin Hm ->.
    rewrite forallb_forall in Hb. specialize (Hb m Hin).
    rewrite forallb_forall in Hb. specialize (Hb m Hm).
    assert (jsstring_eqb m m = true) by (apply jsstring_eqb_eq; reflexivity).
    rewrite H in Hb. discriminate. }
  rewrite !Hclosed by reflexivity. rewrite Hf.
  destruct (Cli.optionValue argv) as [val |]; [| reflexivity].
  rewrite Hval. reflexivity.
Qed.

Lemma getOpts_bad_format_witness :
  let o := {| Cli.filepath := str "list.txt"; Cli.strict := true;
              Cli.debug := false; Cli.format := [];
              Cli.check := false; Cli.fix_ := false |} in
  Cli.getOpts [str "list.txt"; str "-s"] = Cli.Returned o
  /\ Cli.names [str "f"; str "format"] (str "--format=csv") = true
  /\ Cli.getOpts ([str "list.txt"; str "-s"] ++ str "--format=csv" :: [str "-d"])
     = Cli.Thrown Cli.valNotDefined.
Proof.
  intros o. split; [reflexivity |]. split; [reflexivity |].
  exact (getOpts_bad_format [str "list.txt"; str "-s"] [str "-d"]
           (str "--format=csv") o eq_refl eq_refl eq_refl).
Defined.

(** ** Leading whitespace *)

Lemma trailingScan_last (pre : jsstring) (c : Z) :
  isWhitespace (Some c) = false ->
  trailingScan (length (pre ++ [c])) (pre ++ [c]) (len (pre ++ [c]) - 1)
  = len pre.
Proof.
  intros Hc. rewrite length_app, Nat.add_1_r.
  replace (len (pre ++ [c]) - 1) with (len pre)
    by (rewrite len_app; change (len [c]) with 1; lia).
  unfold trailingScan.
  rewrite charCodeAt_app_hd. simpl hd_error. rewrite Hc.
  replace (len pre >? -1) with true
    by (pose proof (len_nonneg pre); symmetry; apply Z.gtb_lt; lia).
  reflexivity.
Qed.

(** X25: on a record without modifiers whose line has leading whitespace
    and then a text that neither begins nor ends with whitespace, [format]
    diagnoses the one deletion of the leading run, and [fix] returns the text
    without it. *)
Theorem format_fix_leading_whitespace (d : details) (lead body : jsstring)
  (c : Z) :
  line d = lead ++ body ++ [c] ->
  lead <> [] ->
  forallb (fun c => isWhitespace (Some c)) lead = true ->
  isWhitespace (hd_error (body ++ [c])) = false ->
  isWhitespace (Some c) = false ->
  match d with
  | FILTER_TYPE_NETWORK n => modifiers n = []
  | _ => True
  end ->
  format d = Ok [DIFF_TYPE_DELETE (str "no-whitespaces") 0 (len lead)]
  /\ fix_ (line d) [DIFF_TYPE_DELETE (str "no-whitespaces") 0 (len lead)]
     = body ++ [c].
Proof.
  intros Hline Hne Hlead Hfirst Hc Hmods.
  assert (Hlen : 0 < len lead)
    by (destruct lead; [contradiction | rewrite len_cons;
                                          pose proof (len_nonneg lead); lia]).
  split.
  - unfold format. rewrite Hline.
    pose proof (leadingScan_run lead [] (body ++ [c])
                  (length (lead ++ body ++ [c])) Hlead Hfirst) as H1.
    simpl app in H1. change (len []) with 0 in H1. rewrite Z.add_0_l in H1.
    rewrite H1 by (rewrite length_app; lia).
    rewrite (app_assoc lead body [c]), (trailingScan_last (lead ++ body) c Hc).
    replace (len lead =? 0) with false by (symmetry; apply Z.eqb_neq; lia).
    replace (len (lead ++ body) =? len ((lead ++ body) ++ [c]) - 1) with true
      by (symmetry; apply Z.eqb_eq; rewrite (len_app (lead ++ body));
          change (len [c]) with 1; lia).
    destruct d as [l | n | cf]; cbn [negb app]; try reflexivity.
    rewrite Hmods. reflexivity.
  - rewrite Hline. unfold fix_. cbn [length fixLoop].
    replace (slice (lead ++ body ++ [c]) 0 0) with (@nil Z)
      by (symmetry; apply (slice_prefix [] (lead ++ body ++ [c]))).
    rewrite Z.add_0_l, sliceFrom_suffix. reflexivity.
Qed.

Lemma format_fix_leading_whitespace_witness :
  let d := FILTER_TYPE_OTHERS (str "   ! title") in
  line d = str "   " ++ str "! titl" ++ [101]
  /\ format d = Ok [DIFF_TYPE_DELETE (str "no-whitespaces") 0 3]
  /\ fix_ (line d) [DIFF_TYPE_DELETE (str "no-whitespaces") 0 3]
     = str "! title".
Proof.
  intros d. split; [reflexivity |].
  exact (format_fix_leading_whitespace d (str "   ") (str "! titl") 101
           eq_refl ltac:(discriminate) eq_refl eq_refl eq_refl I).
Defined.

(** ** The modifier section *)

Lemma without_cons (c x : Z) (s : jsstring) :
  without c (x :: s) <-> x <> c /\ without c s.
Proof.
  unfold without. cbn [forallb]. rewrite andb_true_iff, negb_true_iff, Z.eqb_neq.
  tauto.
Qed.

Lemma without_app (c : Z) (a b : jsstring) :
  without c (a ++ b) <-> without c a /\ without c b.
Proof. unfold without. rewrite forallb_app, andb_true_iff. tauto. Qed.

Lemma indexOfFrom_without (s : jsstring) (c i : Z) :
  without c s -> indexOfFrom s c i = -1.
Proof.
  revert i. induction s as [| x s IH]; intros i H; simpl; [reflexivity |].
  apply without_cons in H. destruct H as [Hx Hs].
  apply Z.eqb_neq in Hx. rewrite Hx. apply IH, Hs.
Qed.

Lemma indexOfFrom_first (a b : jsstring) (c i : Z) :
  without c a -> indexOfFrom (a ++ c :: b) c i = i + len a.
Proof.
  revert i. induction a as [| x a IH]; intros i H; simpl.
  - rewrite Z.eqb_refl. change (len []) with 0. lia.
  - apply without_cons in H. destruct H as [Hx Ha].
    apply Z.eqb_neq in Hx. rewrite Hx, IH by exact Ha.
    rewrite len_cons. lia.
Qed.

Lemma modifierEntry_name (cur : jsstring) :
  without 61 cur -> modifierEntry cur = (cur, None).
Proof.
  intros H. unfold modifierEntry, indexOf.
  rewrite (indexOfFrom_without cur 61 0 H). reflexivity.
Qed.

Lemma modifierEntry_value (cur v : jsstring) :
  without 61 cur -> modifierEntry (cur ++ 61 :: v) = (cur, Some v).
Proof.
  intros H. unfold modifierEntry, indexOf.
  rewrite (indexOfFrom_first cur v 61 0 H), Z.add_0_l.
  replace (len cur =? -1) with false
    by (pose proof (len_nonneg cur); symmetry; apply Z.eqb_neq; lia).
  rewrite slice_prefix.
  change (cur ++ 61 :: v) with (cur ++ [61] ++ v).
  rewrite app_assoc.
  replace (len cur + 1) with (len (cur ++ [61]))
    by (rewrite len_app; reflexivity).
  rewrite sliceFrom_suffix. reflexivity.
Qed.

Lemma split_piece (sep : Z) (p rest : jsstring) :
  without sep p ->
  split sep (p ++ sep :: rest) = p :: split sep rest.
Proof.
  intros Hp. induction p as [| c p IH]; simpl.
  - rewrite Z.eqb_refl. reflexivity.
  - apply without_cons in Hp. destruct Hp as [Hc Hp].
    apply Z.eqb_neq in Hc. rewrite Hc, (IH Hp). reflexivity.
Qed.

Lemma split_last_piece (sep : Z) (p : jsstring) :
  without sep p -> split sep p = [p].
Proof.
  intros Hp. induction p as [| c p IH]; simpl; [reflexivity |].
  apply without_cons in Hp. destruct Hp as [Hc Hp].
  apply Z.eqb_neq in Hc. rewrite Hc, (IH Hp). reflexivity.
Qed.

Lemma dropEmptyLast_cons (e : jsstring) (es : list jsstring) :
  es <> [] -> dropEmptyLast (e :: es) = e :: dropEmptyLast es.
Proof.
  intros Hne. destruct es as [| e' es]; [contradiction |].
  unfold dropEmptyLast.
  change (last (e :: e' :: es) []) with (last (e' :: es) []).
  change (removelast (e :: e' :: es)) with (e :: removelast (e' :: es)).
  destruct (last (e' :: es) []); reflexivity.
Qed.

Lemma modifierEntries_piece (p rest : jsstring) :
  without 44 p ->
  modifierEntries (p ++ 44 :: rest) = modifierEntry p :: modifierEntries rest.
Proof.
  intros Hp. unfold modifierEntries.
  rewrite (split_piece 44 p rest Hp),
    dropEmptyLast_cons by apply split_nonempty.
  reflexivity.
Qed.

Lemma modifierEntries_last (p : jsstring) :
  without 44 p ->
  modifierEntries p = match p with [] => [] | _ :: _ => [modifierEntry p] end.
Proof.
  intros Hp. unfold modifierEntries.
  rewrite (split_last_piece 44 p Hp). destruct p; reflexivity.
Qed.

Lemma modifierValue_run (v pre rest : jsstring) (fuel : nat) :
  without 44 v ->
  codeIs (hd_error rest) 44 || isNaN (hd_error rest) = true ->
  (length v < fuel)%nat ->
  modifierValue fuel (pre ++ v ++ rest) (len pre) = (len pre + len v, true).
Proof.
  revert pre fuel. induction v as [| c v IH]; intros pre fuel Hv Hrest Hfuel.
  - destruct fuel as [| fuel]; [simpl in Hfuel; lia |].
    simpl app. unfold modifierValue; fold modifierValue.
    rewrite charCodeAt_app_hd.
    replace (len pre <? len (pre ++ rest) + 1) with true
      by (rewrite len_app; pose proof (len_nonneg rest); symmetry;
          apply Z.ltb_lt; lia).
    change (len []) with 0. rewrite Z.add_0_r.
    destruct (codeIs (hd_error rest) 92) eqn:Hb.
    + destruct (hd_error rest) as [x |]; [| discriminate].
      simpl in Hb, Hrest. apply Z.eqb_eq in Hb. subst x. discriminate.
    + rewrite Hrest. reflexivity.
  - destruct fuel as [| fuel]; [simpl in Hfuel; lia |].
    simpl in Hfuel.
    apply without_cons in Hv. destruct Hv as [Hc Hv].
    unfold modifierValue; fold modifierValue.
    rewrite charCodeAt_app_hd.
    replace (len pre <? len (pre ++ (c :: v) ++ rest) + 1) with true
      by (rewrite len_app; pose proof (len_nonneg ((c :: v) ++ rest));
          symmetry; apply Z.ltb_lt; lia).
    simpl hd_error. apply Z.eqb_neq in Hc.
    cbn [codeIs isNaN]. rewrite Hc. cbn [orb].
    replace (pre ++ (c :: v) ++ rest) with ((pre ++ [c]) ++ v ++ rest)
      by (rewrite <- app_assoc; reflexivity).
    replace (len pre + 1) with (len (pre ++ [c]))
      by (rewrite len_app; reflexivity).
    assert (Hgo : modifierValue fuel ((pre ++ [c]) ++ v ++ rest)
                    (len (pre ++ [c]))
                  = (len pre + len (c :: v), true)).
    { rewrite IH by (assumption || lia).
      rewrite len_app, !len_cons. change (len []) with 0.
      f_equal. lia. }
    rewrite Hgo. destruct (c =? 92); reflexivity.
Qed.

Lemma slice_middle (a b c : jsstring) :
  slice (a ++ b ++ c) (len a) (len a + len b) = b.
Proof.
  unfold slice. rewrite !len_app.
  pose proof (len_nonneg a) as Ha. pose proof (len_nonneg b) as Hb.
  pose proof (len_nonneg c) as Hc.
  destruct (Z.ltb_spec (len a) 0) as [H | _]; [lia |].
  destruct (Z.ltb_spec (len a + len b) 0) as [H | _]; [lia |].
  rewrite !Z.min_l by lia.
  replace (len a + len b - len a) with (len b) by lia.
  unfold len. rewrite !Nat2Z.id.
  rewrite skipn_app, Nat.sub_diag, skipn_all. simpl.
  rewrite firstn_app, Nat.sub_diag, firstn_all. simpl. apply app_nil_r.
Qed.

Lemma slice_at (l a b c : jsstring) (i k : Z) :
  l = a ++ b ++ c -> i = len a -> k = len a + len b -> slice l i k = b.
Proof. intros -> -> ->. apply slice_middle. Qed.

Lemma searchModifiers_done (fuel : nat) (l : jsstring) (i k : Z)
  (mods : list modifier) (marks : list modifierMarker) :
  len l + 1 <= i -> searchModifiers fuel l i k mods marks = (mods, marks).
Proof.
  intros H. destruct fuel as [| fuel]; [reflexivity |].
  unfold searchModifiers; fold searchModifiers.
  replace (i <? len l + 1) with false by (symmetry; apply Z.ltb_ge; lia).
  reflexivity.
Qed.

(** A text up to its first comma. *)
Lemma cut_at_comma (s : jsstring) :
  exists v rest,
    s = v ++ rest /\ without 44 v /\ (rest = [] \/ exists r, rest = 44 :: r).
Proof.
  induction s as [| c s [v [rest [Hs [Hv Hrest]]]]].
  - exists [], []. repeat split. left. reflexivity.
  - destruct (Z.eq_dec c 44) as [-> | Hc].
    + exists [], (44 :: s). repeat split. right. exists s. reflexivity.
    + exists (c :: v), rest. subst s. split; [reflexivity |].
      split; [apply without_cons; split; assumption | exact Hrest].
Qed.

Ltac len_norm :=
  rewrite ?len_app, ?len_cons; change (len []) with 0; try lia.

Lemma searchModifiers_entries (n : nat) :
  forall (todo A cur l : jsstring) (i k : Z) (fuel : nat)
    (mods : list modifier) (marks : list modifierMarker),
    (length todo <= n)%nat ->
    l = A ++ cur ++ todo -> i = len A + len cur -> k = len A ->
    without 61 cur -> without 44 cur ->
    (length todo < fuel)%nat ->
    fst (searchModifiers fuel l i k mods marks)
    = mods ++ modifierEntries (cur ++ todo).
Proof.
  induction n as [n IH] using lt_wf_ind.
  intros todo A cur l i k fuel mods marks Hn Hl Hi Hk H61 H44 Hfuel.
  destruct fuel as [| fuel]; [lia |].
  pose proof (len_nonneg A) as HA. pose proof (len_nonneg cur) as Hcur.
  pose proof (len_nonneg todo) as Htodo.
  assert (Hlen : len l = len A + len cur + len todo)
    by (subst l; len_norm).
  assert (Hc : charCodeAt l i = hd_error todo).
  { subst l i. rewrite app_assoc, <- len_app. apply charCodeAt_app_hd. }
  assert (Hname : slice l k i = cur)
    by (apply (slice_at l A cur todo); assumption).
  unfold searchModifiers; fold searchModifiers.
  replace (i <? len l + 1) with true by (symmetry; apply Z.ltb_lt; lia).
  rewrite Hc, Hname.
  destruct todo as [| c todo].
  - (* the end of the line *)
    cbn [hd_error codeIs isNaN andb]. change (len (@nil Z)) with 0 in *.
    rewrite app_nil_r, (modifierEntries_last cur H44).
    destruct cur as [| x cur].
    + change (len (@nil Z)) with 0 in *.
      replace (i >? k) with false
        by (symmetry; rewrite Z.gtb_ltb; apply Z.ltb_ge; lia).
      rewrite searchModifiers_done by lia.
      cbn [fst]. rewrite app_nil_r. reflexivity.
    + replace (i >? k) with true
        by (rewrite len_cons in Hi; pose proof (len_nonneg cur);
            symmetry; rewrite Z.gtb_ltb; apply Z.ltb_lt; lia).
      rewrite searchModifiers_done by lia.
      rewrite (modifierEntry_name _ H61). reflexivity.
  - cbn [hd_error codeIs isNaN andb]. simpl in Hfuel, Hn.
    rewrite len_cons in Hlen.
    destruct (Z.eqb_spec c 61) as [-> | Hne61].
    + (* a value *)
      destruct (cut_at_comma todo) as [v [rest [Htodo' [Hv Hrest]]]].
      assert (Hval : modifierValue (length l + 2) l (i + 1)
                     = (len (A ++ cur ++ [61]) + len v, true)).
      { replace l with ((A ++ cur ++ [61]) ++ v ++ rest)
          by (subst l todo; rewrite <- !app_assoc; reflexivity).
        replace (i + 1) with (len (A ++ cur ++ [61])) by (subst i; len_norm).
        apply modifierValue_run; [exact Hv | |].
        - destruct Hrest as [-> | [r ->]]; reflexivity.
        - rewrite !length_app. lia. }
      rewrite Hval.
      rewrite (setLastValue_app mods cur None).
      assert (Hvalue : slice l (i + 1) (len (A ++ cur ++ [61]) + len v) = v).
      { apply (slice_at l (A ++ cur ++ [61]) v rest).
        - subst l todo. rewrite <- !app_assoc. reflexivity.
        - subst i. len_norm.
        - reflexivity. }
      rewrite Hvalue.
      assert (Hv_len : len todo = len v + len rest)
        by (subst todo; len_norm).
      pose proof (len_nonneg v) as Hv0.
      destruct Hrest as [-> | [r ->]].
      * rewrite searchModifiers_done
          by (change (len []) with 0 in Hv_len; revert Hlen; len_norm).
        cbn [fst]. rewrite app_nil_r in Htodo'. subst todo.
        rewrite modifierEntries_last
          by (apply without_app; split; [exact H44 |];
              apply without_cons; split; [lia | exact Hv]).
        rewrite (modifierEntry_value cur v H61).
        destruct cur; reflexivity.
      * rewrite (IH (length r)) with (todo := r)
            (A := A ++ cur ++ [61] ++ v ++ [44]) (cur := []).
        -- rewrite <- app_assoc. subst todo. f_equal.
           replace (cur ++ 61 :: v ++ 44 :: r)
             with ((cur ++ 61 :: v) ++ 44 :: r)
             by (rewrite <- app_assoc; reflexivity).
           rewrite modifierEntries_piece
             by (apply without_app; split; [exact H44 |];
                 apply without_cons; split; [lia | exact Hv]).
           rewrite (modifierEntry_value cur v H61). reflexivity.
        -- subst todo. rewrite length_app in Hn. simpl in Hn. lia.
        -- apply Nat.le_refl.
        -- subst l todo. rewrite <- !app_assoc. reflexivity.
        -- len_norm.
        -- len_norm.
        -- reflexivity.
        -- reflexivity.
        -- subst todo. rewrite length_app in Hfuel. simpl in Hfuel. lia.
    + destruct (Z.eqb_spec c 44) as [-> | Hne44].
      * (* the end of an entry *)
        rewrite (IH (length todo)) with (todo := todo)
            (A := A ++ cur ++ [44]) (cur := []).
        -- rewrite <- app_assoc. f_equal.
           rewrite (modifierEntries_piece cur todo H44),
             (modifierEntry_name cur H61). reflexivity.
        -- lia.
        -- apply Nat.le_refl.
        -- subst l. rewrite <- !app_assoc. reflexivity.
        -- subst i. len_norm.
        -- subst i. len_norm.
        -- reflexivity.
        -- reflexivity.
        -- lia.
      * (* a character of the name *)
        rewrite (IH (length todo)) with (todo := todo)
            (A := A) (cur := cur ++ [c]).
        -- rewrite <- app_assoc. reflexivity.
        -- lia.
        -- apply Nat.le_refl.
        -- subst l. rewrite <- !app_assoc. reflexivity.
        -- subst i. len_norm.
        -- exact Hk.
        -- apply without_app. split; [exact H61 |].
           apply without_cons. split; [exact Hne61 | reflexivity].
        -- apply without_app. split; [exact H44 |].
           apply without_cons. split; [exact Hne44 | reflexivity].
        -- lia.
Qed.

Lemma lookahead_without (s pre l : jsstring) (fuel : nat) (i k : Z) :
  l = pre ++ s -> k = len pre -> without 36 s ->
  fst (lookahead fuel l i k) = i /\ k <= snd (lookahead fuel l i k).
Proof.
  revert pre fuel k. induction s as [| c s IH]; intros pre fuel k Hl Hk Hs.
  - destruct fuel as [| fuel]; [simpl; lia |].
    unfold lookahead; fold lookahead.
    replace (k <? len l) with false
      by (subst l k; rewrite app_nil_r; symmetry; apply Z.ltb_irrefl).
    simpl. lia.
  - destruct fuel as [| fuel]; [simpl; lia |].
    apply without_cons in Hs. destruct Hs as [Hc Hs].
    unfold lookahead; fold lookahead.
    replace (k <? len l) with true
      by (subst l k; rewrite len_app, len_cons; pose proof (len_nonneg s);
          symmetry; apply Z.ltb_lt; lia).
    replace (charCodeAt l k) with (Some c)
      by (subst l k; rewrite charCodeAt_app_hd; reflexivity).
    cbn [codeIs]. apply Z.eqb_neq in Hc. rewrite Hc.
    destruct (c =? 61); [simpl; lia |].
    destruct (IH (pre ++ [c]) fuel (k + 1)) as [Hfst Hsnd];
      [subst l; rewrite <- app_assoc; reflexivity
      | subst k; rewrite len_app; reflexivity
      | exact Hs |].
    split; [exact Hfst | lia].
Qed.

Lemma findModifierMarker_at (body section : jsstring) (fuel : nat) :
  without 36 section ->
  findModifierMarker (S fuel) (body ++ 36 :: section) (len body) = len body.
Proof.
  intros Hs. unfold findModifierMarker; fold findModifierMarker.
  replace (len body <? len (body ++ 36 :: section)) with true
    by (rewrite len_app, len_cons; pose proof (len_nonneg section);
        symmetry; apply Z.ltb_lt; lia).
  rewrite charCodeAt_app_hd. cbn [hd_error codeIs]. rewrite Z.eqb_refl.
  destruct (lookahead_without section (body ++ [36]) (body ++ 36 :: section)
              (length (body ++ 36 :: section)) (len body) (len body + 1))
    as [Hfst Hsnd];
    [rewrite <- app_assoc; reflexivity | rewrite len_app; reflexivity
    | exact Hs |].
  destruct (lookahead _ _ _ _) as [i' k]. simpl in Hfst, Hsnd. subst i'.
  replace (len body =? k) with false by (symmetry; apply Z.eqb_neq; lia).
  reflexivity.
Qed.

Lemma findModifierMarker_skip (mid pre rest l : jsstring) (fuel : nat) (i : Z) :
  l = pre ++ mid ++ rest -> i = len pre -> without 36 mid ->
  findModifierMarker (length mid + fuel) l i
  = findModifierMarker fuel l (i + len mid).
Proof.
  revert pre i. induction mid as [| c mid IH]; intros pre i Hl Hi Hm.
  - change (len []) with 0. rewrite Z.add_0_r. reflexivity.
  - apply without_cons in Hm. destruct Hm as [Hc Hm].
    cbn [length Nat.add]. unfold findModifierMarker; fold findModifierMarker.
    replace (i <? len l) with true
      by (subst l i; rewrite !len_app, len_cons;
          pose proof (len_nonneg mid); pose proof (len_nonneg rest);
          symmetry; apply Z.ltb_lt; lia).
    replace (charCodeAt l i) with (Some c)
      by (subst l i; rewrite charCodeAt_app_hd; reflexivity).
    cbn [codeIs]. apply Z.eqb_neq in Hc. rewrite Hc.
    rewrite (IH (pre ++ [c]) (i + 1));
      [rewrite len_cons; f_equal; lia
      | subst l; rewrite <- app_assoc; reflexivity
      | subst i; rewrite len_app; reflexivity
      | exact Hm].
Qed.

Lemma findModifierMarker_end (fuel : nat) (l : jsstring) (i : Z) :
  len l <= i -> findModifierMarker fuel l i = i.
Proof.
  intros H. destruct fuel as [| fuel]; [reflexivity |].
  unfold findModifierMarker; fold findModifierMarker.
  replace (i <? len l) with false by (symmetry; apply Z.ltb_ge; lia).
  reflexivity.
Qed.

Lemma cut_at_index (s : jsstring) (i : Z) :
  0 <= i <= len s ->
  exists pre mid, s = pre ++ mid /\ len pre = i.
Proof.
  intros Hi. exists (firstn (Z.to_nat i) s), (skipn (Z.to_nat i) s).
  split; [symmetry; apply firstn_skipn |].
  unfold len in *. rewrite firstn_length_le by lia. lia.
Qed.

Lemma parseNetworkFilter_scan (l : jsstring) :
  exists i0,
    0 <= i0
    /\ (forall j, 0 <= j < i0 -> isAnchorChar (charCodeAt l j) = true)
    /\ modifiers (parseNetworkFilter l)
       = fst (searchModifiers (length l + 2) l
                (findModifierMarker (S (length l)) l i0 + 1)
                (findModifierMarker (S (length l)) l i0 + 1) [] []).
Proof.
  unfold parseNetworkFilter. cbv zeta.
  change (0 + 1) with 1. change (0 + 2 + 1) with 3. change (0 + 2) with 2.
  destruct (codeIs (charCodeAt l 0) 64 && codeIs (charCodeAt l 1) 64) eqn:He;
    cbv zeta beta iota.
  - apply andb_true_iff in He. destruct He as [H0 H1].
    change (2 + 1 + 1) with 4. change (2 + 1) with 3.
    destruct (codeIs (charCodeAt l 2) 124) eqn:H2;
      [destruct (codeIs (charCodeAt l 3) 124) eqn:H3 |];
      cbv zeta beta iota;
      match goal with
      | |- context [findModifierMarker _ l ?s] =>
          exists s; split; [lia | split];
          [intros j Hj; unfold isAnchorChar;
           assert (Hcase : j = 0 \/ j = 1 \/ j = 2 \/ j = 3) by lia;
           destruct Hcase as [-> | [-> | [-> | ->]]];
           rewrite ?H0, ?H1, ?H2, ?H3, ?orb_true_r; try reflexivity; lia
          | destruct (searchModifiers _ l _ _ [] []); reflexivity]
      end.
  - change (0 + 1 + 1) with 2. change (0 + 1) with 1.
    destruct (codeIs (charCodeAt l 0) 124) eqn:H0;
      [destruct (codeIs (charCodeAt l 1) 124) eqn:H1 |];
      cbv zeta beta iota;
      match goal with
      | |- context [findModifierMarker _ l ?s] =>
          exists s; split; [lia | split];
          [intros j Hj; unfold isAnchorChar;
           assert (Hcase : j = 0 \/ j = 1) by lia;
           destruct Hcase as [-> | ->];
           rewrite ?H0, ?H1, ?orb_true_r; try reflexivity; lia
          | destruct (searchModifiers _ l _ _ [] []); reflexivity]
      end.
Qed.

(** X26: the modifiers of a network filter, read off its text.  For a line
    [body$section] with no further [$] in it, the modifiers that
    [parseNetworkFilter] returns are the entries of the section: the pieces
    between commas, each a name, or a name and a value around its first [=];
    an empty piece at the end (a trailing comma, or an empty section) gives
    no modifier.  Every comma separates, whatever precedes it. *)
Theorem parseNetworkFilter_modifier_entries (body section : jsstring) :
  without 36 body -> without 36 section ->
  modifiers (parseNetworkFilter (body ++ 36 :: section))
  = modifierEntries section.
Proof.
  intros Hb Hs. set (l := body ++ 36 :: section).
  destruct (parseNetworkFilter_scan l) as [i0 [H0 [Hanchor ->]]].
  assert (Hi0 : i0 <= len body).
  { destruct (Z.le_gt_cases i0 (len body)) as [H | H]; [exact H |].
    specialize (Hanchor (len body) (conj (len_nonneg body) H)).
    unfold l in Hanchor. rewrite charCodeAt_app_hd in Hanchor.
    discriminate Hanchor. }
  destruct (cut_at_index body i0) as [pre [mid [Hbody Hpre]]]; [lia |].
  assert (Hm : findModifierMarker (S (length l)) l i0 = len body).
  { replace (S (length l))
      with (length mid + S (S (length pre + length section)))%nat
      by (unfold l; subst body; rewrite !length_app; simpl; lia).
    rewrite (findModifierMarker_skip mid pre (36 :: section) l _ i0).
    - replace (i0 + len mid) with (len body)
        by (subst body; rewrite len_app; lia).
      apply findModifierMarker_at. exact Hs.
    - unfold l. subst body. rewrite <- app_assoc. reflexivity.
    - symmetry. exact Hpre.
    - subst body. apply without_app in Hb. tauto. }
  rewrite Hm.
  rewrite (searchModifiers_entries (length section) section (body ++ [36]) []
             l (len body + 1) (len body + 1) (length l + 2) [] []).
  - reflexivity.
  - apply Nat.le_refl.
  - unfold l. rewrite <- app_assoc. reflexivity.
  - len_norm.
  - len_norm.
  - reflexivity.
  - reflexivity.
  - unfold l. rewrite length_app. simpl. lia.
Qed.

Lemma parseNetworkFilter_modifier_entries_witness :
  without 36 (str "||a.example^")
  /\ without 36 (str "3p,domain=b.example,")
  /\ modifiers (parseNetworkFilter
                  (str "||a.example^" ++ 36 :: str "3p,domain=b.example,"))
     = modifierEntries (str "3p,domain=b.example,")
  /\ modifierEntries (str "3p,domain=b.example,")
     = [(str "3p", None); (str "domain", Some (str "b.example"))].
Proof.
  split; [reflexivity |]. split; [reflexivity |].
  split; [| reflexivity].
  exact (parseNetworkFilter_modifier_entries (str "||a.example^")
           (str "3p,domain=b.example,") eq_refl eq_refl).
Defined.

(** X27: a network filter without [$] has no modifiers. *)
Theorem parseNetworkFilter_no_modifiers (l : jsstring) :
  without 36 l -> modifiers (parseNetworkFilter l) = [].
Proof.
  intros Hl.
  destruct (parseNetworkFilter_scan l) as [i0 [H0 [Hanchor ->]]].
  assert (Hi0 : i0 <= len l).
  { destruct (Z.le_gt_cases i0 (len l)) as [H | H]; [exact H |].
    specialize (Hanchor (len l) (conj (len_nonneg l) H)).
    pose proof (charCodeAt_app_hd l []) as Hend.
    rewrite app_nil_r in Hend. rewrite Hend in Hanchor.
    discriminate Hanchor. }
  destruct (cut_at_index l i0) as [pre [mid [Hcut Hpre]]]; [lia |].
  assert (Hm : findModifierMarker (S (length l)) l i0 = len l).
  { replace (S (length l)) with (length mid + S (length pre))%nat
      by (rewrite Hcut at 1; rewrite length_app; lia).
    rewrite (findModifierMarker_skip mid pre [] l _ i0).
    - replace (i0 + len mid) with (len l)
        by (rewrite Hcut at 1; rewrite len_app; lia).
      apply findModifierMarker_end, Z.le_refl.
    - rewrite app_nil_r. exact Hcut.
    - symmetry. exact Hpre.
    - rewrite Hcut in Hl. apply without_app in Hl. tauto. }
  rewrite Hm, searchModifiers_done by lia. reflexivity.
Qed.

Lemma parseNetworkFilter_no_modifiers_witness :
  without 36 (str "@@||a.example^|")
  /\ modifiers (parseNetworkFilter (str "@@||a.example^|")) = [].
Proof.
  split; [reflexivity |].
  exact (parseNetworkFilter_no_modifiers (str "@@||a.example^|") eq_refl).
Defined.
